(** * Flower_mockup: aggregation engine, fit configuration and client fit

    A shallow embedding of
      - [src/server_app/strategy/aggregate.py]   (aggregate, weighted_loss_avg,
        aggregate_qffl, aggregate_and_spreadout),
      - [face_verification/server.py]            (fit_config, eval_config, the
        evaluation function of get_eval_fn),
      - [src/client_app/face_client.py]          (FlowerFaceClient and
        FlowerFaceRayClient: get_parameters, fit, evaluate),
      - [src/driver.py]                          (train, test),
      - [local/server.py]                        (the evaluation function of
        get_eval_fn),
      - [src/utils/utils_wandb.py]               (custom_wandb_init),
    the properties of the specification that concern them, and further
    properties that the code shows.

    Numbers.  The arrays hold floating-point numbers.  The code is embedded
    over an interface [Numeric] of scalar arithmetic, whose instance
    [float_numeric] is binary64 (Rocq's primitive floats), the arithmetic
    numpy computes with: sums and products are rounded, a division by zero
    is a NaN or an infinity and not an exception, and a Python int that is
    beyond the range of the floats cannot be converted.  What is proved for
    every instance of the interface is proved of binary64; what depends on
    the arithmetic is proved in binary64.

    Arrays.  The functions are embedded at two levels: on array values, where
    the results are computed, and on a store of arrays at addresses
    ([Module Store]), where [layer * n] allocates and [tmp += x] and
    [embeddings[cid,:] = w] overwrite.  The store level is what the frame
    property is stated on; it is proved to compute what the value level
    computes ([store_aggregate_simulates], [store_aggregate_qffl_simulates],
    [store_aggregate_and_spreadout_simulates]). *)

From Stdlib Require Import ZArith List String Floats Lia.
From stdpp Require Import base option list strings gmap.

Set Default Proof Using "Type".
Open Scope Z_scope.

(** ** Python exceptions and the error monad *)

Inductive PyError : Type :=
  | ValueError          (* numpy: operands could not be broadcast together *)
  | IndexError          (* list index / array index out of range *)
  | KeyError (k : string)
  | TypeError
  | AssertionError
  | ZeroDivisionError
  | OverflowError       (* int too large to convert to float *)
  | UnboundLocalError.

Inductive result (A : Type) : Type :=
  | Ok (a : A)
  | Err (e : PyError).
Arguments Ok {A} a.
Arguments Err {A} e.

Definition rbind {A B} (m : result A) (k : A → result B) : result B :=
  match m with
  | Ok a => k a
  | Err e => Err e
  end.

Notation "'let*' x ':=' m 'in' k" := (rbind m (fun x => k))
  (at level 10, x pattern, m at level 100, k at level 200).

(** A list comprehension whose body may raise: left to right, first error wins. *)
Fixpoint rmap {A B} (f : A → result B) (l : list A) : result (list B) :=
  match l with
  | [] => Ok []
  | x :: l' => let* y := f x in let* ys := rmap f l' in Ok (y :: ys)
  end.

(** A [for] loop threading an accumulator. *)
Fixpoint rfold {A B} (f : B → A → result B) (acc : B) (l : list A) : result B :=
  match l with
  | [] => Ok acc
  | x :: l' => let* acc' := f acc x in rfold f acc' l'
  end.

(** [functools.reduce(f, xs)] without initial value. *)
Definition reduce {A} (f : A → A → result A) (l : list A) : result A :=
  match l with
  | [] => Err TypeError
  | x :: l' => rfold f x l'
  end.

Definition is_ok {A} (r : result A) : bool :=
  match r with Ok _ => true | Err _ => false end.

Definition result_map {A B} (f : A → B) (r : result A) : result B :=
  match r with Ok a => Ok (f a) | Err e => Err e end.

(** ** Scalar arithmetic *)

Class Numeric (F : Type) : Type := {
  nzero : F;
  nadd : F → F → F;
  nsub : F → F → F;
  nmul : F → F → F;
  ndiv : F → F → F;
  nsqrt : F → F;
  nmax : F → F → F;
  (* x < y *)
  nltb : F → F → bool;
  (* conversion of a Python int that meets a float: the nearest float *)
  of_int : Z → F;
  (* the int is beyond the range of the floats *)
  int_overflows : Z → bool;
  (* the constant 1e-12, the default [eps] of [torch.nn.functional.normalize] *)
  eps12 : F;
}.

(** Round-to-nearest conversion of an integer to binary64. *)
Definition float_of_Z (z : Z) : float :=
  SF2Prim (binary_normalize prec emax z 0 false).

(** [clamp_min]: a NaN on either side gives a NaN. *)
Definition float_max (x y : float) : float :=
  if PrimFloat.is_nan x then x
  else if PrimFloat.is_nan y then y
  else if PrimFloat.ltb x y then y else x.

#[export] Instance float_numeric : Numeric float := {|
  nzero := 0%float;
  nadd := PrimFloat.add;
  nsub := PrimFloat.sub;
  nmul := PrimFloat.mul;
  ndiv := PrimFloat.div;
  nsqrt := PrimFloat.sqrt;
  nmax := float_max;
  nltb := PrimFloat.ltb;
  of_int := float_of_Z;
  int_overflows := fun z => PrimFloat.is_infinity (float_of_Z z);
  eps12 := 0x1.19799812dea11p-40%float;   (* the binary64 nearest to 1e-12 *)
|}.

(** A Python int that meets a float ([n * x], [x / n], [float(n)]) is
    converted to a float; beyond the range of the floats the conversion
    raises OverflowError. *)
Definition py_float_of_int {F : Type} `{Numeric F} (n : Z) : result F :=
  if int_overflows n then Err OverflowError else Ok (of_int n).

(** ** ndarrays: a shape and the elements in row-major order *)

Section Arrays.
Context {F : Type} `{Numeric F}.

Record NDArray : Type := mkArr { shape : list nat; data : list F }.

Definition size_of (s : list nat) : nat := foldr Nat.mul 1%nat s.

Definition wf_array (a : NDArray) : Prop := length (data a) = size_of (shape a).


(** *** Broadcasting (numpy's rule: align the shapes on the right; two
    dimensions are compatible when they are equal or one of them is 1). *)

Fixpoint broadcast_dims (a b : list nat) : option (list nat) :=
  match a, b with
  | [], _ => Some b
  | _, [] => Some a
  | x :: a', y :: b' =>
      match broadcast_dims a' b' with
      | None => None
      | Some r =>
          if (x =? y)%nat then Some (x :: r)
          else if (x =? 1)%nat then Some (y :: r)
          else if (y =? 1)%nat then Some (x :: r)
          else None
      end
  end.

Definition broadcast_shape (a b : list nat) : option (list nat) :=
  reverse <$> broadcast_dims (reverse a) (reverse b).

Definition pad_shape (n : nat) (s : list nat) : list nat :=
  replicate (n - length s) 1%nat ++ s.

(** The elements of an array of shape [s] seen at the shape [t] of the same
    rank: a dimension of extent 1 is repeated. *)
Fixpoint broadcast_data (s t : list nat) (d : list F) : list F :=
  match s, t with
  | n :: s', m :: t' =>
      let chunk := size_of s' in
      if (n =? m)%nat
      then concat (map (fun i => broadcast_data s' t' (take chunk (drop (i * chunk) d)))
                       (seq 0 m))
      else concat (replicate m (broadcast_data s' t' d))
  | _, _ => d
  end.

Definition broadcast_to (t : list nat) (a : NDArray) : list F :=
  broadcast_data (pad_shape (length t) (shape a)) t (data a).

(** An elementwise binary ufunc ([np.add], [-]) on two arrays. *)
Definition np_binop (f : F → F → F) (a b : NDArray) : result NDArray :=
  match broadcast_shape (shape a) (shape b) with
  | None => Err ValueError
  | Some t => Ok (mkArr t (zip_with f (broadcast_to t a) (broadcast_to t b)))
  end.

(** The in-place form ([a += b]): the result must have the shape of [a]. *)
Definition np_inplace (f : F → F → F) (a b : NDArray) : result NDArray :=
  match broadcast_shape (shape a) (shape b) with
  | None => Err ValueError
  | Some t =>
      if decide (t = shape a)
      then Ok (mkArr t (zip_with f (data a) (broadcast_to t b)))
      else Err ValueError
  end.

Definition np_add : NDArray → NDArray → result NDArray := np_binop nadd.
Definition np_sub : NDArray → NDArray → result NDArray := np_binop nsub.
Definition np_iadd : NDArray → NDArray → result NDArray := np_inplace nadd.

(** An array against a scalar: [layer * n], [layer / n]. *)
Definition np_scalar (f : F → F) (a : NDArray) : NDArray :=
  mkArr (shape a) (f <$> data a).
Definition np_mul_s (a : NDArray) (x : F) : NDArray := np_scalar (fun y => nmul y x) a.
Definition np_div_s (a : NDArray) (x : F) : NDArray := np_scalar (fun y => ndiv y x) a.

(** An array against a Python int, which numpy converts to the type of the
    array. *)
Definition np_mul_int (a : NDArray) (n : Z) : result NDArray :=
  let* x := py_float_of_int n in Ok (np_mul_s a x).
Definition np_div_int (a : NDArray) (n : Z) : result NDArray :=
  let* x := py_float_of_int n in Ok (np_div_s a x).

Definition np_zeros (s : list nat) : NDArray := mkArr s (replicate (size_of s) nzero).

End Arrays.
Arguments NDArray F : clear implicits.

(** A ParameterSet ([NDArrays]): the list of a model's layers. *)
Abbreviation NDArrays F := (list (NDArray F)).

(** ** Python list helpers *)

(** [zip( *ls )]: the tuples of i-th elements, as long as the shortest list;
    nothing for no lists. *)
Fixpoint zip_star {A} (ls : list (list A)) : list (list A) :=
  match ls with
  | [] => []
  | l :: ls' =>
      match ls' with
      | [] => fmap (fun x => [x]) l
      | _ :: _ => zip_with cons l (zip_star ls')
      end
  end.

(** [sum(ints)]. *)
Definition py_sum (l : list Z) : Z := foldl Z.add 0 l.

(** [l[i]] for [i] a [range] index. *)
Definition py_get {A} (l : list A) (i : nat) : result A :=
  match l !! i with
  | Some x => Ok x
  | None => Err IndexError
  end.

(** The position that a Python index (negative ones count from the end)
    denotes in a sequence of length [n]. *)
Definition py_position (n : nat) (i : Z) : result nat :=
  if (0 <=? i) && (i <? Z.of_nat n) then Ok (Z.to_nat i)
  else if (- Z.of_nat n <=? i) && (i <? 0) then Ok (Z.to_nat (i + Z.of_nat n))
  else Err IndexError.

(** [l[i]] for an arbitrary int. *)
Definition py_index {A} (l : list A) (i : Z) : result A :=
  let* k := py_position (length l) i in py_get l k.

(** [l[:-1]]. *)
Definition py_init {A} (l : list A) : list A := take (length l - 1) l.

(** ** The aggregation engine (src/server_app/strategy/aggregate.py) *)

Section Aggregation.
Context {F : Type} `{Numeric F}.

(** [reduce(np.add, layer_updates) / num_examples_total] *)
Definition average_layer (num_examples_total : Z) (layer_updates : list (NDArray F))
  : result (NDArray F) :=
  let* s := reduce np_add layer_updates in
  np_div_int s num_examples_total.

Definition aggregate (results : list (NDArrays F * Z)) : result (NDArrays F) :=
  (* Calculate the total number of examples used during training *)
  let num_examples_total := py_sum (snd <$> results) in
  (* Create a list of weights, each multiplied by the related number of examples *)
  let* weighted_weights :=
    rmap (fun '((weights, num_examples) : NDArrays F * Z) =>
            rmap (fun layer : NDArray F => np_mul_int layer num_examples) weights)
         results in
  (* Compute average weights of each layer *)
  rmap (average_layer num_examples_total) (zip_star weighted_weights).

(** [x / n] on Python numbers, for which [/] raises on a zero divisor; [n]
    counts the passes of a loop. *)
Definition py_truediv (x : F) (n : Z) : result F :=
  if n =? 0 then Err ZeroDivisionError else Ok (ndiv x (of_int n)).

(** [weighted_loss_avg]: the operands are Python numbers.  [sum] starts from
    the int 0, and an int that meets a float is converted first. *)
Definition weighted_loss_avg (results : list (Z * F)) : result F :=
  let num_total_evaluation_examples := py_sum (fst <$> results) in
  let* weighted_losses :=
    rmap (fun '((num_examples, loss) : Z * F) =>
            let* n := py_float_of_int num_examples in Ok (nmul n loss))
         results in
  let* total := py_float_of_int num_total_evaluation_examples in
  if num_total_evaluation_examples =? 0 then Err ZeroDivisionError
  else Ok (ndiv (foldl nadd (of_int 0) weighted_losses) total).

(** [np.sum(np.asarray(hs))] of a list of scalars: numpy's pairwise
    summation.  Fewer than 8 elements are added from left to right.  Up to
    128 elements, eight running sums take every eighth element, the eight
    are added in pairs, and the elements after the last full group of 8 are
    added one by one.  More elements are cut in two, the first part of a
    length that is a multiple of 8.  The reduction starts from 0. *)
Fixpoint add_groups (r l : list F) (groups : nat) : list F :=
  match groups with
  | O => r
  | S groups' => add_groups (zip_with nadd r (take 8 l)) (drop 8 l) groups'
  end.

Definition block_sum (l : list F) : F :=
  let full := (length l / 8)%nat in
  let res :=
    match add_groups (take 8 l) (drop 8 l) (full - 1) with
    | [r0; r1; r2; r3; r4; r5; r6; r7] =>
        nadd (nadd (nadd r0 r1) (nadd r2 r3)) (nadd (nadd r4 r5) (nadd r6 r7))
    | _ => nzero
    end in
  foldl nadd res (drop (8 * full) l).

Fixpoint pairwise_sum (fuel : nat) (l : list F) : F :=
  let n := length l in
  if (n <? 8)%nat then foldl nadd nzero l
  else if (n <=? 128)%nat then block_sum l
  else match fuel with
       | O => nzero
       | S fuel' =>
           let n2 := (n / 2)%nat in
           let n2 := (n2 - n2 mod 8)%nat in
           nadd (pairwise_sum fuel' (take n2 l)) (pairwise_sum fuel' (drop n2 l))
       end.

(** Every cut leaves two shorter parts: the length is fuel enough. *)
Definition np_sum (l : list F) : F := nadd nzero (pairwise_sum (length l) l).

(** [layer * 1.0 / demominator] *)
Definition scale_layer (demominator : F) (layer : NDArray F) : NDArray F :=
  np_div_s (np_mul_s layer (of_int 1)) demominator.

(** The body of [for i in range(len(deltas[0]))]: the i-th update. *)
Definition qffl_update (scaled_deltas : list (NDArrays F)) (num_deltas : nat) (i : nat)
  : result (NDArray F) :=
  let* sd0 := py_get scaled_deltas 0 in
  let* tmp := py_get sd0 i in
  rfold (fun tmp j =>
           let* sdj := py_get scaled_deltas j in
           let* x := py_get sdj i in
           np_iadd tmp x)
        tmp (seq 1 (num_deltas - 1)).

Definition aggregate_qffl (parameters : NDArrays F) (deltas : list (NDArrays F))
    (hs_fll : list F) : result (NDArrays F) :=
  let demominator := np_sum hs_fll in
  let scaled_deltas :=
    fmap (fun client_delta : NDArrays F => scale_layer demominator <$> client_delta)
         deltas in
  let* delta0 := py_get deltas 0 in
  let* updates :=
    rmap (qffl_update scaled_deltas (length deltas)) (seq 0 (length delta0)) in
  rmap (fun '(u, v) => let* d := np_sub u v in Ok (np_mul_s d (of_int 1)))
       (zip parameters updates).

(** *** aggregate_and_spreadout *)

(** A 2-d array as the list of its rows. *)
#[local] Abbreviation matrix := (list (list F)).

Definition matrix_array (nrows ncols : nat) (m : matrix) : NDArray F :=
  mkArr [nrows; ncols] (concat m).

Fixpoint strip_ones (s : list nat) : list nat :=
  match s with
  | 1%nat :: s' => strip_ones s'
  | _ => s
  end.

(** The value stored by [embeddings[cid,:] = w] into a row of [nf] elements:
    leading dimensions of extent 1 are dropped, a single element fills the
    row, [nf] elements are copied, anything else cannot be broadcast. *)
Definition row_value (nf : nat) (w : NDArray F) : result (list F) :=
  match strip_ones (shape w) with
  | [] => Ok (replicate nf (hd nzero (data w)))
  | [k] => if (k =? nf)%nat then Ok (data w) else Err ValueError
  | _ => Err ValueError
  end.

Definition set_row (nf : nat) (E : matrix) (cid : Z) (w : NDArray F) : result matrix :=
  let* i := py_position (length E) cid in
  let* r := row_value nf w in
  Ok (<[i := r]> E).

(** One step of [torch.optim.SGD] (no momentum, no weight decay):
    p <- p - lr * grad. *)
Definition sgd_step (lr : F) (E G : matrix) : matrix :=
  zip_with (zip_with (fun p g => nsub p (nmul lr g))) E G.

(** [torch.nn.functional.normalize] with its defaults (p = 2, dim = 1,
    eps = 1e-12): each row divided by max(||row||_2, eps). *)
Definition row_norm (r : list F) : F :=
  nsqrt (foldl nadd nzero (fmap (fun x : F => nmul x x) r)).

Definition normalize_row (r : list F) : list F :=
  let d := nmax (row_norm r) eps12 in (fun x : F => ndiv x d) <$> r.

Definition normalize (E : matrix) : matrix := normalize_row <$> E.

Section Spreadout.
(** [models.metric_learning.SpreadoutRegularizer] is not among the sources:
    the gradient that [loss.backward()] leaves on the embedding matrix, for
    a strength [nu] and [out_dims], is a parameter of the development. *)
Variable spreadout_grad : F → Z → matrix → matrix.

Definition place_embeddings (nf : nat) (E : matrix) (results : list (NDArrays F * Z * Z))
  : result matrix :=
  rfold (fun E '(weights, _, cid) =>
           let* w := py_index weights (-1) in
           set_row nf E cid w)
        E results.

Definition aggregate_and_spreadout (results : list (NDArrays F * Z * Z))
    (num_clients num_features : Z) (nu lr : F) : result (NDArrays F * NDArray F) :=
  (* Create a classification matrix from class embeddings *)
  let* _ := if (num_clients <? 0) || (num_features <? 0)
            then Err ValueError else Ok tt in
  let nc := Z.to_nat num_clients in
  let nf := Z.to_nat num_features in
  let* embeddings := place_embeddings nf (replicate nc (replicate nf nzero)) results in
  (* torch.optim.SGD([embeddings], lr=lr) rejects a negative learning rate *)
  let* _ := if nltb lr nzero then Err ValueError else Ok tt in
  let grad := spreadout_grad nu num_clients embeddings in
  let embeddings := sgd_step lr embeddings grad in
  let embeddings := normalize embeddings in
  let embeddings_array := matrix_array nc nf embeddings in
  (* Calculate the total number of examples used during training *)
  let num_examples_total :=
    py_sum (fmap (fun '((_, num_examples, _) : NDArrays F * Z * Z) => num_examples)
                 results) in
  (* Create a list of weights, each multiplied by the related number of examples *)
  let* feature_weights :=
    rmap (fun '((weights, num_examples, _) : NDArrays F * Z * Z) =>
            rmap (fun layer : NDArray F => np_mul_int layer num_examples)
                 (py_init weights))
         results in
  (* Compute average weights of each layer *)
  let* weights_prime := rmap (average_layer num_examples_total) (zip_star feature_weights) in
  Ok (weights_prime ++ [embeddings_array], embeddings_array).

End Spreadout.
End Aggregation.

(** ** Notions used to state the properties *)

Section Structure.
Context {F : Type} `{Numeric F}.

(** Element [k] of an array, and element [k] of layer [i] of a ParameterSet. *)
Definition at_k (k : nat) (a : NDArray F) : F := default nzero (data a !! k).


(** The sum that [reduce] computes: the first element starts it. *)
Definition sum1 (l : list F) : F :=
  match l with
  | [] => nzero
  | x :: l' => foldl nadd x l'
  end.


Definition entry (ws : NDArrays F) (i k : nat) : F :=
  default nzero (ws !! i ≫= fun a => data a !! k).

Definition weighted_entries (results : list (NDArrays F * Z)) (i k : nat) : list F :=
  (fun r => nmul (entry r.1 i k) (of_int r.2)) <$> results.

Definition mean_layer (results : list (NDArrays F * Z)) (T : Z) (i : nat) (s : list nat)
  : NDArray F :=
  mkArr s ((fun k => ndiv (sum1 (weighted_entries results i k)) (of_int T))
             <$> seq 0 (size_of s)).

(** A ParameterSet has the structure [shapes]: layer [i] has the shape
    [shapes !! i] and as many elements as that shape holds. *)
Definition has_structure (shapes : list (list nat)) (ws : NDArrays F) : Prop :=
  shape <$> ws = shapes ∧ Forall wf_array ws.

(** Structurally identical contributions. *)
Definition same_structure (shapes : list (list nat)) (results : list (NDArrays F * Z))
  : Prop :=
  Forall (fun r => has_structure shapes r.1) results.

(** Layer [i] of what aggregate_qffl computes, element by element:
    [(parameters_i - Σ_c (delta_c_i * 1.0 / demominator)) * 1.0]. *)
Definition qffl_update_entry (deltas : list (NDArrays F)) (demominator : F) (i k : nat) : F :=
  sum1 ((fun delta => ndiv (nmul (entry delta i k) (of_int 1)) demominator) <$> deltas).

Definition qffl_layer (parameters : NDArrays F) (deltas : list (NDArrays F))
    (demominator : F) (i : nat) (s : list nat) : NDArray F :=
  mkArr s ((fun k => nmul (nsub (entry parameters i k)
                                (qffl_update_entry deltas demominator i k))
                          (of_int 1))
             <$> seq 0 (size_of s)).

Definition weigh (r : NDArrays F * Z) : NDArrays F :=
  (fun layer => np_mul_s layer (of_int r.2)) <$> r.1.

(** Sample counts that can be converted to floats, and so can their total. *)
Definition counts_convert (counts : list Z) : Prop :=
  Forall (fun n => int_overflows n = false) counts
  ∧ int_overflows (py_sum counts) = false.

Definition tails (results : list (NDArrays F * Z)) : list (NDArrays F * Z) :=
  (fun r => (tail r.1, r.2)) <$> results.


End Structure.

(** The example of the specification: two clients with the single-element
    ParameterSets [2.0] and [4.0] and the sample counts 1 and 3. *)
Definition two_clients {F : Type} `{Numeric F} : list (NDArrays F * Z) :=
  [ ([mkArr [1%nat] [of_int 2]], 1); ([mkArr [1%nat] [of_int 4]], 3) ].


(** A binary64 number that is a zero (of either sign) or a NaN: what a
    product with 0 can be. *)
Definition zero_or_nan (x : float) : Prop :=
  match Prim2SF x with
  | S754_zero _ | S754_nan => True
  | _ => False
  end.



(** A binary64 zero, of either sign. *)
Definition a_zero (x : float) : Prop :=
  match Prim2SF x with
  | S754_zero _ => True
  | _ => False
  end.

(** A delta ParameterSet all of whose elements are zero. *)
Definition all_zero (ws : NDArrays float) : Prop :=
  Forall (fun a => Forall a_zero (data a)) ws.

(** The same number: equal, or the zero of the other sign (what [==]
    compares, but for NaN, which is the same as itself here). *)
Definition same_number (x y : float) : Prop :=
  y = x ∨ (x = (-0)%float ∧ y = 0%float).


(** A value of binary64, as the standard library specifies it, that is a
    number other than zero and of the sign [s]; the infinities are such
    numbers. *)
Definition signed (s : bool) (f : spec_float) : Prop :=
  match f with
  | S754_finite s' _ _ | S754_infinity s' => s' = s
  | _ => False
  end.

(** A binary64 number that is not zero (and not NaN), of the sign [s]: what
    a nonzero fairness weight is. *)
Definition nonzero (s : bool) (x : float) : Prop := signed s (Prim2SF x).

(** A one-layer, one-element ParameterSet [[x]]. *)
Definition single {F : Type} (x : F) : NDArrays F := [mkArr [1%nat] [x]].

(** ** Inputs and outputs of aggregate_and_spreadout *)

Section SpreadoutNotions.
Context {F : Type} `{Numeric F}.

(** The contributions without their final layer and without the client id:
    what step 4 averages. *)
Definition feature_results (results : list (NDArrays F * Z * Z)) : list (NDArrays F * Z) :=
  (fun r => (py_init r.1.1, r.1.2)) <$> results.

(** The rows of a 2-d array. *)
Definition array_rows (a : NDArray F) : list (list F) :=
  match shape a with
  | [n; m] => (fun i => take m (drop (i * m) (data a))) <$> seq 0 n
  | _ => []
  end.



End SpreadoutNotions.

(** The gradient has the shape of the matrix it is the gradient of, as
    autograd guarantees. *)
Definition grad_keeps_shape {F : Type} (grad : F → Z → list (list F) → list (list F)) : Prop :=
  ∀ nu n E, length <$> grad nu n E = length <$> E.

(** A gradient to run the examples with: the zero matrix. *)
Definition zero_grad {F : Type} `{Numeric F} (nu : F) (n : Z) (E : list (list F))
  : list (list F) :=
  (fun r : list F => (fun _ : F => nzero) <$> r) <$> E.



(** Two clients, given in the order of ids 1 and 0, with the embeddings
    (3, 4) and (0, 5). *)
Definition two_embedding_clients {F : Type} `{Numeric F} : list (NDArrays F * Z * Z) :=
  [ ([mkArr [1%nat] [of_int 2]; mkArr [2%nat] [of_int 3; of_int 4]], 1, 1);
    ([mkArr [1%nat] [of_int 4]; mkArr [1%nat; 2%nat] [of_int 0; of_int 5]], 3, 0) ].

(** ** Configuration values *)

(** What a configuration mapping holds: Flower's [Scalar] (bool, bytes,
    float, int, str), and [None], which the client guards against. *)
Inductive PyValue (F : Type) : Type :=
  | VNone
  | VBool (b : bool)
  | VInt (z : Z)
  | VFloat (x : F)
  | VStr (s : string)
  | VBytes (s : string).
Arguments VNone {F}.
Arguments VBool {F} b.
Arguments VInt {F} z.
Arguments VFloat {F} x.
Arguments VStr {F} s.
Arguments VBytes {F} s.

(** [d[k]] on a dict with string keys. *)
Definition dict_get {V} (d : gmap string V) (k : string) : result V :=
  match d !! k with
  | Some v => Ok v
  | None => Err (KeyError k)
  end.

(** ** The server's fit configuration (face_verification/server.py) *)

Module FaceVerificationServer.
Section Server.
Context {F : Type}.

(** The parsed command line ([args]), with the fields the configuration
    functions read. *)
Record Args : Type := {
  num_rounds : Z;
  num_clients : Z;
  local_epochs : Z;
  batch_size : Z;
  lr : F;
  weight_decay : F;
  criterion : string;
  scale : F;
  margin : F;
}.

Definition fit_config (args : Args) (server_rnd : Z) : gmap string (PyValue F) :=
  let config : gmap string (PyValue F) :=
    list_to_map [
      ("local_epochs", VInt (local_epochs args));
      ("batch_size", VInt (batch_size args));
      ("lr", VFloat (lr args));
      ("weight_decay", VFloat (weight_decay args));
      ("criterion_name", VStr (criterion args));
      ("scale", VFloat (scale args));
      ("margin", VFloat (margin args))
    ] in
  config.

Definition eval_config (args : Args) (server_rnd : Z) : gmap string (PyValue F) :=
  let config : gmap string (PyValue F) :=
    list_to_map [
      ("val_steps", VInt 5);
      ("batch_size", VInt (batch_size args))
    ] in
  config.

End Server.
Arguments Args F : clear implicits.
End FaceVerificationServer.

(** ** The client (src/client_app/face_client.py) *)

Module FaceClient.
Section Client.
Context {F : Type} `{Numeric F}.

(** The loss criterion that [fit] builds. *)
Inductive Criterion : Type :=
  | CrossEntropyLoss
  | ArcFaceLoss (s m : F).

(** *** Python's conversions of a configuration value.  What they do on a
    float to be truncated, on text to be parsed and on a value to be printed
    is left to the parameters below. *)
Variable int_of_float : F → result Z.
Variable int_of_text : string → result Z.
Variable float_of_text : string → result F.
Variable repr : PyValue F → string.

(** [int(v)] *)
Definition py_int (v : PyValue F) : result Z :=
  match v with
  | VNone => Err TypeError
  | VBool b => Ok (if b then 1 else 0)
  | VInt z => Ok z
  | VFloat x => int_of_float x
  | VStr s | VBytes s => int_of_text s
  end.

(** [float(v)] *)
Definition py_float (v : PyValue F) : result F :=
  match v with
  | VNone => Err TypeError
  | VBool b => Ok (of_int (if b then 1 else 0))
  | VInt z => py_float_of_int z
  | VFloat x => Ok x
  | VStr s | VBytes s => float_of_text s
  end.

(** [str(v)] *)
Definition py_str (v : PyValue F) : string :=
  match v with
  | VStr s => s
  | _ => repr v
  end.

(** [assert v is not None] *)
Definition assert_not_None (v : PyValue F) : result unit :=
  match v with
  | VNone => Err AssertionError
  | _ => Ok tt
  end.

(** *** The collaborators: the parameter codec, the data loader and the
    training routine of the driver, each of which may raise. *)
Variable Parameters : Type.
Variable parameters_to_ndarrays : Parameters → result (NDArrays F).
Variable ndarrays_to_parameters : NDArrays F → Parameters.
Variable Loader : Type.
(** [DataLoader(self.trainset, batch_size=batch_size, ...)] *)
Variable DataLoader : Z → result Loader.
(** [train(self.net, trainloader, epochs, lr, weight_decay, criterion, device)]:
    the weights that training leaves in the net. *)
Variable train : NDArrays F → Loader → Z → F → F → Criterion → result (NDArrays F).

Record FitIns : Type := { parameters : Parameters; config : gmap string (PyValue F) }.

Record FitRes : Type := {
  status : string;
  parameters_prime : Parameters;
  num_examples : Z;
  metrics : gmap string (PyValue F);
}.

(** The client object: the weights of [self.net] and the size of
    [self.trainset]. *)
Record Client : Type := { net_weights : NDArrays F; trainset_len : Z }.

(** The calls that reach the model and the data, in order. *)
Inductive Event : Type :=
  | SetWeights (weights : NDArrays F)
  | MakeLoader (batch_size : Z)
  | Train (epochs : Z) (lr weight_decay : F) (criterion : Criterion).

Definition is_train (ev : Event) : bool :=
  match ev with Train _ _ _ _ => true | _ => false end.

(** A method of the client: it reads and updates the client, appends to the
    log of calls, and returns or raises. *)
Definition ClientM (A : Type) : Type := Client * list Event → Client * list Event * result A.

Definition cret {A} (a : A) : ClientM A := fun st => (st, Ok a).

Definition cbind {A B} (m : ClientM A) (k : A → ClientM B) : ClientM B :=
  fun st =>
    match m st with
    | (st', Ok a) => k a st'
    | (st', Err e) => (st', Err e)
    end.

Definition lift {A} (r : result A) : ClientM A := fun st => (st, r).

Definition emit (ev : Event) : ClientM unit := fun st => ((st.1, st.2 ++ [ev]), Ok tt).

(** [self.net.set_weights(weights)] *)
Definition set_weights (weights : NDArrays F) : ClientM unit :=
  fun st => (({| net_weights := weights; trainset_len := trainset_len st.1 |},
              st.2 ++ [SetWeights weights]), Ok tt).

(** [self.net.get_weights()] *)
Definition get_weights : ClientM (NDArrays F) := fun st => (st, Ok (net_weights st.1)).

Definition make_loader (batch_size : Z) : ClientM Loader :=
  cbind (emit (MakeLoader batch_size)) (fun _ => lift (DataLoader batch_size)).

Definition run_train (trainloader : Loader) (epochs : Z) (lr weight_decay : F)
    (criterion : Criterion) : ClientM unit :=
  cbind (emit (Train epochs lr weight_decay criterion)) (fun _ =>
  fun st =>
    match train (net_weights st.1) trainloader epochs lr weight_decay criterion with
    | Ok w => (({| net_weights := w; trainset_len := trainset_len st.1 |}, st.2), Ok tt)
    | Err e => (st, Err e)
    end).

Notation "'do' x '<-' m ';' k" := (cbind m (fun x => k))
  (at level 10, x pattern, m at level 100, k at level 200).

Definition fit (ins : FitIns) : ClientM FitRes :=
  (* unwrapping FitIns *)
  do weights <- lift (parameters_to_ndarrays (parameters ins));
  do epochs <- lift (let* v := dict_get (config ins) "local_epochs" in py_int v);
  do batch_size <- lift (let* v := dict_get (config ins) "batch_size" in py_int v);
  do lr <- lift (let* v := dict_get (config ins) "lr" in py_float v);
  do weight_decay <- lift (let* v := dict_get (config ins) "weight_decay" in py_float v);
  do criterion_name <-
    lift (let* v := dict_get (config ins) "criterion_name" in Ok (py_str v));
  (* set parameters *)
  do _ <- set_weights weights;
  (* dataset configuration train / validation *)
  do trainloader <- make_loader batch_size;
  do criterion <-
    (if String.eqb criterion_name "CrossEntropy" then cret (Some CrossEntropyLoss)
     else if String.eqb criterion_name "ArcFace" then
       do _ <- lift (let* v := dict_get (config ins) "scale" in assert_not_None v);
       do _ <- lift (let* v := dict_get (config ins) "margin" in assert_not_None v);
       do s <- lift (let* v := dict_get (config ins) "scale" in py_float v);
       do m <- lift (let* v := dict_get (config ins) "margin" in py_float v);
       cret (Some (ArcFaceLoss s m))
     else cret None);
  (* an unbound [criterion] raises where the call reads it *)
  do criterion <- lift (match criterion with
                        | Some c => Ok c
                        | None => Err UnboundLocalError
                        end);
  do _ <- run_train trainloader epochs lr weight_decay criterion;
  do weights_prime <- get_weights;
  fun st =>
    (st, Ok {| status := "Success fit";
               parameters_prime := ndarrays_to_parameters weights_prime;
               num_examples := trainset_len st.1;
               metrics := ∅ |}).

(** A hyperparameter is missing: its key is absent, or bound to [None]. *)
Definition missing (config : gmap string (PyValue F)) (k : string) : Prop :=
  config !! k = None ∨ config !! k = Some VNone.

End Client.
Arguments Criterion F : clear implicits.
Arguments Event F : clear implicits.
Arguments Client F : clear implicits.
Arguments FitIns F Parameters : clear implicits.
Arguments FitRes F Parameters : clear implicits.
Arguments parameters {F Parameters} _.
Arguments config {F Parameters} _.
End FaceClient.

(** ** The aggregation engine over a store of arrays

    To state what the engine does to its arguments, the same four functions
    are embedded once more with the ndarrays held in a store: an array is an
    address, [layer * n] and [np.add] allocate their result, [tmp += x] and
    [embeddings[cid,:] = w] overwrite the array at an address.  The lists
    are kept as values: the source applies no mutating operation to a list
    it receives (it appends only to lists it has created). *)

Section StorePrimitives.
Context {F : Type} `{Numeric F}.

#[local] Abbreviation loc := nat.
#[local] Abbreviation heap := (list (NDArray F)).

(** A computation on the store that returns or raises. *)
Definition HeapM (A : Type) : Type := heap → heap * result A.

Definition hret {A} (a : A) : HeapM A := fun σ => (σ, Ok a).

Definition hbind {A B} (m : HeapM A) (k : A → HeapM B) : HeapM B :=
  fun σ =>
    match m σ with
    | (σ', Ok a) => k a σ'
    | (σ', Err e) => (σ', Err e)
    end.

Notation "'do' x '<-' m ';' k" := (hbind m (fun x => k))
  (at level 10, x pattern, m at level 100, k at level 200).

Definition hlift {A} (r : result A) : HeapM A := fun σ => (σ, r).

(** A new array, at the next address. *)
Definition alloc (a : NDArray F) : HeapM loc := fun σ => (σ ++ [a], Ok (length σ)).

Definition load (l : loc) : HeapM (NDArray F) :=
  fun σ => (σ, match σ !! l with Some a => Ok a | None => Err IndexError end).

(** Overwrite the array at an address. *)
Definition store (l : loc) (a : NDArray F) : HeapM unit :=
  fun σ => (<[l := a]> σ, Ok tt).

Fixpoint hmap {A B} (f : A → HeapM B) (l : list A) : HeapM (list B) :=
  match l with
  | [] => hret []
  | x :: l' => do y <- f x; do ys <- hmap f l'; hret (y :: ys)
  end.

Fixpoint hfold {A B} (f : B → A → HeapM B) (acc : B) (l : list A) : HeapM B :=
  match l with
  | [] => hret acc
  | x :: l' => do acc' <- f acc x; hfold f acc' l'
  end.

Definition hreduce {A} (f : A → A → HeapM A) (l : list A) : HeapM A :=
  match l with
  | [] => hlift (Err TypeError)
  | x :: l' => hfold f x l'
  end.

(** [layer * x], [layer / x]: a new array. *)
Definition h_mul_s (l : loc) (x : F) : HeapM loc :=
  do a <- load l; alloc (np_mul_s a x).
Definition h_div_s (l : loc) (x : F) : HeapM loc :=
  do a <- load l; alloc (np_div_s a x).

(** [layer * n], [layer / n] for a Python int [n], converted first. *)
Definition h_mul_int (l : loc) (n : Z) : HeapM loc :=
  do x <- hlift (py_float_of_int n); h_mul_s l x.
Definition h_div_int (l : loc) (n : Z) : HeapM loc :=
  do x <- hlift (py_float_of_int n); h_div_s l x.

(** [np.add(a, b)], [a - b]: a new array. *)
Definition h_add (l1 l2 : loc) : HeapM loc :=
  do a <- load l1; do b <- load l2; do c <- hlift (np_add a b); alloc c.
Definition h_sub (l1 l2 : loc) : HeapM loc :=
  do a <- load l1; do b <- load l2; do c <- hlift (np_sub a b); alloc c.

(** [a += b]: the array at [l1] is overwritten, and is the result. *)
Definition h_iadd (l1 l2 : loc) : HeapM loc :=
  do a <- load l1; do b <- load l2; do c <- hlift (np_iadd a b);
  do _ <- store l1 c; hret l1.

End StorePrimitives.
Arguments HeapM F A : clear implicits.

(** The four functions of the engine, on the store. *)

Module Store.
Section Store.
Context {F : Type} `{Numeric F}.

#[local] Abbreviation loc := nat.
#[local] Abbreviation heap := (list (NDArray F)).

Notation "'do' x '<-' m ';' k" := (hbind m (fun x => k))
  (at level 10, x pattern, m at level 100, k at level 200).

Definition average_layer (num_examples_total : Z) (layer_updates : list loc) : HeapM F loc :=
  do s <- hreduce h_add layer_updates;
  h_div_int s num_examples_total.

Definition aggregate (results : list (list loc * Z)) : HeapM F (list loc) :=
  let num_examples_total := py_sum (snd <$> results) in
  do weighted_weights <-
    hmap (fun '((weights, num_examples) : list loc * Z) =>
            hmap (fun layer => h_mul_int layer num_examples) weights)
         results;
  hmap (average_layer num_examples_total) (zip_star weighted_weights).

(** The arguments of [weighted_loss_avg] are numbers: it has no array to
    reach, and is the function of the value-level embedding. *)
Definition weighted_loss_avg (results : list (Z * F)) : HeapM F F :=
  hlift (weighted_loss_avg results).

Definition scale_layer (demominator : F) (layer : loc) : HeapM F loc :=
  do t <- h_mul_s layer (of_int 1);
  h_div_s t demominator.

Definition qffl_update (scaled_deltas : list (list loc)) (num_deltas : nat) (i : nat)
  : HeapM F loc :=
  do sd0 <- hlift (py_get scaled_deltas 0);
  do tmp <- hlift (py_get sd0 i);
  hfold (fun tmp j =>
           do sdj <- hlift (py_get scaled_deltas j);
           do x <- hlift (py_get sdj i);
           h_iadd tmp x)
        tmp (seq 1 (num_deltas - 1)).

Definition aggregate_qffl (parameters : list loc) (deltas : list (list loc))
    (hs_fll : list F) : HeapM F (list loc) :=
  let demominator := np_sum hs_fll in
  do scaled_deltas <-
    hmap (fun client_delta : list loc => hmap (scale_layer demominator) client_delta)
         deltas;
  do delta0 <- hlift (py_get deltas 0);
  do updates <-
    hmap (qffl_update scaled_deltas (length deltas)) (seq 0 (length delta0));
  hmap (fun '((u, v) : loc * loc) => do d <- h_sub u v; h_mul_s d (of_int 1))
       (zip parameters updates).

Section Spreadout.
Variable spreadout_grad : F → Z → list (list F) → list (list F).

(** [embeddings[cid,:] = w] *)
Definition store_row (nc nf : nat) (embeddings : loc) (cid : Z) (w : loc) : HeapM F unit :=
  do W <- load w;
  do E <- load embeddings;
  do rows <- hlift (set_row nf (array_rows E) cid W);
  store embeddings (matrix_array nc nf rows).

Definition aggregate_and_spreadout (results : list (list loc * Z * Z))
    (num_clients num_features : Z) (nu lr : F) : HeapM F (list loc * loc) :=
  do _ <- hlift (if (num_clients <? 0) || (num_features <? 0)
                 then Err ValueError else Ok tt);
  let nc := Z.to_nat num_clients in
  let nf := Z.to_nat num_features in
  do embeddings <- alloc (np_zeros [nc; nf]);
  do _ <- hfold (fun _ '((weights, _, cid) : list loc * Z * Z) =>
                   do w <- hlift (py_index weights (-1));
                   store_row nc nf embeddings cid w)
                tt results;
  (* torch.tensor(embeddings) copies the array *)
  do E <- load embeddings;
  do parameter <- alloc E;
  (* torch.optim.SGD([embeddings], lr=lr) rejects a negative learning rate *)
  do _ <- hlift (if nltb lr nzero then Err ValueError else Ok tt);
  (* optimizer.step() updates the parameter in place *)
  do P <- load parameter;
  do _ <- store parameter
            (matrix_array nc nf
               (sgd_step lr (array_rows P) (spreadout_grad nu num_clients (array_rows P))));
  (* F.normalize returns a new tensor, whose memory the ndarray shares *)
  do P' <- load parameter;
  do embeddings <- alloc (matrix_array nc nf (normalize (array_rows P')));
  let num_examples_total :=
    py_sum (fmap (fun '((_, num_examples, _) : list loc * Z * Z) => num_examples)
                 results) in
  do feature_weights <-
    hmap (fun '((weights, num_examples, _) : list loc * Z * Z) =>
            hmap (fun layer => h_mul_int layer num_examples) (py_init weights))
         results;
  do weights_prime <- hmap (average_layer num_examples_total) (zip_star feature_weights);
  hret (weights_prime ++ [embeddings], embeddings).

End Spreadout.

End Store.
End Store.

Section StoreNotions.
Context {F : Type} `{Numeric F}.

#[local] Abbreviation loc := nat.
#[local] Abbreviation heap := (list (NDArray F)).

(** The arrays at the addresses of a ParameterSet. *)
Definition contents (σ : heap) (ls : list loc) : list (option (NDArray F)) :=
  (fun l => σ !! l) <$> ls.

(** What a call leaves of the store it started from: every array that
    existed is as it was (also when the call raises), and a returned value
    whose addresses are [locs] holds none of the addresses that existed. *)
Definition leaves_arguments {A} (locs : A → list loc) (m : HeapM F A) (σ : heap) : Prop :=
  take (length σ) (m σ).1 = σ
  ∧ ∀ out, (m σ).2 = Ok out → Forall (fun l => length σ ≤ l)%nat (locs out).

(** The triple the frame property is proved with: started from a store of
    at least [n] arrays, [m] leaves the first [n] arrays as they were, does
    not shrink the store, and returns only values that satisfy [Q]. *)
Definition hoare {A} (n : nat) (m : HeapM F A) (Q : A → Prop) : Prop :=
  ∀ σ, (n ≤ length σ)%nat →
    take n (m σ).1 = take n σ
    ∧ (length σ ≤ length (m σ).1)%nat
    ∧ ∀ a, (m σ).2 = Ok a → Q a.

(** The array at an address. *)
Definition points_to (σ : heap) (l : loc) (a : NDArray F) : Prop := σ !! l = Some a.

(** The store-level computation [m], started from [σ], does what the
    value-level [r] does: it only adds arrays to the store, it raises the
    error that [r] raises, and what it returns is related by [R], in the
    store it ends with, to what [r] returns. *)
Definition simulates {A A'} (σ : heap) (m : HeapM F A) (r : result A')
    (R : heap → A → A' → Prop) : Prop :=
  ∃ δ, (m σ).1 = σ ++ δ
       ∧ match (m σ).2, r with
         | Ok a, Ok a' => R (σ ++ δ) a a'
         | Err e, Err e' => e = e'
         | _, _ => False
         end.

(** A relation that adding arrays to the store keeps. *)
Definition stable {A A'} (R : heap → A → A' → Prop) : Prop :=
  ∀ σ δ a a', R σ a a' → R (σ ++ δ) a a'.

(** The contributions at the two levels: the same sample counts, and the
    arrays of the value level at the addresses of the store level. *)
Definition same_results (σ : heap)
    (rs : list (list loc * Z)) (rs' : list (NDArrays F * Z)) : Prop :=
  Forall2 (fun r r' => Forall2 (points_to σ) r.1 r'.1 ∧ r.2 = r'.2) rs rs'.

(** The same for the contributions of aggregate_and_spreadout, which carry a
    client id. *)
Definition same_spreadout_results (σ : heap)
    (rs : list (list loc * Z * Z)) (rs' : list (NDArrays F * Z * Z)) : Prop :=
  Forall2 (fun r r' => Forall2 (points_to σ) r.1.1 r'.1.1 ∧ r.1.2 = r'.1.2 ∧ r.2 = r'.2)
          rs rs'.

(** A matrix of [nc] rows of [nf] elements. *)
Definition well_shaped (nc nf : nat) (E : list (list F)) : Prop :=
  length E = nc ∧ Forall (fun r => length r = nf) E.

(** [simulates], for a computation whose result holds addresses: those
    addresses are distinct and were allocated by the computation. *)
Definition allocates {A A'} (σ : heap) (m : HeapM F A) (r : result A')
    (R : heap → A → A' → Prop) (locs : A → list loc) : Prop :=
  ∃ δ, (m σ).1 = σ ++ δ
       ∧ match (m σ).2, r with
         | Ok a, Ok a' =>
             R (σ ++ δ) a a'
             ∧ NoDup (locs a)
             ∧ Forall (fun l => length σ ≤ l < length (σ ++ δ))%nat (locs a)
         | Err e, Err e' => e = e'
         | _, _ => False
         end.

End StoreNotions.


(** ** A client and a fit instruction to run [fit] on *)

Module FitExample.
Import FaceClient.

(** ArcFace is selected and [scale] is absent. *)
Definition config_without_scale : gmap string (PyValue float) :=
  list_to_map [
    ("local_epochs", VInt 5);
    ("batch_size", VInt 10);
    ("lr", VFloat 0.5%float);
    ("weight_decay", VFloat 0%float);
    ("criterion_name", VStr "ArcFace");
    ("margin", VFloat 0.5%float)
  ].

Definition ins : FitIns float (NDArrays float) :=
  {| parameters := single 1%float; config := config_without_scale |}.

Definition client : Client float * list (Event float) :=
  ({| net_weights := single 0%float; trainset_len := 100 |}, []).

(** Collaborators that succeed: the codec is the identity, the loader is
    built, and training returns the weights it was given. *)
Definition run_fit : Client float * list (Event float)
                     → Client float * list (Event float)
                       * result (FitRes float (NDArrays float)) :=
  fit (fun _ => Err TypeError) (fun _ => Err ValueError) (fun _ => Err ValueError)
      (fun _ => ""%string) (NDArrays float) Ok (fun w => w) unit (fun _ => Ok tt)
      (fun w _ _ _ _ _ => Ok w) ins.

End FitExample.

(** ** Further inputs to run the aggregation engine on *)

(** Two contributions whose only layers have 2 and 3 elements. *)
Definition two_against_three {F : Type} `{Numeric F} : list (NDArrays F * Z) :=
  [ ([mkArr [2%nat] [of_int 1; of_int 2]], 1);
    ([mkArr [3%nat] [of_int 1; of_int 2; of_int 3]], 1) ].

(** Parameters of two layers, to set against a delta of one layer. *)
Definition two_layers {F : Type} `{Numeric F} : NDArrays F :=
  [mkArr [1%nat] [of_int 1]; mkArr [1%nat] [of_int 2]].

(** ** Stores to run the store-level engine on *)

(** Three one-element arrays, and the contributions and deltas that share
    them: the array at address 1 is a layer of both clients. *)
Definition three_arrays : list (NDArray float) :=
  [mkArr [1%nat] [2%float]; mkArr [1%nat] [4%float]; mkArr [1%nat] [1%float]].

(** An embedding of two features besides. *)
Definition four_arrays : list (NDArray float) :=
  three_arrays ++ [mkArr [2%nat] [3%float; 4%float]].

(** ** Calling a Python function

    How the arguments of a call [f(a, ..., k=v, ...)] are bound to the
    parameters of [def f(p, ..., q=default, ...)], for a function without
    [*args], [**kwargs] and keyword-only parameters.  Every failure to bind
    is a TypeError, raised before the body runs. *)

(** The value bound to a name. *)
Fixpoint assoc {V} (k : string) (l : list (string * V)) : option V :=
  match l with
  | [] => None
  | (k', v) :: l' => if String.eqb k k' then Some v else assoc k l'
  end.

(** [d[k]] on a dict given by its items in insertion order. *)
Definition items_get {V} (d : list (string * V)) (k : string) : result V :=
  match assoc k d with
  | Some v => Ok v
  | None => Err (KeyError k)
  end.

Section Call.
Context {V : Type}.

(** Positional arguments fill the parameters from the left. *)
Fixpoint bind_positional (params : list (string * option V)) (args : list V)
  : result (list (string * V)) :=
  match args, params with
  | [], _ => Ok []
  | a :: args', (p, _) :: params' =>
      let* b := bind_positional params' args' in Ok ((p, a) :: b)
  | _ :: _, [] => Err TypeError    (* takes n positional arguments but more were given *)
  end.

(** A keyword argument names a parameter that has no value yet. *)
Definition bind_keyword (params : list (string * option V)) (b : list (string * V))
    (kv : string * V) : result (list (string * V)) :=
  match assoc kv.1 params, assoc kv.1 b with
  | None, _ => Err TypeError         (* got an unexpected keyword argument *)
  | Some _, Some _ => Err TypeError  (* got multiple values for argument *)
  | Some _, None => Ok (b ++ [kv])
  end.

(** A parameter left without a value takes its default. *)
Definition bind_default (b : list (string * V)) (p : string * option V)
  : result (list (string * V)) :=
  match assoc p.1 b, p.2 with
  | Some _, _ => Ok b
  | None, Some d => Ok (b ++ [(p.1, d)])
  | None, None => Err TypeError      (* missing a required positional argument *)
  end.

Definition py_bind (params : list (string * option V)) (args : list V)
    (kwargs : list (string * V)) : result (list (string * V)) :=
  let* b := bind_positional params args in
  let* b := rfold (bind_keyword params) b kwargs in
  rfold bind_default b params.

End Call.

(** ** The driver (src/driver.py) *)

Module Driver.
Section Driver.
Context {F : Type} `{Numeric F}.

(** What the driver takes from torch: a net is the list of its weights; a
    loader is iterated batch by batch (and, when it shuffles, is another
    loader after a pass); the computations on a batch are parameters of the
    development, and those that run the net may raise. *)
Variable Batch : Type.
Variable Loader : Type.
Variable iterate : Loader → list Batch * Loader.
(** [optimizer.zero_grad(); outputs = net(images); loss = criterion(outputs,
    labels); loss.backward(); optimizer.step()], for SGD at the rate [lr]
    and the cross-entropy loss: the weights after the step. *)
Variable sgd_batch : F → NDArrays F → Batch → result (NDArrays F).
(** [criterion(net(images), labels).item()] *)
Variable batch_loss : NDArrays F → Batch → result F.
(** [labels.size(0)] *)
Variable batch_len : Batch → Z.
(** [(predicted == labels).sum().item()] *)
Variable batch_correct : NDArrays F → Batch → Z.

(** One pass over the loader. *)
Definition train_epoch (lr : F) (st : NDArrays F * Loader) : result (NDArrays F * Loader) :=
  let '(batches, loader) := iterate st.2 in
  let* net := rfold (sgd_batch lr) st.1 batches in
  Ok (net, loader).

(** [torch.optim.SGD(net.parameters(), lr=lr)]: the constructor rejects a
    negative learning rate and a net without parameters. *)
Definition make_optimizer (net : NDArrays F) (lr : F) : result unit :=
  if nltb lr nzero then Err ValueError
  else if decide (net = []) then Err ValueError
  else Ok tt.

(** The body of [train]: the weights it leaves in the net, and the loader. *)
Definition train (net : NDArrays F) (trainloader : Loader) (epochs : Z) (lr : F)
  : result (NDArrays F * Loader) :=
  let* optimizer := make_optimizer net lr in
  rfold (fun st (_ : nat) => train_epoch lr st) (net, trainloader)
        (seq 0 (Z.to_nat epochs)).

(** The body of [test], up to its [return]: the loss and the accuracy.  The
    parameter [steps] is overwritten before it is read, and counts the
    batches. *)
Definition test_scores (net : NDArrays F) (testloader : Loader) : result (F * F) :=
  let '(batches, _) := iterate testloader in
  let* counts :=
    rfold (fun '(correct, total, steps, loss) batch =>
             let* l := batch_loss net batch in
             Ok (correct + batch_correct net batch, total + batch_len batch,
                 steps + 1, nadd loss l))
          (0, 0, 0, nzero) batches in
  let '(correct, total, steps, loss) := counts in
  let* loss := py_truediv loss steps in
  let* acc := py_truediv (of_int correct) total in
  Ok (loss, acc).

(** [return {"loss": loss, "acc": acc}]: the dict, by its items in the order
    of insertion. *)
Definition test (net : NDArrays F) (testloader : Loader)
  : result (list (string * PyValue F)) :=
  let* scores := test_scores net testloader in
  Ok [("loss", VFloat scores.1); ("acc", VFloat scores.2)].

(** *** The two functions as the callers reach them *)

(** The values passed in a call of the driver. *)
Inductive Arg : Type :=
  | ANone
  | ABool (b : bool)
  | AInt (z : Z)
  | AFloat (x : F)
  | AStr (s : string)
  | ANet (weights : NDArrays F)
  | ALoader (loader : Loader)
  | ACriterion (criterion : FaceClient.Criterion F)
  | ADevice (name : string).

(** [def train(net, trainloader, epochs, lr, device, use_tqdm=False)] *)
Definition train_params : list (string * option Arg) :=
  [("net", None); ("trainloader", None); ("epochs", None); ("lr", None);
   ("device", None); ("use_tqdm", Some (ABool false))].

(** [def test(net, testloader, steps=None, device="cpu")] *)
Definition test_params : list (string * option Arg) :=
  [("net", None); ("testloader", None); ("steps", Some ANone);
   ("device", Some (AStr "cpu"))].

(** A call of [train]: the arguments are bound, then the body runs.  Values
    of another kind than the annotations say are outside the model (a
    TypeError here). *)
Definition call_train (args : list Arg) (kwargs : list (string * Arg))
  : result (NDArrays F * Loader) :=
  let* b := py_bind train_params args kwargs in
  match assoc "net" b, assoc "trainloader" b, assoc "epochs" b, assoc "lr" b with
  | Some (ANet net), Some (ALoader trainloader), Some (AInt epochs), Some (AFloat lr) =>
      train net trainloader epochs lr
  | _, _, _, _ => Err TypeError
  end.

Definition call_test (args : list Arg) (kwargs : list (string * Arg))
  : result (list (string * PyValue F)) :=
  let* b := py_bind test_params args kwargs in
  match assoc "net" b, assoc "testloader" b with
  | Some (ANet net), Some (ALoader testloader) => test net testloader
  | _, _ => Err TypeError
  end.

End Driver.
Arguments Arg F Loader : clear implicits.
Arguments ANone {F Loader}.
Arguments ABool {F Loader} b.
Arguments AInt {F Loader} z.
Arguments AFloat {F Loader} x.
Arguments AStr {F Loader} s.
Arguments ANet {F Loader} weights.
Arguments ALoader {F Loader} loader.
Arguments ACriterion {F Loader} criterion.
Arguments ADevice {F Loader} name.
End Driver.

(** ** The other methods of the client (src/client_app/face_client.py) *)

Module FlowerFaceClient.
Section Client.
Import FaceClient.
Context {F : Type} `{Numeric F}.

Variable int_of_float : F → result Z.
Variable int_of_text : string → result Z.
Variable float_of_text : string → result F.
Variable Parameters : Type.
Variable parameters_to_ndarrays : Parameters → result (NDArrays F).
Variable ndarrays_to_parameters : NDArrays F → Parameters.
Variable Loader : Type.
(** [len(self.testset)]: the test set is fixed when the client is built. *)
Variable testset_len : Z.
(** [DataLoader(self.testset, batch_size=batch_size)] *)
Variable DataLoader : Z → result Loader.
(** [test(self.net, testloader=testloader)]: the dict it returns, by its
    items. *)
Variable test : NDArrays F → Loader → result (list (string * PyValue F)).

Record EvaluateIns : Type := { parameters : Parameters; config : gmap string (PyValue F) }.

Record EvaluateRes : Type := {
  status : string;
  loss : F;
  num_examples : Z;
  metrics : gmap string (PyValue F);
}.

Notation "'do' x '<-' m ';' k" := (cbind m (fun x => k))
  (at level 10, x pattern, m at level 100, k at level 200).

(** [get_parameters]: the parameters of the result (its status is the
    constant [Code.OK]). *)
Definition get_parameters : ClientM (F := F) Parameters :=
  do weights <- get_weights;
  cret (ndarrays_to_parameters weights).

Definition evaluate (ins : EvaluateIns) : ClientM (F := F) EvaluateRes :=
  (* unwrap FitIns *)
  do weights <- lift (parameters_to_ndarrays (parameters ins));
  do batch_size <- lift (let* v := dict_get (config ins) "batch_size" in
                         py_int int_of_float int_of_text v);
  do _ <- set_weights weights;
  do testloader <- lift (DataLoader batch_size);
  do net <- get_weights;
  do results <- lift (test net testloader);
  (* the log line reads both entries *)
  do loss <- lift (items_get results "loss");
  do acc <- lift (items_get results "acc");
  do loss <- lift (py_float float_of_text loss);
  cret {| status := "Success eval";
          loss := loss;
          num_examples := testset_len;
          metrics := {[ "accuracy" := acc ]} |}.

End Client.
Arguments EvaluateIns F Parameters : clear implicits.
Arguments EvaluateRes F : clear implicits.
Arguments parameters {F Parameters} _.
Arguments config {F Parameters} _.

(** *** The methods with the functions of the driver that they import *)

Section WithDriver.
Import FaceClient.
Context {F : Type} `{Numeric F}.

Variable int_of_float : F → result Z.
Variable int_of_text : string → result Z.
Variable float_of_text : string → result F.
Variable repr : PyValue F → string.
Variable Parameters : Type.
Variable parameters_to_ndarrays : Parameters → result (NDArrays F).
Variable ndarrays_to_parameters : NDArrays F → Parameters.
Variable Batch : Type.
Variable Loader : Type.
Variable iterate : Loader → list Batch * Loader.
Variable sgd_batch : F → NDArrays F → Batch → result (NDArrays F).
Variable batch_loss : NDArrays F → Batch → result F.
Variable batch_len : Batch → Z.
Variable batch_correct : NDArrays F → Batch → Z.
Variable testset_len : Z.
(** [DataLoader(self.trainset, batch_size=batch_size, ..., shuffle=True,
    drop_last=True)] and [DataLoader(self.testset, batch_size=batch_size)] *)
Variable DataLoader_trainset : Z → result Loader.
Variable DataLoader_testset : Z → result Loader.
(** [self.device] *)
Variable device : string.

(** [train(self.net, trainloader=trainloader, epochs=epochs, lr=lr,
    weight_decay=weight_decay, criterion=criterion, device=self.device)] *)
Definition train_call (net : NDArrays F) (trainloader : Loader) (epochs : Z)
    (lr weight_decay : F) (criterion : Criterion F) : result (NDArrays F) :=
  result_map fst
    (Driver.call_train Batch Loader iterate sgd_batch
       [Driver.ANet net]
       [("trainloader", Driver.ALoader trainloader);
        ("epochs", Driver.AInt epochs);
        ("lr", Driver.AFloat lr);
        ("weight_decay", Driver.AFloat weight_decay);
        ("criterion", Driver.ACriterion criterion);
        ("device", Driver.ADevice device)]).

(** [test(self.net, testloader=testloader)] *)
Definition test_call (net : NDArrays F) (testloader : Loader)
  : result (list (string * PyValue F)) :=
  Driver.call_test Batch Loader iterate batch_loss batch_len batch_correct
    [Driver.ANet net] [("testloader", Driver.ALoader testloader)].

Definition fit_with_driver (ins : FitIns F Parameters) : ClientM (FitRes F Parameters) :=
  fit int_of_float int_of_text float_of_text repr Parameters parameters_to_ndarrays
      ndarrays_to_parameters Loader DataLoader_trainset train_call ins.

Definition evaluate_with_driver (ins : EvaluateIns F Parameters) : ClientM (EvaluateRes F) :=
  evaluate int_of_float int_of_text float_of_text Parameters parameters_to_ndarrays
           Loader testset_len DataLoader_testset test_call ins.

End WithDriver.
End FlowerFaceClient.

(** ** The client that loads its data at each call (FlowerFaceRayClient) *)

Module FlowerFaceRayClient.
Section Client.
Import FaceClient.
Context {F : Type} `{Numeric F}.

Variable int_of_float : F → result Z.
Variable int_of_text : string → result Z.
Variable float_of_text : string → result F.
Variable repr : PyValue F → string.
Variable Parameters : Type.
Variable parameters_to_ndarrays : Parameters → result (NDArrays F).
Variable ndarrays_to_parameters : NDArrays F → Parameters.
Variable Dataset : Type.
Variable Loader : Type.
(** [load_federated_dataset(dataset_name=self.dataset, id=self.cid,
    train=..., target=self.target)] *)
Variable load_federated_dataset : bool → result Dataset.
(** [len(dataset)] *)
Variable dataset_len : Dataset → Z.
(** [DataLoader(trainset, batch_size=batch_size, num_workers=2,
    pin_memory=True, shuffle=True, drop_last=True)] and
    [DataLoader(testset, batch_size=batch_size)] *)
Variable DataLoader_train : Dataset → Z → result Loader.
Variable DataLoader_test : Dataset → Z → result Loader.
Variable train : NDArrays F → Loader → Z → F → F → Criterion F → result (NDArrays F).
Variable test : NDArrays F → Loader → result (list (string * PyValue F)).

Notation "'do' x '<-' m ';' k" := (cbind m (fun x => k))
  (at level 10, x pattern, m at level 100, k at level 200).

Definition fit (ins : FitIns F Parameters) : ClientM (FitRes F Parameters) :=
  (* unwrapping FitIns *)
  do weights <- lift (parameters_to_ndarrays (FaceClient.parameters ins));
  do epochs <- lift (let* v := dict_get (FaceClient.config ins) "local_epochs" in
                     py_int int_of_float int_of_text v);
  do batch_size <- lift (let* v := dict_get (FaceClient.config ins) "batch_size" in
                         py_int int_of_float int_of_text v);
  do lr <- lift (let* v := dict_get (FaceClient.config ins) "lr" in
                 py_float float_of_text v);
  do weight_decay <- lift (let* v := dict_get (FaceClient.config ins) "weight_decay" in
                           py_float float_of_text v);
  do criterion_name <-
    lift (let* v := dict_get (FaceClient.config ins) "criterion_name" in Ok (py_str repr v));
  (* set parameters *)
  do _ <- set_weights weights;
  (* dataset configuration train / validation *)
  do trainset <- lift (load_federated_dataset true);
  do trainloader <- make_loader Loader (DataLoader_train trainset) batch_size;
  do criterion <-
    (if String.eqb criterion_name "CrossEntropy" then cret (Some CrossEntropyLoss)
     else if String.eqb criterion_name "ArcFace" then
       do _ <- lift (let* v := dict_get (FaceClient.config ins) "scale" in
                     assert_not_None v);
       do _ <- lift (let* v := dict_get (FaceClient.config ins) "margin" in
                     assert_not_None v);
       do s <- lift (let* v := dict_get (FaceClient.config ins) "scale" in
                     py_float float_of_text v);
       do m <- lift (let* v := dict_get (FaceClient.config ins) "margin" in
                     py_float float_of_text v);
       cret (Some (ArcFaceLoss s m))
     else cret None);
  do criterion <- lift (match criterion with
                        | Some c => Ok c
                        | None => Err UnboundLocalError
                        end);
  do _ <- run_train Loader train trainloader epochs lr weight_decay criterion;
  do weights_prime <- get_weights;
  cret {| FaceClient.status := "Success fit";
          parameters_prime := ndarrays_to_parameters weights_prime;
          FaceClient.num_examples := dataset_len trainset;
          FaceClient.metrics := ∅ |}.

Definition evaluate (ins : FlowerFaceClient.EvaluateIns F Parameters)
  : ClientM (FlowerFaceClient.EvaluateRes F) :=
  (* unwrap FitIns *)
  do weights <- lift (parameters_to_ndarrays (FlowerFaceClient.parameters ins));
  do batch_size <- lift (let* v := dict_get (FlowerFaceClient.config ins) "batch_size" in
                         py_int int_of_float int_of_text v);
  do _ <- set_weights weights;
  do testset <- lift (load_federated_dataset false);
  do testloader <- lift (DataLoader_test testset batch_size);
  do net <- get_weights;
  do results <- lift (test net testloader);
  (* the log line reads both entries *)
  do loss <- lift (items_get results "loss");
  do acc <- lift (items_get results "acc");
  do loss <- lift (py_float float_of_text loss);
  cret {| FlowerFaceClient.status := "Success eval";
          FlowerFaceClient.loss := loss;
          FlowerFaceClient.num_examples := dataset_len testset;
          FlowerFaceClient.metrics := {[ "accuracy" := acc ]} |}.

End Client.
End FlowerFaceRayClient.

(** ** Server-side evaluation *)

(** [a, b = xs]: exactly two values. *)
Definition py_unpack2 {A} (xs : list A) : result (A * A) :=
  match xs with
  | [a; b] => Ok (a, b)
  | _ => Err ValueError    (* too many values, or not enough values, to unpack *)
  end.

Section ServerEvaluate.
Context {F : Type} `{Numeric F}.
Variable Batch : Type.
Variable Loader : Type.
Variable iterate : Loader → list Batch * Loader.
Variable batch_loss : NDArrays F → Batch → result F.
Variable batch_len : Batch → Z.
Variable batch_correct : NDArrays F → Batch → Z.
(** The loader of the centralized test set, built once by [get_eval_fn]. *)
Variable testloader : Loader.
Variable device : string.

(** face_verification/server.py: the [evaluate] that [get_eval_fn] returns.
    It is run on the weights that [model] holds and gives those it leaves
    there. *)
Definition server_evaluate (server_round : Z) (weights : NDArrays F)
    (config : gmap string (PyValue F)) (model : NDArrays F)
  : NDArrays F * result (PyValue F * gmap string (PyValue F)) :=
  (* model.set_weights(weights) *)
  let model := weights in
  (model,
   (* results = test(model, testloader, device=device) *)
   let* results :=
     Driver.call_test Batch Loader iterate batch_loss batch_len batch_correct
       [Driver.ANet model; Driver.ALoader testloader] [("device", Driver.ADevice device)] in
   let* loss := items_get results "loss" in
   let* acc := items_get results "acc" in
   Ok (loss, {[ "accuracy" := acc ]})).

(** local/server.py: the [evaluate] of its [get_eval_fn].  [loss, accuracy =
    test(model, testloader)] unpacks what test returns, and iterating a
    dict yields its keys in the order of insertion. *)
Definition local_evaluate (weights : NDArrays F) (model : NDArrays F)
  : NDArrays F * result (PyValue F * gmap string (PyValue F)) :=
  (* model.set_weights(weights) *)
  let model := weights in
  (model,
   let* results :=
     Driver.call_test Batch Loader iterate batch_loss batch_len batch_correct
       [Driver.ANet model; Driver.ALoader testloader] [] in
   let* unpacked := py_unpack2 ((fun kv : string * PyValue F => VStr (F := F) kv.1) <$> results) in
   Ok (unpacked.1, {[ "accuracy" := unpacked.2 ]})).

End ServerEvaluate.

(** The entries of the configuration that [fit] reads for every loss. *)
Definition common_entries : list string :=
  ["local_epochs"; "batch_size"; "lr"; "weight_decay"; "criterion_name"].

(** ** A server, a client and a driver to run the methods on *)

Module ClientExample.
Import FaceClient FlowerFaceClient.

(** The command line with its defaults: 5 local epochs, batches of 10, the
    rate 0.01, no weight decay, the cross-entropy loss, scale and margin 0. *)
Definition default_args : FaceVerificationServer.Args float :=
  {| FaceVerificationServer.num_rounds := 5;
     FaceVerificationServer.num_clients := 4;
     FaceVerificationServer.local_epochs := 5;
     FaceVerificationServer.batch_size := 10;
     FaceVerificationServer.lr := 0x1.47ae147ae147bp-7%float;
     FaceVerificationServer.weight_decay := 0%float;
     FaceVerificationServer.criterion := "CrossEntropy";
     FaceVerificationServer.scale := 0%float;
     FaceVerificationServer.margin := 0%float |}.

(** The same with a criterion that fit does not know. *)
Definition triplet_args : FaceVerificationServer.Args float :=
  {| FaceVerificationServer.num_rounds := 5;
     FaceVerificationServer.num_clients := 4;
     FaceVerificationServer.local_epochs := 5;
     FaceVerificationServer.batch_size := 10;
     FaceVerificationServer.lr := 0x1.47ae147ae147bp-7%float;
     FaceVerificationServer.weight_decay := 0%float;
     FaceVerificationServer.criterion := "Triplet";
     FaceVerificationServer.scale := 0%float;
     FaceVerificationServer.margin := 0%float |}.

Definition client : Client float * list (Event float) :=
  ({| net_weights := single 0%float; trainset_len := 100 |}, []).

(** Collaborators that succeed: the codec is the identity, a loader is the
    list of its batches, a batch is its loss, its size and its number of
    correct predictions, and a training step leaves the weights as they
    are. *)
Definition Batch : Type := float * Z * Z.
Definition Loader : Type := list Batch.
Definition iterate (l : Loader) : list Batch * Loader := (l, l).
Definition sgd_batch (lr : float) (w : NDArrays float) (b : Batch) : result (NDArrays float) :=
  Ok w.
Definition batch_loss (w : NDArrays float) (b : Batch) : result float := Ok b.1.1.
Definition batch_len (b : Batch) : Z := b.1.2.
Definition batch_correct (w : NDArrays float) (b : Batch) : Z := b.2.

(** Two batches of 10, with the losses 1 and 3 and 7 and 9 correct
    predictions. *)
Definition two_batches : Loader := [(1%float, 10, 7); (3%float, 10, 9)].

Definition DataLoader (batch_size : Z) : result Loader := Ok two_batches.

(** A train that returns the weights it was given. *)
Definition train (w : NDArrays float) (l : Loader) (epochs : Z) (lr weight_decay : float)
    (c : Criterion float) : result (NDArrays float) := Ok w.

Definition fit_ins (config : gmap string (PyValue float)) : FitIns float (NDArrays float) :=
  {| FaceClient.parameters := single 1%float; FaceClient.config := config |}.

Definition evaluate_ins (config : gmap string (PyValue float))
  : EvaluateIns float (NDArrays float) :=
  {| parameters := single 1%float; config := config |}.

(** [fit] with these collaborators. *)
Definition run_fit (ins : FitIns float (NDArrays float))
  : ClientM (FitRes float (NDArrays float)) :=
  fit (fun _ => Err TypeError) (fun _ => Err ValueError) (fun _ => Err ValueError)
      (fun _ => ""%string) (NDArrays float) Ok (fun w => w) Loader DataLoader train ins.

(** [evaluate] with the test of the driver, on a test set of 25 examples. *)
Definition run_evaluate (ins : EvaluateIns float (NDArrays float))
  : ClientM (EvaluateRes float) :=
  evaluate_with_driver (fun _ => Err TypeError) (fun _ => Err ValueError)
    (fun _ => Err ValueError) (NDArrays float) Ok Batch Loader iterate batch_loss
    batch_len batch_correct 25 DataLoader ins.

(** [evaluate] with a test that raises. *)
Definition run_evaluate_failing (ins : EvaluateIns float (NDArrays float))
  : ClientM (EvaluateRes float) :=
  evaluate (fun _ => Err TypeError) (fun _ => Err ValueError) (fun _ => Err ValueError)
    (NDArrays float) Ok Loader 25 DataLoader (fun _ _ => Err ZeroDivisionError) ins.

End ClientExample.

(** ** The Weights & Biases set-up (src/utils/utils_wandb.py) *)

Module UtilsWandb.

(** What the function can raise: the KeyError of a dict, the ValueError of
    [os.environ], or what [open] and [wandb.init] raise, by its name. *)
Inductive Exception : Type :=
  | KeyError (k : string)
  | ValueError
  | Other (name : string).

Inductive outcome (A : Type) : Type :=
  | Returns (a : A)
  | Raises (e : Exception).
Arguments Returns {A} a.
Arguments Raises {A} e.

(** A string that holds the null character, which no environment variable
    can hold. *)
Definition has_null (s : string) : bool :=
  existsb (Ascii.eqb Ascii.zero) (list_ascii_of_string s).

Section Wandb.
(** The values of the configuration ([Dict[str, Any]]). *)
Variable V : Type.
(** [with open(path, "r") as fp: ... fp.readline()]: the first line of the
    file at a path, or what [open] raises. *)
Variable readline : V → outcome string.
(** [str.strip] *)
Variable strip : string → string.
(** The text of a value in an f-string. *)
Variable format : V → string.
(** [uuid.uuid4().hex]: the identifier drawn by the call. *)
Variable uuid4_hex : string.

(** The arguments of a call of [wandb.init]. *)
Record InitCall : Type := {
  project : string;
  run_config : gmap string V;
  group : string;
  name : string;
}.

Variable wandb_init : InitCall → outcome unit.

(** What the function reads and writes: the dict [config] of the caller
    (passed by reference), [os.environ], and the calls of [wandb.init] made
    so far. *)
Record World : Type := {
  config : gmap string V;
  environ : gmap string string;
  runs : list InitCall;
}.

Definition custom_wandb_init (project strategy : string) (w : World)
  : World * outcome unit :=
  match config w !! "api_key_file" with
  | None => (w, Raises (KeyError "api_key_file"))
  | Some path =>
      match readline path with
      | Raises e => (w, Raises e)
      | Returns line =>
          let api_key := strip line in
          (* os.environ["WANDB_API_KEY"] = api_key: embedded null byte *)
          if has_null api_key then (w, Raises ValueError) else
          let environ1 := <["WANDB_API_KEY" := api_key]> (environ w) in
          (* config.pop("api_key_file") *)
          let config1 := delete "api_key_file" (config w) in
          let trial_id := substring 0 8 uuid4_hex in
          match config1 !! "model_name" with
          | None =>
              ({| config := config1; environ := environ1; runs := runs w |},
               Raises (KeyError "model_name"))
          | Some model_name =>
              let call := {| project := project;
                             run_config := config1;
                             group := "Centralized_" ++ format model_name;
                             name := "centralized_" ++ trial_id |} in
              ({| config := config1; environ := environ1; runs := runs w ++ [call] |},
               wandb_init call)
          end
      end
  end.

End Wandb.
Arguments InitCall V : clear implicits.
Arguments World V : clear implicits.
Arguments project {V} _.
Arguments run_config {V} _.
Arguments group {V} _.
Arguments name {V} _.
Arguments config {V} _.
Arguments environ {V} _.
Arguments runs {V} _.
End UtilsWandb.

(** A configuration with the path of the key file and the name of the
    model; a key file whose first line ends with a newline, and a [strip]
    that removes it. *)
Module WandbExample.
Import UtilsWandb.
Definition world : World string :=
  {| config := {[ "api_key_file" := "wandb.key"%string; "model_name" := "tinyCNN"%string ]};
     environ := ∅;
     runs := [] |}.
Definition readline (path : string) : outcome string :=
  Returns (String.append "0123abcd" (String (Ascii.ascii_of_nat 10) EmptyString)).
Definition strip (s : string) : string := substring 0 (String.length s - 1) s.
Definition run (w : World string) : World string * outcome unit :=
  custom_wandb_init string readline strip (fun s => s)
    "0123456789abcdef0123456789abcdef" (fun _ => Returns tt) "face" "FedAvg" w.
End WandbExample.

(** * Properties *)

(** ** Loops that do not raise *)

Lemma rmap_Ok {A B} (g : A → B) (xs : list A) : rmap (fun x => Ok (g x)) xs = Ok (g <$> xs).
Proof. induction xs as [|x xs IH]; cbn; [done|]. by rewrite IH. Qed.

Lemma rmap_Forall2 {A B} (f : A → result B) (l : list A) (l' : list B) :
  Forall2 (fun x y => f x = Ok y) l l' → rmap f l = Ok l'.
Proof.
  induction 1 as [|x y l l' Hxy _ IH]; simpl; [done|]. by rewrite Hxy, IH.
Qed.

Lemma rmap_Forall {A B} (f : A → result B) (g : A → B) (l : list A) :
  Forall (fun x => f x = Ok (g x)) l → rmap f l = Ok (g <$> l).
Proof.
  induction 1 as [|x l Hx _ IH]; simpl; [done|]. by rewrite Hx, IH.
Qed.

Section ArrayFacts.
Context {F : Type} `{Numeric F}.
Implicit Types (s t : list nat) (d : list F) (a b : NDArray F).
Implicit Types (results : list (NDArrays F * Z)).

Lemma broadcast_dims_diag s : broadcast_dims s s = Some s.
Proof.
  induction s as [|x s IH]; simpl; [done|].
  by rewrite IH, Nat.eqb_refl.
Qed.

Lemma broadcast_shape_diag s : broadcast_shape s s = Some s.
Proof.
  unfold broadcast_shape. rewrite broadcast_dims_diag. simpl.
  by rewrite reverse_involutive.
Qed.

Lemma pad_shape_full s : pad_shape (length s) s = s.
Proof. unfold pad_shape. by rewrite Nat.sub_diag. Qed.

Lemma chunks_concat (c n : nat) d :
  length d = (n * c)%nat →
  concat (map (fun i => take c (drop (i * c) d)) (seq 0 n)) = d.
Proof.
  revert d. induction n as [|n IH]; intros d Hd.
  - simpl in *. by destruct d.
  - cbn [seq map concat]. rewrite <- seq_shift, map_map.
    rewrite Nat.mul_0_l, drop_0.
    rewrite (map_ext _ (fun i => take c (drop (i * c) (drop c d)))).
    + rewrite IH; [apply take_drop|]. rewrite length_drop. lia.
    + intros i. rewrite drop_drop. f_equal; f_equal; lia.
Qed.

Lemma broadcast_data_diag s d :
  length d = size_of s → broadcast_data s s d = d.
Proof.
  revert d. induction s as [|n s IH]; intros d Hd; [done|].
  cbn [broadcast_data]. rewrite Nat.eqb_refl.
  cbn [size_of foldr] in Hd. fold (size_of s) in *.
  etransitivity; [|exact (chunks_concat (size_of s) n d Hd)].
  f_equal. apply map_ext_in. intros i Hi%in_seq.
  apply IH. rewrite length_take, length_drop. nia.
Qed.

Lemma broadcast_to_same a : wf_array a → broadcast_to (shape a) a = data a.
Proof.
  intros Ha. unfold broadcast_to. rewrite pad_shape_full.
  by apply broadcast_data_diag.
Qed.

Lemma np_binop_same f a b :
  shape b = shape a → wf_array a → wf_array b →
  np_binop f a b = Ok (mkArr (shape a) (zip_with f (data a) (data b))).
Proof.
  intros Hs Ha Hb. unfold np_binop. rewrite Hs, broadcast_shape_diag.
  rewrite broadcast_to_same by done.
  rewrite <- Hs at 2. by rewrite broadcast_to_same.
Qed.

Lemma np_inplace_same f a b :
  shape b = shape a → wf_array a → wf_array b →
  np_inplace f a b = Ok (mkArr (shape a) (zip_with f (data a) (data b))).
Proof.
  intros Hs Ha Hb. unfold np_inplace. rewrite Hs, broadcast_shape_diag.
  rewrite decide_True by done.
  rewrite <- Hs at 2. by rewrite broadcast_to_same.
Qed.


(** *** Counts that convert *)

Lemma py_float_of_int_convert (n : Z) :
  int_overflows n = false → py_float_of_int (F := F) n = Ok (of_int n).
Proof. unfold py_float_of_int. by intros ->. Qed.

Lemma np_mul_int_convert a (n : Z) :
  int_overflows n = false → np_mul_int a n = Ok (np_mul_s a (of_int n)).
Proof. intros Hn. unfold np_mul_int. by rewrite py_float_of_int_convert. Qed.

Lemma np_div_int_convert a (n : Z) :
  int_overflows n = false → np_div_int a n = Ok (np_div_s a (of_int n)).
Proof. intros Hn. unfold np_div_int. by rewrite py_float_of_int_convert. Qed.

Lemma weighted_weights_convert results :
  Forall (fun r => int_overflows r.2 = false) results →
  rmap (fun '((weights, num_examples) : NDArrays F * Z) =>
          rmap (fun layer : NDArray F => np_mul_int layer num_examples) weights)
       results
  = Ok (weigh <$> results).
Proof.
  intros Hc. apply rmap_Forall. eapply Forall_impl; [exact Hc|].
  intros [ws n] Hn. cbn [snd] in Hn. unfold weigh. cbn [fst snd].
  apply rmap_Forall, Forall_forall. intros a _. by apply np_mul_int_convert.
Qed.


(** *** zip( *ls ) *)

Lemma zip_star_all_nil {A} (ls : list (list A)) :
  ls ≠ [] → Forall (fun l => l = []) ls → zip_star ls = [].
Proof.
  intros Hne Hall. destruct Hall as [|l ls -> Hall]; [done|].
  simpl. by destruct ls.
Qed.

Lemma zip_star_cons_fmap {A B} (f : B → A) (g : B → list A) (l : list B) :
  l ≠ [] →
  zip_star ((fun x => f x :: g x) <$> l) = (f <$> l) :: zip_star (g <$> l).
Proof.
  induction l as [|x l IH]; [done|]. intros _.
  destruct l as [|x' l]; [done|].
  change (zip_star ((fun x => f x :: g x) <$> x :: x' :: l))
    with (zip_with cons (f x :: g x) (zip_star ((fun x => f x :: g x) <$> x' :: l))).
  rewrite IH by done. done.
Qed.

(** *** Elementwise sums of arrays of one shape *)

Lemma data_pointwise d n :
  length d = n → d = (fun k => default nzero (d !! k)) <$> seq 0 n.
Proof.
  intros <-. apply list_eq. intros i. rewrite list_lookup_fmap.
  destruct (decide (i < length d)%nat) as [Hi|Hi].
  - rewrite lookup_seq_lt by done. simpl.
    destruct (lookup_lt_is_Some_2 d i Hi) as [x Hx]. by rewrite Hx.
  - rewrite lookup_seq_ge by lia. rewrite lookup_ge_None_2 by lia. done.
Qed.

Lemma zip_with_pointwise (f : F → F → F) (g h : nat → F) (l : list nat) :
  zip_with f (g <$> l) (h <$> l) = (fun k => f (g k) (h k)) <$> l.
Proof. induction l; simpl; [done|]. by f_equal. Qed.

Lemma rfold_elementwise (op : NDArray F → NDArray F → result (NDArray F))
    s (g : nat → F) (l : list (NDArray F)) :
  (∀ a b, shape b = shape a → wf_array a → wf_array b →
          op a b = Ok (mkArr (shape a) (zip_with nadd (data a) (data b)))) →
  Forall (fun a => shape a = s ∧ wf_array a) l →
  rfold op (mkArr s (g <$> seq 0 (size_of s))) l
  = Ok (mkArr s ((fun k => foldl nadd (g k) (at_k k <$> l)) <$> seq 0 (size_of s))).
Proof.
  intros Hop Hl. revert g. induction Hl as [|a l [Hs Hw] _ IH]; intros g; [done|].
  cbn [rfold]. rewrite Hop; cbn [shape data].
  - cbn [rbind]. rewrite (data_pointwise (data a) (size_of s)) at 1
      by (by rewrite <- Hs).
    rewrite zip_with_pointwise. by rewrite IH.
  - done.
  - unfold wf_array. cbn [shape data]. by rewrite length_fmap, length_seq.
  - done.
Qed.

Lemma reduce_np_add_same s (l : list (NDArray F)) :
  l ≠ [] → Forall (fun a => shape a = s ∧ wf_array a) l →
  reduce np_add l
  = Ok (mkArr s ((fun k => sum1 (at_k k <$> l)) <$> seq 0 (size_of s))).
Proof.
  intros Hne Hl. destruct Hl as [|a l [Hs Hw] Hl]; [done|].
  cbn [reduce]. destruct a as [sa da]. cbn [shape] in Hs. subst sa.
  rewrite (data_pointwise da (size_of s)) by done.
  rewrite (rfold_elementwise np_add) by (done || apply np_binop_same). do 2 f_equal.
  apply list_fmap_ext. intros _ k _. cbn [fmap list_fmap sum1 at_k data].
  unfold at_k at 2. cbn [data].
  rewrite <- (data_pointwise da (size_of s)) by done. done.
Qed.


(** *** The layer-wise average of structurally identical contributions *)

Lemma same_structure_tails s shapes results :
  same_structure (s :: shapes) results → same_structure shapes (tails results).
Proof.
  unfold same_structure, tails. intros Hst. rewrite Forall_fmap.
  eapply Forall_impl; [exact Hst|].
  intros [ws n] [Hs Hw]. cbn [fst snd] in *.
  destruct ws as [|a ws]; [done|]. cbn [tail]. split.
  - by inversion Hs.
  - by inversion Hw.
Qed.

Lemma mean_layer_tails s0 shapes results T i s :
  same_structure (s0 :: shapes) results →
  mean_layer (tails results) T i s = mean_layer results T (S i) s.
Proof.
  intros Hst. unfold mean_layer. f_equal. apply list_fmap_ext. intros _ k _.
  do 2 f_equal. unfold weighted_entries, tails. rewrite <- list_fmap_compose.
  apply Forall_fmap_ext_1. eapply Forall_impl; [exact Hst|].
  intros [ws n] [Hs _]. cbn [fst snd compose] in *.
  destruct ws as [|a ws]; [done|]. done.
Qed.

Lemma average_layers_structure T shapes results :
  results ≠ [] → same_structure shapes results →
  int_overflows T = false →
  rmap (average_layer T) (zip_star (weigh <$> results))
  = Ok (imap (mean_layer results T) shapes).
Proof.
  intros Hne Hst HT. revert results Hne Hst.
  induction shapes as [|s shapes IH]; intros results Hne Hst.
  - rewrite zip_star_all_nil; [done|by destruct results|].
    rewrite Forall_fmap. eapply Forall_impl; [exact Hst|].
    intros [ws n] [Hs _]. cbn [fst] in Hs. unfold weigh. cbn [fst snd compose].
    apply fmap_nil_inv in Hs. by subst.
  - pose (hd0 := fun r : NDArrays F * Z =>
                   np_mul_s (default (mkArr [] []) (head r.1)) (of_int r.2)).
    assert (weigh <$> results
            = (fun r => hd0 r :: weigh (tail r.1, r.2)) <$> results) as ->.
    { apply Forall_fmap_ext_1. eapply Forall_impl; [exact Hst|].
      intros [ws n] [Hs _]. cbn [fst snd] in *. by destruct ws. }
    rewrite (zip_star_cons_fmap hd0) by done.
    cbn [rmap imap]. unfold average_layer at 1.
    rewrite (reduce_np_add_same s).
    + cbn [rbind]. rewrite np_div_int_convert by done. cbn [rbind].
      change ((fun r : NDArrays F * Z => weigh (tail r.1, r.2)) <$> results)
        with ((weigh ∘ (fun r => (tail r.1, r.2))) <$> results).
      rewrite list_fmap_compose. fold (tails results).
      rewrite IH; [|by destruct results|by eapply same_structure_tails].
      cbn [rbind]. do 2 f_equal.
      * unfold np_div_s, np_scalar, mean_layer. cbn [shape data]. f_equal.
        rewrite <- list_fmap_compose. apply list_fmap_ext. intros j k Hk.
        apply lookup_seq in Hk as [-> Hk].
        cbn [compose]. do 2 f_equal. unfold weighted_entries.
        rewrite <- list_fmap_compose. apply Forall_fmap_ext_1.
        eapply Forall_impl; [exact Hst|]. intros [ws n] [Hs Hw]. cbn [fst snd compose] in *.
        destruct ws as [|a ws]; [done|]. unfold hd0, at_k, entry.
        simpl. rewrite list_lookup_fmap.
        inversion Hs; subst. inversion Hw as [|? ? Ha _]; subst.
        destruct (lookup_lt_is_Some_2 (data a) j) as [x ->]; [|done].
        by rewrite Ha.
      * apply imap_ext. intros i s' _. cbn [compose].
        by eapply mean_layer_tails.
    + by destruct results.
    + rewrite Forall_fmap. eapply Forall_impl; [exact Hst|].
      intros [ws n] [Hs Hw]. cbn [fst snd compose] in *.
      destruct ws as [|a ws]; [done|]. unfold hd0. cbn [head fst snd default].
      inversion Hs; subst. inversion Hw; subst. split; [done|].
      unfold wf_array, np_mul_s, np_scalar in *. cbn [shape data].
      by rewrite length_map.
Qed.

(** With counts that convert, aggregate averages the weighted layers. *)
Lemma aggregate_unfold (results : list (NDArrays F * Z)) :
  Forall (fun r => int_overflows r.2 = false) results →
  aggregate results
  = rmap (average_layer (py_sum (snd <$> results))) (zip_star (weigh <$> results)).
Proof.
  intros Hc. unfold aggregate. by rewrite weighted_weights_convert.
Qed.

Lemma counts_convert_each (results : list (NDArrays F * Z)) :
  counts_convert (snd <$> results) → Forall (fun r => int_overflows r.2 = false) results.
Proof. intros [Hc _]. by rewrite Forall_fmap in Hc. Qed.

Lemma aggregate_structure shapes (results : list (NDArrays F * Z)) :
  results ≠ [] → same_structure shapes results →
  counts_convert (snd <$> results) →
  aggregate results = Ok (imap (mean_layer results (py_sum (snd <$> results))) shapes).
Proof.
  intros Hne Hst Hc. rewrite aggregate_unfold by (by apply counts_convert_each).
  apply average_layers_structure; [done..|]. apply Hc.
Qed.

Lemma imap_mean_layer_shape (results : list (NDArrays F * Z)) T shapes :
  shape <$> imap (mean_layer results T) shapes = shapes.
Proof.
  rewrite fmap_imap. change (imap _ shapes) with (imap (fun _ s => s) shapes).
  revert results. induction shapes as [|s shapes IH]; intros results; [done|].
  cbn [imap]. f_equal.
  change (imap _ shapes) with (imap (fun _ (s : list nat) => s) shapes).
  apply (IH results).
Qed.

Lemma imap_mean_layer_wf (results : list (NDArrays F * Z)) T shapes :
  Forall wf_array (imap (mean_layer results T) shapes).
Proof.
  apply Forall_lookup_2. intros i a Ha.
  apply list_lookup_imap_Some in Ha as (s & _ & ->).
  unfold wf_array, mean_layer. cbn [shape data].
  by rewrite length_fmap, length_seq.
Qed.

Lemma imap_mean_layer_entry (results : list (NDArrays F * Z)) T shapes i l k x :
  imap (mean_layer results T) shapes !! i = Some l → data l !! k = Some x →
  x = ndiv (sum1 (weighted_entries results i k)) (of_int T).
Proof.
  intros Hl Hx. apply list_lookup_imap_Some in Hl as (s & _ & ->).
  unfold mean_layer in Hx. cbn [data] in Hx.
  rewrite list_lookup_fmap in Hx.
  destruct (seq 0 (size_of s) !! k) as [k'|] eqn:Hk; [|done].
  apply lookup_seq in Hk as [-> _]. by inversion Hx.
Qed.


(** What aggregate returns on structurally identical contributions: layers of
    the common structure, each element the sum of the weighted elements
    divided by the total. *)
Lemma aggregate_mean_layers (results : list (NDArrays F * Z)) shapes :
  results ≠ [] →
  same_structure shapes results →
  counts_convert (snd <$> results) →
  ∃ ws, aggregate results = Ok ws
        ∧ shape <$> ws = shapes
        ∧ Forall wf_array ws
        ∧ ∀ i l k x, ws !! i = Some l → data l !! k = Some x →
            x = ndiv (sum1 (weighted_entries results i k))
                     (of_int (py_sum (snd <$> results))).
Proof.
  intros Hne Hst Hc. eexists. split; [by apply aggregate_structure|].
  split; [apply imap_mean_layer_shape|]. split; [apply imap_mean_layer_wf|].
  intros i l k x Hl Hx. by eapply imap_mean_layer_entry.
Qed.

End ArrayFacts.



(** ** The weighted average *)

(** C1 (as amended): for a non-empty list of structurally identical
    contributions whose sample counts and their total convert to floats,
    aggregate raises nothing and returns a ParameterSet of the common
    structure; each element is the weighted-mean formula evaluated in the
    arithmetic of the arrays: the products element * count are added from
    left to right, the first one starting the sum, and the sum is divided by
    the total count.  Every operation rounds, so that this is the exact
    weighted mean only up to rounding. *)
Theorem aggregate_weighted_mean {F : Type} `{Numeric F}
    (results : list (NDArrays F * Z)) shapes :
  results ≠ [] →
  same_structure shapes results →
  counts_convert (snd <$> results) →
  ∃ ws, aggregate results = Ok ws
        ∧ shape <$> ws = shapes
        ∧ Forall wf_array ws
        ∧ ∀ i l k x, ws !! i = Some l → data l !! k = Some x →
            x = ndiv (sum1 ((fun r => nmul (entry r.1 i k) (of_int r.2)) <$> results))
                     (of_int (py_sum (snd <$> results))).
Proof. apply aggregate_mean_layers. Qed.

Lemma aggregate_weighted_mean_witness :
  ∃ ws, aggregate (F := float) two_clients = Ok ws
        ∧ shape <$> ws = [[1%nat]]
        ∧ Forall wf_array ws
        ∧ ∀ i l k x, ws !! i = Some l → data l !! k = Some x →
            x = ndiv (sum1 ((fun r => nmul (entry r.1 i k) (of_int r.2)) <$> two_clients))
                     (of_int (py_sum (snd <$> two_clients (F := float)))).
Proof.
  apply (aggregate_weighted_mean (F := float) two_clients [[1%nat]]).
  - discriminate.
  - repeat constructor.
  - split; [repeat constructor|reflexivity].
Defined.

(** The example of the specification, in binary64: [3.5] exactly. *)
Example aggregate_two_clients_binary64 :
  aggregate (F := float) two_clients = Ok [mkArr [1%nat] [3.5%float]].
Proof. vm_compute. reflexivity. Qed.

(** C1 fails as stated: in binary64 what aggregate returns is not the exact
    weighted mean.  One contribution [x] with the count 3, x being the
    binary64 nearest to 0.1, has the weighted mean x; aggregate returns the
    next binary64 above x.  The counts convert, and their total is
    positive. *)
Lemma aggregate_tenth_not_exact :
  aggregate (F := float) [([mkArr [1%nat] [0x1.999999999999ap-4%float]], 3)]
  = Ok [mkArr [1%nat] [0x1.999999999999bp-4%float]]
  ∧ 0x1.999999999999bp-4%float ≠ 0x1.999999999999ap-4%float
  ∧ counts_convert (F := float) [3]
  ∧ 0 < py_sum [3].
Proof.
  split; [vm_compute; reflexivity|]. split; [|split; [|reflexivity]].
  - intros Heq. apply (f_equal Prim2SF) in Heq. vm_compute in Heq. discriminate Heq.
  - split; [repeat constructor|reflexivity].
Qed.

(** ** Binary64: a zero total sample count *)











(** ** Contributions with different layer counts *)




Section Truncation.
Context {F : Type} `{Numeric F}.
Implicit Types (results : list (NDArrays F * Z)).







End Truncation.




(** ** aggregate_qffl *)

Lemma rfold_ext {A B} (f g : B → A → result B) (l : list A) acc :
  Forall (fun x => ∀ acc, f acc x = g acc x) l → rfold f acc l = rfold g acc l.
Proof.
  intros Hl. revert acc. induction Hl as [|x l Hx _ IH]; intros acc; simpl; [done|].
  rewrite Hx. destruct (g acc x); simpl; [apply IH|done].
Qed.

Lemma rfold_fmap {A B C} (f : B → A → result B) (h : C → A) (l : list C) acc :
  rfold f acc (h <$> l) = rfold (fun acc x => f acc (h x)) acc l.
Proof.
  revert acc. induction l as [|x l IH]; intros acc; simpl; [done|].
  destruct (f acc (h x)); simpl; [apply IH|done].
Qed.

(** A loop over [range(a, a + len(l))] that reads [l[j - a]] is a loop
    over [l]. *)
Lemma rfold_seq {A B} (g : B → nat → result B) (f : B → A → result B)
    (l : list A) (a : nat) acc :
  (∀ j x acc, l !! j = Some x → g acc (a + j)%nat = f acc x) →
  rfold g acc (seq a (length l)) = rfold f acc l.
Proof.
  revert a acc. induction l as [|x l IH]; intros a acc Hg; simpl; [done|].
  rewrite <- (Hg 0%nat x acc eq_refl), Nat.add_0_r.
  destruct (g acc a); simpl; [|done].
  apply IH. intros j y acc' Hj. rewrite <- (Hg (S j) y acc' Hj). f_equal. lia.
Qed.

Lemma py_get_Some {A} (l : list A) i x : l !! i = Some x → py_get l i = Ok x.
Proof. unfold py_get. by intros ->. Qed.

Section Qffl.
Context {F : Type} `{Numeric F}.
Implicit Types (s : list nat) (a b : NDArray F) (ws : NDArrays F).

Lemma has_structure_lookup shapes ws i s :
  has_structure shapes ws → shapes !! i = Some s →
  ∃ a, ws !! i = Some a ∧ shape a = s ∧ wf_array a.
Proof.
  intros [Hs Hw] Hi. rewrite <- Hs, list_lookup_fmap in Hi.
  destruct (ws !! i) as [a|] eqn:Ha; [|done]. exists a.
  split; [done|]. split; [by inversion Hi|]. by eapply Forall_lookup_1.
Qed.

Lemma has_structure_length shapes ws :
  has_structure shapes ws → length ws = length shapes.
Proof. intros [<- _]. by rewrite length_fmap. Qed.

Lemma scale_layer_entry (D : F) a k x :
  data a !! k = Some x →
  data (scale_layer D a) !! k = Some (ndiv (nmul x (of_int 1)) D).
Proof.
  intros Hx. unfold scale_layer, np_div_s, np_mul_s, np_scalar. cbn [data].
  by rewrite !list_lookup_fmap, Hx.
Qed.

Lemma entry_lookup ws i a k x :
  ws !! i = Some a → data a !! k = Some x → entry ws i k = x.
Proof. intros Ha Hx. unfold entry. rewrite Ha. cbn. by rewrite Hx. Qed.

Lemma qffl_update_structure shapes (deltas : list (NDArrays F)) (D : F) i s :
  deltas ≠ [] → Forall (has_structure shapes) deltas → shapes !! i = Some s →
  qffl_update ((fun client_delta : NDArrays F => scale_layer D <$> client_delta) <$> deltas)
              (length deltas) i
  = Ok (mkArr s (qffl_update_entry deltas D i <$> seq 0 (size_of s))).
Proof.
  intros Hne Hst Hi. destruct deltas as [|delta0 deltas]; [done|].
  apply Forall_cons in Hst as [Hst0 Hst].
  destruct (has_structure_lookup _ _ _ _ Hst0 Hi) as (a0 & Ha0 & Hs0 & Hw0).
  unfold qffl_update. rewrite fmap_cons.
  rewrite (py_get_Some _ 0%nat (scale_layer D <$> delta0)) by done. cbn [rbind].
  rewrite (py_get_Some _ i (scale_layer D a0)) by (by rewrite list_lookup_fmap, Ha0).
  cbn [rbind length]. rewrite Nat.sub_succ, Nat.sub_0_r.
  set (col := (fun delta : NDArrays F =>
                 scale_layer D (default (mkArr [] []) (delta !! i))) <$> deltas).
  transitivity (rfold np_iadd (scale_layer D a0) col).
  { rewrite <- (length_fmap (fun client_delta : NDArrays F => scale_layer D <$> client_delta)
                            deltas).
    unfold col. rewrite rfold_fmap. rewrite (rfold_seq _
      (fun acc client_delta => let* x := py_get client_delta i in np_iadd acc x)).
    - rewrite rfold_fmap. apply rfold_ext.
      eapply Forall_impl; [exact Hst|]. intros delta Hd acc.
      destruct (has_structure_lookup _ _ _ _ Hd Hi) as (a & Ha & _ & _).
      rewrite (py_get_Some _ i (scale_layer D a)) by (by rewrite list_lookup_fmap, Ha).
      by rewrite Ha.
    - intros j x acc Hj. by rewrite (py_get_Some _ (1 + j)%nat x). }
  assert (scale_layer D a0
          = mkArr s ((fun k => default nzero (data (scale_layer D a0) !! k))
                       <$> seq 0 (size_of s))) as ->.
  { rewrite <- (data_pointwise (data (scale_layer D a0)) (size_of s)).
    - unfold scale_layer, np_div_s, np_mul_s, np_scalar. cbn [shape data]. by rewrite Hs0.
    - unfold scale_layer, np_div_s, np_mul_s, np_scalar. cbn [shape data].
      rewrite !length_fmap. by rewrite <- Hs0. }
  rewrite (rfold_elementwise np_iadd).
  - do 2 f_equal. apply list_fmap_ext. intros j k Hk.
    apply lookup_seq in Hk as [-> Hk]. cbn [Nat.add].
    unfold qffl_update_entry. cbn [fmap list_fmap sum1].
    fold (fmap (M := list) (fun delta : NDArrays F =>
                              ndiv (nmul (entry delta i j) (of_int 1)) D) deltas).
    destruct (lookup_lt_is_Some_2 (data a0) j) as [x0 Hx0]; [by rewrite Hw0, Hs0|].
    rewrite (scale_layer_entry D a0 j x0 Hx0), (entry_lookup _ _ _ _ _ Ha0 Hx0).
    cbn [from_option id]. f_equal. unfold col. rewrite <- list_fmap_compose.
    apply Forall_fmap_ext_1. eapply Forall_impl; [exact Hst|]. intros delta Hd.
    destruct (has_structure_lookup _ _ _ _ Hd Hi) as (a & Ha & Hsa & Hwa).
    destruct (lookup_lt_is_Some_2 (data a) j) as [x Hx]; [by rewrite Hwa, Hsa|].
    cbn [compose]. rewrite Ha. simpl from_option. unfold at_k.
    by rewrite (scale_layer_entry D a j x Hx), (entry_lookup _ _ _ _ _ Ha Hx).
  - intros a b Hab Ha Hb. by apply np_inplace_same.
  - unfold col. rewrite Forall_fmap. eapply Forall_impl; [exact Hst|]. intros delta Hd.
    destruct (has_structure_lookup _ _ _ _ Hd Hi) as (a & Ha & Hsa & Hwa).
    cbn [compose]. rewrite Ha. cbn [from_option id]. split; [done|].
    unfold wf_array, scale_layer, np_div_s, np_mul_s, np_scalar in *. cbn [shape data].
    by rewrite !length_fmap.
Qed.


Lemma aggregate_qffl_structure shapes (parameters : NDArrays F)
    (deltas : list (NDArrays F)) (hs_fll : list F) :
  deltas ≠ [] →
  has_structure shapes parameters →
  Forall (has_structure shapes) deltas →
  aggregate_qffl parameters deltas hs_fll
  = Ok (imap (qffl_layer parameters deltas (np_sum hs_fll)) shapes).
Proof.
  intros Hne Hp Hst. unfold aggregate_qffl.
  destruct deltas as [|delta0 deltas']; [done|].
  rewrite (py_get_Some _ 0%nat delta0) by done. cbn [rbind].
  rewrite (has_structure_length shapes delta0) by (by apply Forall_inv in Hst).
  set (deltas := delta0 :: deltas') in *.
  set (D := np_sum hs_fll).
  set (U := fun i s => mkArr s (qffl_update_entry deltas D i <$> seq 0 (size_of s))).
  rewrite (rmap_Forall2 _ _ (imap U shapes)).
  - cbn [rbind]. apply rmap_Forall2. apply Forall2_same_length_lookup_2.
    { rewrite length_zip, !length_imap, (has_structure_length shapes) by done. lia. }
    intros i [u v] y Huv Hy. apply lookup_zip_with_Some in Huv as (u' & v' & [= <- <-] & Hu & Hv).
    apply list_lookup_imap_Some in Hy as (s & Hs & ->).
    apply list_lookup_imap_Some in Hv as (s' & Hs' & ->).
    assert (s' = s) as -> by congruence.
    destruct (has_structure_lookup _ _ _ _ Hp Hs) as (a & Ha & Hsa & Hwa).
    assert (a = u) as -> by congruence.
    unfold np_sub. rewrite np_binop_same; [|by rewrite Hsa| done |].
    + cbn [rbind shape data U]. f_equal.
      unfold np_mul_s, np_scalar, qffl_layer. cbn [shape data]. rewrite Hsa. f_equal.
      rewrite (data_pointwise (data u) (size_of s)) at 1 by (by rewrite <- Hsa).
      rewrite zip_with_pointwise, <- list_fmap_compose.
      apply list_fmap_ext. intros j k Hk. apply lookup_seq in Hk as [-> Hk].
      cbn [compose Nat.add]. do 2 f_equal.
      destruct (lookup_lt_is_Some_2 (data u) j) as [x Hx]; [by rewrite Hwa, Hsa|].
      by rewrite (entry_lookup _ _ _ _ _ Ha Hx), Hx.
    + unfold wf_array, U. cbn [shape data]. by rewrite length_fmap, length_seq.
  - apply Forall2_same_length_lookup_2.
    { by rewrite length_seq, length_imap. }
    intros j i y Hj Hy. apply lookup_seq in Hj as [-> _]. cbn [Nat.add] in *.
    apply list_lookup_imap_Some in Hy as (s & Hs & ->).
    by apply (qffl_update_structure shapes).
Qed.


Lemma fmap_shape_imap (f : nat → list nat → NDArray F) shapes :
  (∀ i s, shape (f i s) = s) → shape <$> imap f shapes = shapes.
Proof.
  revert f. induction shapes as [|s shapes IH]; intros f Hf; [done|].
  cbn [imap fmap list_fmap]. rewrite Hf. f_equal. apply IH. intros i s'. apply Hf.
Qed.

(** What aggregate_qffl returns on deltas of the structure of the
    parameters: layers of that structure, each element
    [(parameter - Σ_c (delta_c * 1.0 / Σh)) * 1.0], the sum taken from left
    to right, the first term starting it. *)
Lemma aggregate_qffl_layers (parameters : NDArrays F) deltas hs shapes :
  deltas ≠ [] →
  has_structure shapes parameters →
  Forall (has_structure shapes) deltas →
  ∃ ws, aggregate_qffl parameters deltas hs = Ok ws
        ∧ has_structure shapes ws
        ∧ ∀ i l k x, ws !! i = Some l → data l !! k = Some x →
            x = nmul (nsub (entry parameters i k)
                           (sum1 ((fun delta => ndiv (nmul (entry delta i k) (of_int 1))
                                                     (np_sum hs)) <$> deltas)))
                     (of_int 1).
Proof.
  intros Hne Hp Hd. eexists. split; [by apply aggregate_qffl_structure|]. split.
  - split.
    + by apply fmap_shape_imap.
    + apply Forall_lookup_2. intros i a Ha.
      apply list_lookup_imap_Some in Ha as (s & _ & ->).
      unfold wf_array, qffl_layer. cbn [shape data]. by rewrite length_fmap, length_seq.
  - intros i l k x Hl Hx. apply list_lookup_imap_Some in Hl as (s & _ & ->).
    unfold qffl_layer in Hx. cbn [data] in Hx. rewrite list_lookup_fmap in Hx.
    destruct (seq 0 (size_of s) !! k) as [k'|] eqn:Hk; [|done].
    apply lookup_seq in Hk as [-> _]. cbn in Hx. by injection Hx as <-.
Qed.

(** Two ParameterSets of one structure with the same elements are the
    same. *)
Lemma structure_entries (ws ws' : NDArrays F) shapes :
  has_structure shapes ws → has_structure shapes ws' →
  (∀ i l k x, ws !! i = Some l → data l !! k = Some x → x = entry ws' i k) →
  ws = ws'.
Proof.
  intros Hs Hs' Hent. apply list_eq. intros i.
  destruct (shapes !! i) as [s|] eqn:Hi.
  - destruct (has_structure_lookup _ _ _ _ Hs Hi) as (a & Ha & Hsa & Hwa).
    destruct (has_structure_lookup _ _ _ _ Hs' Hi) as (a' & Ha' & Hsa' & Hwa').
    rewrite Ha, Ha'. f_equal. destruct a as [sa da], a' as [sa' da'].
    cbn in *. subst sa sa'. f_equal.
    apply list_eq_same_length with (size_of s); [done..|].
    intros k x y Hk Hx Hy. rewrite (Hent i _ k x Ha Hx).
    by rewrite (entry_lookup _ _ _ _ _ Ha' Hy).
  - apply lookup_ge_None in Hi.
    rewrite !lookup_ge_None_2; [done|..].
    + by rewrite (has_structure_length shapes).
    + by rewrite (has_structure_length shapes).
Qed.

End Qffl.

(** ** np.sum *)

Section NpSum.
Context {F : Type} `{Numeric F}.

Lemma pairwise_sum_unfold (fuel : nat) (l : list F) :
  pairwise_sum fuel l
  = if (length l <? 8)%nat then foldl nadd nzero l
    else if (length l <=? 128)%nat then block_sum l
    else match fuel with
         | O => nzero
         | S fuel' =>
             nadd (pairwise_sum fuel' (take (length l / 2 - (length l / 2) mod 8) l))
                  (pairwise_sum fuel' (drop (length l / 2 - (length l / 2) mod 8) l))
         end.
Proof. by destruct fuel. Qed.

(** The length of the list is fuel enough for the pairwise sum: more fuel
    gives the same sum. *)
Lemma pairwise_sum_fuel (fuel fuel' : nat) (l : list F) :
  (length l ≤ fuel)%nat → (length l ≤ fuel')%nat →
  pairwise_sum fuel l = pairwise_sum fuel' l.
Proof.
  revert fuel' l. induction fuel as [|fuel IH]; intros fuel' l Hl Hl'.
  - apply Nat.le_0_r, length_zero_iff_nil in Hl. subst l. by destruct fuel'.
  - rewrite (pairwise_sum_unfold (S fuel)), (pairwise_sum_unfold fuel').
    destruct (Nat.ltb_spec (length l) 8) as [|H8]; [done|].
    destruct (Nat.leb_spec (length l) 128) as [|H128]; [done|].
    destruct fuel' as [|fuel']; [lia|].
    set (n2 := (length l / 2 - (length l / 2) mod 8)%nat).
    assert (1 ≤ n2 < length l)%nat as Hn2.
    { subst n2. pose proof (Nat.mod_upper_bound (length l / 2) 8).
      pose proof (Nat.Div0.mod_le (length l / 2) 8).
      assert (64 ≤ length l / 2)%nat by (apply Nat.div_le_lower_bound; lia).
      assert (length l / 2 < length l)%nat by (apply Nat.div_lt; lia).
      lia. }
    f_equal; apply IH; rewrite ?length_take, ?length_drop; lia.
Qed.

End NpSum.

(** ** Binary64: the sum of numbers of one sign *)

Lemma iter_pos_nat {A} (f : A → A) (p : positive) (x : A) :
  SpecFloat.iter_pos f p x = Nat.iter (Pos.to_nat p) f x.
Proof.
  revert x. induction p as [p IH|p IH|]; intros x; cbn [SpecFloat.iter_pos].
  - rewrite !IH, Pos2Nat.inj_xI. cbn [Nat.mul]. rewrite Nat.add_0_r.
    by rewrite Nat.iter_succ_r, Nat.iter_add.
  - rewrite !IH, Pos2Nat.inj_xO. cbn [Nat.mul]. rewrite Nat.add_0_r.
    by rewrite Nat.iter_add.
  - done.
Qed.

Lemma shr_1_positive (m : positive) r s :
  1 < Zpos (digits2_pos m) →
  ∃ m' r' s', shr_1 {| shr_m := Zpos m; shr_r := r; shr_s := s |}
              = {| shr_m := Zpos m'; shr_r := r'; shr_s := s' |}
              ∧ Zpos (digits2_pos m') = Zpos (digits2_pos m) - 1.
Proof.
  intros Hd. destruct m as [p|p|]; cbn [digits2_pos] in *; [| |lia].
  - eexists _, _, _. split; [reflexivity|]. lia.
  - eexists _, _, _. split; [reflexivity|]. lia.
Qed.

Lemma iter_shr_1_positive (n : nat) (m : positive) r s :
  Z.of_nat n < Zpos (digits2_pos m) →
  ∃ m' r' s', Nat.iter n shr_1 {| shr_m := Zpos m; shr_r := r; shr_s := s |}
              = {| shr_m := Zpos m'; shr_r := r'; shr_s := s' |}
              ∧ Zpos (digits2_pos m') = Zpos (digits2_pos m) - Z.of_nat n.
Proof.
  induction n as [|n IH]; intros Hn.
  - eexists _, _, _. split; [reflexivity|]. lia.
  - destruct IH as (m1 & r1 & s1 & Hit & Hd1); [lia|].
    rewrite Nat.iter_succ, Hit.
    destruct (shr_1_positive m1 r1 s1) as (m2 & r2 & s2 & Hs & Hd2); [lia|].
    exists m2, r2, s2. split; [done|]. lia.
Qed.

Lemma digits2_pos_succ (m : positive) :
  Zpos (digits2_pos (Pos.succ m)) = Zpos (digits2_pos m)
  ∨ Zpos (digits2_pos (Pos.succ m)) = Zpos (digits2_pos m) + 1.
Proof.
  induction m as [p IH|p IH|]; simpl.
  - destruct IH as [IH|IH]; [left|right]; lia.
  - by left.
  - right. reflexivity.
Qed.

Section Rounding.
Variables prec emax : Z.

Lemma round_nearest_even_positive (m : positive) r s :
  ∃ m', round_nearest_even (Zpos m)
          (loc_of_shr_record {| shr_m := Zpos m; shr_r := r; shr_s := s |}) = Zpos m'
        ∧ (Zpos (digits2_pos m') = Zpos (digits2_pos m)
           ∨ Zpos (digits2_pos m') = Zpos (digits2_pos m) + 1).
Proof.
  assert (Zpos m + 1 = Zpos (Pos.succ m)) as Hs by lia.
  destruct r, s; cbn [loc_of_shr_record round_nearest_even].
  - rewrite Hs. eexists. split; [reflexivity|]. apply digits2_pos_succ.
  - destruct (Z.even (Zpos m)).
    + eexists. split; [reflexivity|]. by left.
    + rewrite Hs. eexists. split; [reflexivity|]. apply digits2_pos_succ.
  - eexists. split; [reflexivity|]. by left.
  - eexists. split; [reflexivity|]. by left.
Qed.

(** Rounding a positive mantissa at an exponent that is not below the least
    one gives a number other than zero, of the given sign. *)
Lemma binary_round_aux_signed sx (m : positive) e :
  0 < prec →
  fexp prec emax (Zpos (digits2_pos m) + e) ≤ e ∨ SpecFloat.emin prec emax ≤ e →
  signed sx (binary_round_aux prec emax sx (Zpos m) e loc_Exact).
Proof.
  intros Hprec He. unfold binary_round_aux, shr_fexp. cbn [Zdigits2 shr_record_of_loc].
  set (d := Zpos (digits2_pos m)) in *.
  destruct (fexp prec emax (d + e) - e) as [|p|p] eqn:Hn; cbn [shr].
  - cbn [shr_m loc_of_shr_record round_nearest_even Zdigits2]. fold d. rewrite Hn.
    cbn [shr shr_m]. by destruct (_ <=? _).
  - assert (SpecFloat.emin prec emax ≤ e) as Hmin by (destruct He; lia).
    assert (fexp prec emax (d + e) = d + e - prec) as Hf by (unfold fexp in *; lia).
    rewrite iter_pos_nat.
    destruct (iter_shr_1_positive (Pos.to_nat p) m false false) as (m1 & r1 & s1 & -> & Hd1);
      [fold d; lia|].
    cbn [shr_m]. fold d in Hd1.
    destruct (round_nearest_even_positive m1 r1 s1) as (m2 & -> & Hd2).
    cbn [Zdigits2].
    destruct (fexp prec emax (Zpos (digits2_pos m2) + (e + Zpos p)) - (e + Zpos p))
      as [|q|q] eqn:Hn2; cbn [shr shr_m].
    + by destruct (_ <=? _).
    + assert (q = 1%positive ∧ 1 < Zpos (digits2_pos m2)) as [-> Hd3].
      { unfold fexp in Hn2. lia. }
      cbn [SpecFloat.iter_pos].
      destruct (shr_1_positive m2 false false Hd3) as (m3 & r3 & s3 & -> & _).
      cbn [shr_m]. by destruct (_ <=? _).
    + by destruct (_ <=? _).
  - cbn [shr_m loc_of_shr_record round_nearest_even Zdigits2]. fold d. rewrite Hn.
    cbn [shr shr_m]. by destruct (_ <=? _).
Qed.

Lemma digits2_pos_iter_xO (m d : positive) :
  Zpos (digits2_pos (Pos.iter xO m d)) = Zpos (digits2_pos m) + Zpos d.
Proof.
  induction d as [|d IH] using Pos.peano_ind.
  - cbn. lia.
  - rewrite Pos.iter_succ. cbn [digits2_pos]. lia.
Qed.

Lemma binary_round_signed sx (m : positive) e :
  0 < prec → SpecFloat.emin prec emax ≤ e → signed sx (binary_round prec emax sx m e).
Proof.
  intros Hprec He. unfold binary_round, shl_align.
  destruct (fexp prec emax (Zpos (digits2_pos m) + e) - e) as [|p|p] eqn:Hn.
  - apply binary_round_aux_signed; [done|]. by right.
  - apply binary_round_aux_signed; [done|]. by right.
  - apply binary_round_aux_signed; [done|]. left.
    rewrite digits2_pos_iter_xO.
    replace (Zpos (digits2_pos m) + Zpos p + fexp prec emax (Zpos (digits2_pos m) + e))
      with (Zpos (digits2_pos m) + e) by lia.
    lia.
Qed.

Lemma bounded_emin (m : positive) e : bounded prec emax m e = true → SpecFloat.emin prec emax ≤ e.
Proof.
  unfold bounded, canonical_mantissa, fexp. intros [Hc _]%andb_true_iff.
  apply Z.eqb_eq in Hc. lia.
Qed.

(** The sum of two numbers of the same sign, neither of them a zero, is a
    number of that sign and not a zero. *)
Lemma SFadd_signed s (x y : spec_float) :
  0 < prec →
  SpecFloat.valid_binary prec emax x = true → SpecFloat.valid_binary prec emax y = true →
  signed s x → signed s y → signed s (SFadd prec emax x y).
Proof.
  intros Hprec Hvx Hvy Hx Hy.
  destruct x as [sx|sx| |sx mx ex], y as [sy|sy| |sy my ey]; try done;
    cbn [signed] in Hx, Hy; subst sx sy.
  - by destruct s.
  - cbn [SFadd SpecFloat.valid_binary] in *.
    apply bounded_emin in Hvx, Hvy.
    assert (SpecFloat.emin prec emax ≤ Z.min ex ey) as Hmin by lia.
    destruct s; cbn [cond_Zopp Z.opp Z.add binary_normalize];
      by apply binary_round_signed.
Qed.

End Rounding.

Lemma add_nonzero s (x y : float) : nonzero s x → nonzero s y → nonzero s (x + y)%float.
Proof.
  unfold nonzero. rewrite add_spec.
  apply (SFadd_signed prec emax s _ _ eq_refl); apply Prim2SF_valid.
Qed.

Lemma zero_add_nonzero s (x : float) : nonzero s x → nonzero s (0 + x)%float.
Proof.
  unfold nonzero. rewrite add_spec. change (Prim2SF 0) with (S754_zero false).
  intros Hx. by destruct (Prim2SF x) as [[]|[]| |[] ? ?].
Qed.

Lemma nonzero_not_zero_or_nan s (x : float) : nonzero s x → ¬ zero_or_nan x.
Proof. unfold nonzero, signed, zero_or_nan. destruct (Prim2SF x); intros Hx Hz; done. Qed.

Lemma nonzero_positive (x : float) : nonzero false x → PrimFloat.ltb 0 x = true.
Proof.
  unfold nonzero, signed. rewrite ltb_spec. change (Prim2SF 0) with (S754_zero false).
  by destruct (Prim2SF x) as [[]|[]| |[] ? ?].
Qed.

Lemma foldl_nonzero s (x : float) (l : list float) :
  nonzero s x → Forall (nonzero s) l → nonzero s (foldl PrimFloat.add x l).
Proof.
  intros Hx Hl. revert x Hx. induction Hl as [|y l Hy _ IH]; intros x Hx; [done|].
  simpl. apply IH. by apply add_nonzero.
Qed.

Lemma foldl_zero_nonzero s (l : list float) :
  l ≠ [] → Forall (nonzero s) l → nonzero s (foldl PrimFloat.add 0%float l).
Proof.
  intros Hne Hl. destruct Hl as [|x l Hx Hl]; [done|]. simpl.
  apply foldl_nonzero; [|done]. by apply zero_add_nonzero.
Qed.

(** The eight running sums of a block, after [g] more groups of eight. *)
Lemma add_groups_nonzero s (g : nat) :
  ∀ r l : list float,
    length r = 8%nat → (8 * g ≤ length l)%nat →
    Forall (nonzero s) r → Forall (nonzero s) l →
    length (add_groups r l g) = 8%nat ∧ Forall (nonzero s) (add_groups r l g).
Proof.
  induction g as [|g IH]; intros r l Hr Hg Hnr Hnl; cbn [add_groups]; [done|].
  apply IH.
  - rewrite length_zip_with, length_take. lia.
  - rewrite length_drop. lia.
  - apply Forall_lookup. intros i z Hz.
    apply lookup_zip_with_Some in Hz as (x & y & -> & Hx & Hy).
    apply add_nonzero.
    + by eapply Forall_lookup_1 in Hx.
    + apply lookup_take_Some in Hy as [Hy _]. by eapply Forall_lookup_1 in Hy.
  - by apply Forall_drop.
Qed.

Lemma block_sum_nonzero s (l : list float) :
  (8 ≤ length l)%nat → Forall (nonzero s) l → nonzero s (block_sum l).
Proof.
  intros H8 Hl. unfold block_sum. cbv zeta.
  assert (1 ≤ length l / 8)%nat as Hfull by (apply Nat.div_le_lower_bound; lia).
  pose proof (Nat.Div0.mul_div_le (length l) 8) as Hmul.
  destruct (add_groups_nonzero s (length l / 8 - 1) (take 8 l) (drop 8 l)) as [Hlen Hr].
  - rewrite length_take. lia.
  - rewrite length_drop. lia.
  - by apply Forall_take.
  - by apply Forall_drop.
  - apply foldl_nonzero; [|by apply Forall_drop].
    destruct (add_groups _ _ _) as [|r0 [|r1 [|r2 [|r3 [|r4 [|r5 [|r6 [|r7 [|]]]]]]]]];
      try discriminate Hlen.
    repeat (apply Forall_cons in Hr as [? Hr]).
    repeat apply add_nonzero; done.
Qed.

Lemma pairwise_sum_nonzero s (fuel : nat) :
  ∀ l : list float,
    (length l ≤ fuel)%nat → l ≠ [] → Forall (nonzero s) l →
    nonzero s (pairwise_sum fuel l).
Proof.
  induction fuel as [|fuel IH]; intros l Hfuel Hne Hl.
  - apply Nat.le_0_r, length_zero_iff_nil in Hfuel. done.
  - rewrite pairwise_sum_unfold.
    destruct (Nat.ltb_spec (length l) 8) as [|H8]; [by apply foldl_zero_nonzero|].
    destruct (Nat.leb_spec (length l) 128) as [|H128]; [by apply block_sum_nonzero|].
    set (n2 := (length l / 2 - (length l / 2) mod 8)%nat).
    assert (1 ≤ n2 < length l)%nat as Hn2.
    { subst n2. pose proof (Nat.mod_upper_bound (length l / 2) 8).
      pose proof (Nat.Div0.mod_le (length l / 2) 8).
      assert (64 ≤ length l / 2)%nat by (apply Nat.div_le_lower_bound; lia).
      assert (length l / 2 < length l)%nat by (apply Nat.div_lt; lia).
      lia. }
    apply add_nonzero; apply IH.
    + rewrite length_take. lia.
    + intros Hnil. apply (f_equal length) in Hnil. rewrite length_take in Hnil. cbn [length] in Hnil. lia.
    + by apply Forall_take.
    + rewrite length_drop. lia.
    + intros Hnil. apply (f_equal length) in Hnil. rewrite length_drop in Hnil. cbn [length] in Hnil. lia.
    + by apply Forall_drop.
Qed.

(** What np.sum makes of numbers of one sign that are not zero: a number of
    that sign that is not zero (an infinity, when the sum overflows). *)
Lemma np_sum_nonzero s (l : list float) :
  l ≠ [] → Forall (nonzero s) l → nonzero s (np_sum l).
Proof.
  intros Hne Hl. unfold np_sum. apply zero_add_nonzero.
  by apply pairwise_sum_nonzero.
Qed.

(** ** Binary64: zeros and the unit *)

Lemma mul_pow52 (m : positive) : (m * 4503599627370496)%positive = Pos.iter xO m 52.
Proof. rewrite Pos.mul_comm. reflexivity. Qed.

Lemma digits2_pos_shift (m : positive) :
  digits2_pos (Pos.iter xO m 52) = (digits2_pos m + 52)%positive.
Proof. cbn. lia. Qed.

(** The product of a binary64 number and 1.0 is exact: the mantissa,
    shifted by 52 bits, is shifted back. *)
Lemma SFmul_one_finite sx mx ex :
  bounded prec emax mx ex = true →
  SFmul prec emax (S754_finite sx mx ex) (S754_finite false 4503599627370496 (-52))
  = S754_finite sx mx ex.
Proof.
  intros Hb. apply andb_true_iff in Hb as [Hc He].
  unfold canonical_mantissa in Hc. apply Z.eqb_eq in Hc.
  cbn [SFmul]. rewrite mul_pow52, xorb_false_r.
  unfold binary_round_aux, shr_fexp.
  assert (Zdigits2 (Zpos (Pos.iter xO mx 52)) + (ex + -52) = Zpos (digits2_pos mx) + ex) as ->.
  { cbn [Zdigits2]. rewrite digits2_pos_shift. lia. }
  rewrite Hc.
  replace (ex - (ex + -52)) with 52 by lia.
  cbn [shr shr_record_of_loc].
  change (SpecFloat.iter_pos shr_1 52 {| shr_m := Zpos (Pos.iter xO mx 52); shr_r := false; shr_s := false |})
    with {| shr_m := Zpos mx; shr_r := false; shr_s := false |}.
  cbn [shr_m loc_of_shr_record round_nearest_even].
  replace (ex + -52 + 52) with ex by lia.
  cbn [Zdigits2]. rewrite Hc, Z.sub_diag. cbn [shr shr_record_of_loc shr_m].
  by rewrite He.
Qed.

Lemma mul_one (x : float) : (x * 1)%float = x.
Proof.
  apply Prim2SF_inj. rewrite mul_spec.
  change (Prim2SF 1) with (S754_finite false 4503599627370496 (-52)).
  pose proof (Prim2SF_valid x) as Hv.
  destruct (Prim2SF x) as [s|s| |s m e]; try reflexivity.
  - cbn. by rewrite xorb_false_r.
  - cbn. by rewrite xorb_false_r.
  - by apply SFmul_one_finite.
Qed.

Lemma a_zero_zero : a_zero 0.
Proof. exact I. Qed.

Lemma a_zero_not_number (x : float) : a_zero x → zero_or_nan x.
Proof. unfold a_zero, zero_or_nan. by destruct (Prim2SF x). Qed.

Lemma add_a_zero (x y : float) : a_zero x → a_zero y → a_zero (x + y)%float.
Proof.
  unfold a_zero. rewrite add_spec.
  destruct (Prim2SF x) as [[]|[]| |[] ? ?], (Prim2SF y) as [[]|[]| |[] ? ?]; done.
Qed.

Lemma foldl_a_zero (x : float) (l : list float) :
  a_zero x → Forall a_zero l → a_zero (foldl PrimFloat.add x l).
Proof.
  intros Hx Hl. revert x Hx. induction Hl as [|y l Hy _ IH]; intros x Hx; [done|].
  simpl. apply IH. by apply add_a_zero.
Qed.

Lemma sum1_a_zero (l : list float) : Forall a_zero l → a_zero (sum1 l).
Proof. destruct 1 as [|x l Hx Hl]; [done|]. by apply foldl_a_zero. Qed.

(** A zero divided by a number that is not zero is a zero. *)
Lemma div_a_zero (z D : float) : a_zero z → ¬ zero_or_nan D → a_zero (z / D)%float.
Proof.
  unfold a_zero, zero_or_nan. rewrite div_spec.
  destruct (Prim2SF z) as [[]|[]| |[] ? ?], (Prim2SF D) as [[]|[]| |[] ? ?]; done.
Qed.

(** Subtracting a zero leaves the number, but for the zero of the other
    sign. *)
Lemma sub_a_zero (x u : float) : a_zero u → same_number x (x - u)%float.
Proof.
  unfold a_zero, same_number. intros Hu.
  destruct (Prim2SF u) as [su| | |] eqn:Eu; try done.
  destruct (Prim2SF x) as [sx|sx| |sx mx ex] eqn:Ex.
  - destruct sx, su.
    + right. split; apply Prim2SF_inj; [by rewrite Ex|by rewrite sub_spec, Ex, Eu].
    + left. apply Prim2SF_inj. by rewrite sub_spec, Ex, Eu.
    + left. apply Prim2SF_inj. by rewrite sub_spec, Ex, Eu.
    + left. apply Prim2SF_inj. by rewrite sub_spec, Ex, Eu.
  - left. apply Prim2SF_inj. by rewrite sub_spec, Ex, Eu.
  - left. apply Prim2SF_inj. by rewrite sub_spec, Ex, Eu.
  - left. apply Prim2SF_inj. by rewrite sub_spec, Ex, Eu.
Qed.

Lemma sub_zero (x : float) : (x - 0)%float = x.
Proof.
  apply Prim2SF_inj. rewrite sub_spec. change (Prim2SF 0) with (S754_zero false).
  by destruct (Prim2SF x) as [[]|[]| |[] ? ?].
Qed.

(** The positive zero divided by a positive number is the positive zero. *)
Lemma div_zero_positive (D : float) : PrimFloat.ltb 0 D = true → (0 / D)%float = 0%float.
Proof.
  rewrite ltb_spec. intros HD. apply Prim2SF_inj. rewrite div_spec. revert HD.
  change (Prim2SF 0) with (S754_zero false).
  by destruct (Prim2SF D) as [[]|[]| |[] ? ?].
Qed.

Lemma foldl_zeros (l : list float) :
  Forall (fun x => x = 0%float) l → foldl PrimFloat.add 0%float l = 0%float.
Proof. induction 1 as [|x l -> _ IH]; [done|]. exact IH. Qed.

Lemma sum1_zeros (l : list float) : Forall (fun x => x = 0%float) l → sum1 l = 0%float.
Proof. destruct 1 as [|x l -> Hl]; [done|]. by apply foldl_zeros. Qed.


Lemma entry_all_zero (delta : NDArrays float) i k : all_zero delta → a_zero (entry delta i k).
Proof.
  intros Hz. unfold entry. destruct (delta !! i) as [a|] eqn:Ha; [|done]. cbn.
  destruct (data a !! k) as [x|] eqn:Hx; [|done]. cbn.
  eapply Forall_lookup_1 in Ha; [|exact Hz]. by eapply Forall_lookup_1 in Hx; [|exact Ha].
Qed.

Lemma entry_zeros (delta : NDArrays float) i k :
  Forall (fun a => Forall (fun x => x = 0%float) (data a)) delta →
  entry delta i k = 0%float.
Proof.
  intros Hz. unfold entry. destruct (delta !! i) as [a|] eqn:Ha; [|done]. cbn.
  destruct (data a !! k) as [x|] eqn:Hx; [|done]. cbn.
  eapply Forall_lookup_1 in Ha; [|exact Hz]. by eapply Forall_lookup_1 in Hx; [|exact Ha].
Qed.

(** The identity needs of the fairness weights only that their sum, as
    np.sum computes it, is a number other than zero. *)
Lemma aggregate_qffl_zero_deltas (parameters : NDArrays float)
    (deltas : list (NDArrays float)) (hs : list float) shapes :
  deltas ≠ [] →
  has_structure shapes parameters →
  Forall (has_structure shapes) deltas →
  Forall all_zero deltas →
  ¬ zero_or_nan (np_sum hs) →
  ∃ ws, aggregate_qffl parameters deltas hs = Ok ws
        ∧ has_structure shapes ws
        ∧ (∀ i l k x, ws !! i = Some l → data l !! k = Some x →
             same_number (entry parameters i k) x)
        ∧ (PrimFloat.ltb 0 (np_sum hs) = true →
           Forall (Forall (fun a => Forall (fun x => x = 0%float) (data a))) deltas →
           ws = parameters).
Proof.
  intros Hne Hp Hd Hzero HD.
  destruct (aggregate_qffl_layers parameters deltas hs shapes Hne Hp Hd)
    as (ws & Hagg & Hws & Hent).
  exists ws. split; [done|]. split; [done|]. split.
  - intros i l k x Hl Hx. rewrite (Hent i l k x Hl Hx).
    change (of_int (F := float) 1) with 1%float. cbn [nmul nsub ndiv float_numeric].
    rewrite mul_one. apply sub_a_zero, sum1_a_zero. rewrite Forall_fmap.
    eapply Forall_impl; [exact Hzero|]. intros delta Hz. cbn [compose].
    rewrite mul_one. apply div_a_zero; [|done]. by apply entry_all_zero.
  - intros Hpos Hzeros. apply (structure_entries _ _ shapes Hws Hp).
    intros i l k x Hl Hx. rewrite (Hent i l k x Hl Hx).
    change (of_int (F := float) 1) with 1%float. cbn [nmul nsub ndiv float_numeric].
    rewrite mul_one, sum1_zeros; [apply sub_zero|]. rewrite Forall_fmap.
    eapply Forall_impl; [exact Hzeros|]. intros delta Hz. cbn [compose].
    rewrite mul_one, (entry_zeros _ _ _ Hz). by apply div_zero_positive.
Qed.

(** C5: the Q-FFL identity, in binary64.  For every ParameterSet p, every
    non-empty list of deltas structurally matching p whose elements are all
    zeros, and every non-empty list of fairness weights that are all the
    same number [h], not zero and not NaN (of either sign [s]; an infinity
    is such a number), aggregate_qffl raises nothing and returns p: a
    ParameterSet of the structure of p whose elements are those of p, of
    which only a -0.0 can have become 0.0 (the two are equal as numbers);
    and p itself, bit for bit, when the zeros of the deltas are 0.0 and the
    weights are positive.  The number of weights need not be the number of
    deltas. *)
Theorem aggregate_qffl_identity (parameters : NDArrays float)
    (deltas : list (NDArrays float)) (hs : list float) shapes (h : float) (s : bool) :
  deltas ≠ [] →
  has_structure shapes parameters →
  Forall (has_structure shapes) deltas →
  Forall all_zero deltas →
  hs ≠ [] →
  nonzero s h →
  Forall (fun x => x = h) hs →
  ∃ ws, aggregate_qffl parameters deltas hs = Ok ws
        ∧ has_structure shapes ws
        ∧ (∀ i l k x, ws !! i = Some l → data l !! k = Some x →
             same_number (entry parameters i k) x)
        ∧ (s = false →
           Forall (Forall (fun a => Forall (fun x => x = 0%float) (data a))) deltas →
           ws = parameters).
Proof.
  intros Hne Hp Hd Hzero Hhs Hh Heq.
  assert (nonzero s (np_sum hs)) as Hsum.
  { apply np_sum_nonzero; [done|]. eapply Forall_impl; [exact Heq|]. by intros x ->. }
  destruct (aggregate_qffl_zero_deltas parameters deltas hs shapes Hne Hp Hd Hzero)
    as (ws & Hagg & Hws & Hsame & Hbits).
  { by eapply nonzero_not_zero_or_nan. }
  exists ws. split; [done|]. split; [done|]. split; [done|].
  intros -> Hzeros. apply Hbits; [|done]. by apply nonzero_positive.
Qed.

Lemma aggregate_qffl_identity_witness :
  ∃ ws, aggregate_qffl [mkArr [2%nat] [1%float; (-0)%float]]
                       [[mkArr [2%nat] [0%float; (-0)%float]];
                        [mkArr [2%nat] [0%float; 0%float]]]
                       [2%float; 2%float] = Ok ws
        ∧ has_structure [[2%nat]] ws
        ∧ (∀ i l k x, ws !! i = Some l → data l !! k = Some x →
             same_number (entry [mkArr [2%nat] [1%float; (-0)%float]] i k) x)
        ∧ (false = false →
           Forall (Forall (fun a => Forall (fun x => x = 0%float) (data a)))
                  [[mkArr [2%nat] [0%float; (-0)%float]];
                   [mkArr [2%nat] [0%float; 0%float]]] →
           ws = [mkArr [2%nat] [1%float; (-0)%float]]).
Proof.
  apply (aggregate_qffl_identity [mkArr [2%nat] [1%float; (-0)%float]]
           [[mkArr [2%nat] [0%float; (-0)%float]]; [mkArr [2%nat] [0%float; 0%float]]]
           [2%float; 2%float] [[2%nat]] 2%float false).
  - discriminate.
  - repeat constructor.
  - repeat constructor.
  - repeat constructor.
  - discriminate.
  - reflexivity.
  - repeat constructor.
Defined.

(** The identity on an example: two zero deltas and the weights 2 and 2
    leave [1.0, -0.0] as it is. *)
Example aggregate_qffl_identity_binary64 :
  aggregate_qffl [mkArr [2%nat] [1%float; (-0)%float]]
                 [[mkArr [2%nat] [0%float; 0%float]]; [mkArr [2%nat] [0%float; 0%float]]]
                 [2%float; 2%float]
  = Ok [mkArr [2%nat] [1%float; (-0)%float]].
Proof. vm_compute. reflexivity. Qed.

(** C6 (as amended): aggregate_qffl does not compare the number of deltas with
    the number of fairness weights, which enter only through their sum.  For
    every non-empty list of deltas structurally matching the parameters and
    every list of weights of another length, it raises nothing and returns
    the layers [(parameters_i - Σ_c (delta_c_i * 1.0 / Σh)) * 1.0], computed
    in the arithmetic of the arrays (where a sum Σh that is zero gives
    infinities and NaN, not an error). *)
Theorem aggregate_qffl_lengths_unchecked {F : Type} `{Numeric F}
    (parameters : NDArrays F) (deltas : list (NDArrays F)) (hs : list F) shapes :
  length deltas ≠ length hs →
  deltas ≠ [] →
  has_structure shapes parameters →
  Forall (has_structure shapes) deltas →
  ∃ ws, aggregate_qffl parameters deltas hs = Ok ws
        ∧ has_structure shapes ws
        ∧ ∀ i l k x, ws !! i = Some l → data l !! k = Some x →
            x = nmul (nsub (entry parameters i k)
                           (sum1 ((fun delta => ndiv (nmul (entry delta i k) (of_int 1))
                                                     (np_sum hs)) <$> deltas)))
                     (of_int 1).
Proof. intros _. apply aggregate_qffl_layers. Qed.

Lemma aggregate_qffl_lengths_unchecked_witness :
  ∃ ws, aggregate_qffl (single 1%float) [single 0%float] [1%float; 1%float] = Ok ws
        ∧ has_structure [[1%nat]] ws
        ∧ ∀ i l k x, ws !! i = Some l → data l !! k = Some x →
            x = nmul (nsub (entry (single 1%float) i k)
                           (sum1 ((fun delta => ndiv (nmul (entry delta i k) (of_int 1))
                                                     (np_sum [1%float; 1%float]))
                                    <$> [single 0%float])))
                     (of_int 1).
Proof.
  apply (aggregate_qffl_lengths_unchecked (single 1%float) [single 0%float]
           [1%float; 1%float] [[1%nat]]).
  - cbn. lia.
  - discriminate.
  - repeat constructor.
  - repeat constructor.
Defined.

(** C6 fails as stated: one delta and two fairness weights give a result. *)
Lemma aggregate_qffl_one_delta_two_weights :
  aggregate_qffl (F := float) (single 1%float) [single 0%float] [1%float; 1%float]
  = Ok (single 1%float)
  ∧ length [single 0%float] = 1%nat ∧ length [1%float; 1%float] = 2%nat.
Proof. repeat split; vm_compute; reflexivity. Qed.

(** ** aggregate_and_spreadout *)

Lemma rmap_fmap {A B C} (f : B → result C) (g : A → B) (l : list A) :
  rmap f (g <$> l) = rmap (fun x => f (g x)) l.
Proof. induction l as [|x l IH]; [done|]. cbn [fmap list_fmap rmap]. by rewrite <- IH. Qed.

Lemma rmap_ext {A B} (f g : A → result B) (l : list A) :
  (∀ x, f x = g x) → rmap f l = rmap g l.
Proof. intros Hfg. induction l as [|x l IH]; [done|]. cbn [rmap]. by rewrite Hfg, IH. Qed.

Lemma rbind_assoc {A B C} (m : result A) (k : A → result B) (k' : B → result C) :
  rbind (rbind m k) k' = rbind m (fun a => rbind (k a) k').
Proof. by destruct m. Qed.

Lemma py_position_Ok (n : nat) (i : Z) k :
  py_position n i = Ok k → - Z.of_nat n ≤ i < Z.of_nat n ∧ (k < n)%nat.
Proof.
  unfold py_position.
  destruct ((0 <=? i) && (i <? Z.of_nat n)) eqn:H1.
  - apply andb_true_iff in H1 as [?%Z.leb_le ?%Z.ltb_lt]. intros [= <-]. lia.
  - destruct ((- Z.of_nat n <=? i) && (i <? 0)) eqn:H2; [|done].
    apply andb_true_iff in H2 as [?%Z.leb_le ?%Z.ltb_lt]. intros [= <-]. lia.
Qed.

Lemma py_position_last (n : nat) : py_position (S n) (-1) = Ok n.
Proof.
  unfold py_position.
  replace (0 <=? -1) with false by done. cbn [andb].
  replace (- Z.of_nat (S n) <=? -1) with true by (symmetry; apply Z.leb_le; lia).
  cbn [andb Z.ltb Z.compare]. f_equal. lia.
Qed.

Lemma py_index_last {A} (body : list A) (last : A) :
  py_index (body ++ [last]) (-1) = Ok last.
Proof.
  unfold py_index. rewrite length_app. cbn [length].
  rewrite Nat.add_1_r, py_position_last. cbn [rbind].
  apply py_get_Some. by rewrite lookup_app_r, Nat.sub_diag.
Qed.

Lemma py_init_snoc {A} (body : list A) (last : A) : py_init (body ++ [last]) = body.
Proof.
  unfold py_init. rewrite length_app. cbn [length].
  rewrite Nat.add_sub. by rewrite take_app_length.
Qed.

Section SpreadoutFacts.
Context {F : Type} `{Numeric F}.
Implicit Types (E : list (list F)) (results : list (NDArrays F * Z * Z)).

Lemma size_of_strip_ones s : size_of (strip_ones s) = size_of s.
Proof.
  induction s as [|[|[|n]] s IH]; cbn [strip_ones]; [done..| |done].
  rewrite IH. cbn [size_of foldr]. fold (size_of s). lia.
Qed.

Lemma row_value_length nf (w : NDArray F) row :
  wf_array w → row_value nf w = Ok row → length row = nf.
Proof.
  unfold row_value, wf_array. intros Hw Hrow.
  pose proof (size_of_strip_ones (shape w)) as Hsize.
  destruct (strip_ones (shape w)) as [|k [|? ?]]; [| |done].
  - injection Hrow as <-. by rewrite length_replicate.
  - destruct (k =? nf)%nat eqn:Hk; [|done]. apply Nat.eqb_eq in Hk. subst k.
    injection Hrow as <-. rewrite Hw, <- Hsize. cbn. lia.
Qed.




Lemma spreadout_average {B} results (K : NDArrays F → result B) :
  (let* feature_weights :=
     rmap (fun '((weights, num_examples, _) : NDArrays F * Z * Z) =>
             rmap (fun layer : NDArray F => np_mul_int layer num_examples)
                  (py_init weights))
          results in
   let* weights_prime :=
     rmap (average_layer
             (py_sum (fmap (fun '((_, num_examples, _) : NDArrays F * Z * Z) => num_examples)
                           results)))
          (zip_star feature_weights) in
   K weights_prime)
  = let* avg := aggregate (feature_results results) in K avg.
Proof.
  unfold aggregate, feature_results. rewrite rbind_assoc, rmap_fmap.
  rewrite <- list_fmap_compose.
  rewrite (rmap_ext _ (fun x : NDArrays F * Z * Z =>
             rmap (fun layer : NDArray F => np_mul_int layer x.1.2) (py_init x.1.1)))
    by (by intros [[? ?] ?]).
  assert ((fun '((_, num_examples, _) : NDArrays F * Z * Z) => num_examples) <$> results
          = (snd ∘ (fun r : NDArrays F * Z * Z => (py_init r.1.1, r.1.2))) <$> results) as ->.
  { apply list_fmap_ext. by intros _ [[? ?] ?] _. }
  done.
Qed.

Lemma aggregate_and_spreadout_unfold grad results num_clients num_features nu lr :
  0 ≤ num_clients → 0 ≤ num_features →
  aggregate_and_spreadout grad results num_clients num_features nu lr
  = (let nc := Z.to_nat num_clients in
     let nf := Z.to_nat num_features in
     let* E1 := place_embeddings nf (replicate nc (replicate nf nzero)) results in
     let* _ := if nltb lr nzero then Err ValueError else Ok tt in
     let emb := matrix_array nc nf (normalize (sgd_step lr E1 (grad nu num_clients E1))) in
     let* avg := aggregate (feature_results results) in
     Ok (avg ++ [emb], emb)).
Proof.
  intros Hc Hf. unfold aggregate_and_spreadout.
  replace (num_clients <? 0) with false by (symmetry; apply Z.ltb_ge; lia).
  replace (num_features <? 0) with false by (symmetry; apply Z.ltb_ge; lia).
  cbn [orb rbind]. cbv zeta.
  destruct (place_embeddings _ _ results) as [E1|]; [|done]. cbn [rbind].
  destruct (nltb lr nzero); [done|]. cbn [rbind].
  apply (spreadout_average results
           (fun weights_prime =>
              Ok (weights_prime
                    ++ [matrix_array (Z.to_nat num_clients) (Z.to_nat num_features)
                          (normalize (sgd_step lr E1 (grad nu num_clients E1)))],
                  matrix_array (Z.to_nat num_clients) (Z.to_nat num_features)
                    (normalize (sgd_step lr E1 (grad nu num_clients E1)))))).
Qed.

End SpreadoutFacts.


(** *** Rows of the returned matrix *)

Lemma rows_of_concat {A} (m : nat) (E : list (list A)) :
  Forall (fun r => length r = m) E →
  (fun i => take m (drop (i * m) (concat E))) <$> seq 0 (length E) = E.
Proof.
  induction 1 as [|r E Hr _ IH]; [done|].
  cbn [length seq fmap list_fmap concat]. f_equal.
  - rewrite Nat.mul_0_l, drop_0. by apply take_app_length'.
  - rewrite <- fmap_S_seq, <- list_fmap_compose. rewrite <- IH at 2.
    apply list_fmap_ext. intros _ i _. cbn [compose]. f_equal.
    replace (S i * m)%nat with (m + i * m)%nat by lia.
    rewrite <- drop_drop. f_equal. by apply drop_app_length'.
Qed.

Lemma array_rows_matrix_array {F} (n m : nat) (E : list (list F)) :
  length E = n → Forall (fun r => length r = m) E →
  array_rows (matrix_array n m E) = E.
Proof. intros <- Hrows. unfold array_rows, matrix_array. cbn. by apply rows_of_concat. Qed.

Lemma sgd_step_shape {F} `{Numeric F} (lr : F) (E G : list (list F)) :
  length <$> G = length <$> E → length <$> sgd_step lr E G = length <$> E.
Proof.
  unfold sgd_step. revert G. induction E as [|r E IH]; intros [|g G] HG; try done.
  cbn in *. injection HG as Hg HG. f_equal; [|by apply IH].
  rewrite length_zip_with. lia.
Qed.



Lemma zero_grad_keeps_shape {F} `{Numeric F} : grad_keeps_shape (zero_grad (F := F)).
Proof.
  intros nu n E. unfold zero_grad. rewrite <- list_fmap_compose.
  apply list_fmap_ext. intros _ r _. cbn. by rewrite length_fmap.
Qed.

Section SpreadoutClosedForm.
Context {F : Type} `{Numeric F}.



End SpreadoutClosedForm.








(** The two clients with the embeddings (3, 4) and (0, 5), in binary64: the
    rows of norm 5 are returned with the norm 1. *)
Example spreadout_two_clients_binary64 :
  snd <$> (match aggregate_and_spreadout (F := float) zero_grad two_embedding_clients
                   2 2 1%float 0.5%float with
           | Ok p => Some p
           | Err _ => None
           end)
  = Some (mkArr [2%nat; 2%nat]
            [0%float; 1%float; 0x1.3333333333333p-1%float; 0x1.999999999999ap-1%float])
  ∧ row_norm [0x1.3333333333333p-1%float; 0x1.999999999999ap-1%float] = 1%float.
Proof. split; vm_compute; reflexivity. Qed.




(** ** The fit configuration *)

Section FitConfig.
Import FaceVerificationServer.
Context {F : Type}.

(** C9: the configuration that fit_config produces does not depend on the
    round number; it holds exactly the command-line values of local_epochs,
    batch_size, lr, weight_decay, criterion_name, scale and margin. *)
Theorem fit_config_round_independent (args : Args F) (r1 r2 : Z) :
  fit_config args r1 = fit_config args r2
  ∧ dom (fit_config args r1)
    = list_to_set ["local_epochs"; "batch_size"; "lr"; "weight_decay";
                   "criterion_name"; "scale"; "margin"]
  ∧ fit_config args r1 !! "local_epochs" = Some (VInt (local_epochs args))
  ∧ fit_config args r1 !! "batch_size" = Some (VInt (batch_size args))
  ∧ fit_config args r1 !! "lr" = Some (VFloat (lr args))
  ∧ fit_config args r1 !! "weight_decay" = Some (VFloat (weight_decay args))
  ∧ fit_config args r1 !! "criterion_name" = Some (VStr (criterion args))
  ∧ fit_config args r1 !! "scale" = Some (VFloat (scale args))
  ∧ fit_config args r1 !! "margin" = Some (VFloat (margin args)).
Proof.
  split; [reflexivity|]. split.
  - unfold fit_config. rewrite dom_list_to_map_L. reflexivity.
  - unfold fit_config. repeat split; reflexivity.
Qed.

End FitConfig.

(** ** The client's fit *)

Section ClientFit.
Import FaceClient.
Context {F : Type} `{Numeric F}.
Variable int_of_float : F → result Z.
Variable int_of_text : string → result Z.
Variable float_of_text : string → result F.
Variable repr : PyValue F → string.
Variable Parameters : Type.
Variable parameters_to_ndarrays : Parameters → result (NDArrays F).
Variable ndarrays_to_parameters : NDArrays F → Parameters.
Variable Loader : Type.
Variable DataLoader : Z → result Loader.
Variable train : NDArrays F → Loader → Z → F → F → Criterion F → result (NDArrays F).

Local Abbreviation fit_ :=
  (fit int_of_float int_of_text float_of_text repr Parameters parameters_to_ndarrays
       ndarrays_to_parameters Loader DataLoader train).

Lemma missing_hyperparameter_raises (config : gmap string (PyValue F)) k :
  missing config k →
  (let* v := dict_get config k in assert_not_None v) = Err (KeyError k)
  ∨ (let* v := dict_get config k in assert_not_None v) = Err AssertionError.
Proof.
  unfold dict_get. intros [-> | ->]; [by left|by right].
Qed.

Lemma present_or_raises (config : gmap string (PyValue F)) k :
  (let* v := dict_get config k in assert_not_None v) = Ok tt
  ∨ (let* v := dict_get config k in assert_not_None v) = Err (KeyError k)
  ∨ (let* v := dict_get config k in assert_not_None v) = Err AssertionError.
Proof.
  unfold dict_get. destruct (config !! k) as [[]|]; cbn; auto.
Qed.

(** C8 (as amended): when the configuration selects the ArcFace loss and
    scale or margin is missing (absent, or None), fit raises and the training
    routine is not called.  When the parameters decode, the five common
    entries convert and the loader is built, what fit raises is the KeyError
    of the first absent key, or the AssertionError of the guard for a key
    bound to None, and it raises it after it has replaced the weights of the
    net and built the loader. *)
Theorem fit_missing_arcface_hyperparameter (ins : FitIns F Parameters)
    (st : Client F * list (Event F)) :
  config ins !! "criterion_name" = Some (VStr "ArcFace") →
  missing (config ins) "scale" ∨ missing (config ins) "margin" →
  (∃ st' e new,
     fit_ ins st = (st', Err e)
     ∧ st'.2 = st.2 ++ new
     ∧ Forall (fun ev => is_train ev = false) new)
  ∧ (∀ weights epochs batch_size lr weight_decay trainloader,
       parameters_to_ndarrays (parameters ins) = Ok weights →
       (let* v := dict_get (config ins) "local_epochs" in
        py_int int_of_float int_of_text v) = Ok epochs →
       (let* v := dict_get (config ins) "batch_size" in
        py_int int_of_float int_of_text v) = Ok batch_size →
       (let* v := dict_get (config ins) "lr" in py_float float_of_text v) = Ok lr →
       (let* v := dict_get (config ins) "weight_decay" in
        py_float float_of_text v) = Ok weight_decay →
       DataLoader batch_size = Ok trainloader →
       fit_ ins st
       = (({| net_weights := weights; trainset_len := trainset_len st.1 |},
           st.2 ++ [SetWeights weights; MakeLoader batch_size]),
          Err (match config ins !! "scale" with
               | None => KeyError "scale"
               | Some VNone => AssertionError
               | Some _ =>
                   match config ins !! "margin" with
                   | None => KeyError "margin"
                   | Some _ => AssertionError
                   end
               end))).
Proof.
  intros Hcrit Hmiss. destruct st as [self log]. split.
  - unfold fit, cbind, lift. cbn [fst snd].
    destruct (parameters_to_ndarrays (parameters ins)) as [weights|e0];
      [|by exists (self, log), e0, []; rewrite app_nil_r].
    destruct (let* v := dict_get (config ins) "local_epochs" in _) as [epochs|e0];
      [|by exists (self, log), e0, []; rewrite app_nil_r].
    destruct (let* v := dict_get (config ins) "batch_size" in _) as [batch_size|e0];
      [|by exists (self, log), e0, []; rewrite app_nil_r].
    destruct (let* v := dict_get (config ins) "lr" in _) as [lr|e0];
      [|by exists (self, log), e0, []; rewrite app_nil_r].
    destruct (let* v := dict_get (config ins) "weight_decay" in _) as [weight_decay|e0];
      [|by exists (self, log), e0, []; rewrite app_nil_r].
    unfold dict_get at 1. rewrite Hcrit. cbn [rbind py_str].
    unfold set_weights, make_loader, cbind, emit, lift. cbn [fst snd].
    rewrite <- app_assoc. cbn [app].
    destruct (DataLoader batch_size) as [trainloader|e0] eqn:Hloader.
    2:{ eexists _, e0, _. split; [reflexivity|]. split; [reflexivity|].
        by repeat constructor. }
    replace (String.eqb "ArcFace" "CrossEntropy") with false by reflexivity.
    replace (String.eqb "ArcFace" "ArcFace") with true by reflexivity.
    destruct (present_or_raises (config ins) "scale") as [Hs|Hs].
    + rewrite Hs.
      assert (missing (config ins) "margin") as Hm.
      { destruct Hmiss as [Hmiss|Hmiss]; [|done].
        apply missing_hyperparameter_raises in Hmiss. rewrite Hs in Hmiss.
        by destruct Hmiss. }
      apply missing_hyperparameter_raises in Hm.
      destruct Hm as [Hm|Hm]; rewrite Hm;
        (eexists _, _, _; split; [reflexivity|]; split; [reflexivity|];
         by repeat constructor).
    + destruct Hs as [Hs|Hs]; rewrite Hs;
        (eexists _, _, _; split; [reflexivity|]; split; [reflexivity|];
         by repeat constructor).
  - intros weights epochs batch_size lr weight_decay trainloader
      Hps Hepochs Hbs Hlr Hwd Hloader.
    unfold fit, cbind, lift. cbn [fst snd]. rewrite Hps, Hepochs, Hbs, Hlr, Hwd.
    unfold dict_get at 1. rewrite Hcrit. cbn [rbind py_str].
    unfold set_weights, make_loader, cbind, emit, lift. cbn [fst snd].
    rewrite <- app_assoc. cbn [app]. rewrite Hloader.
    replace (String.eqb "ArcFace" "CrossEntropy") with false by reflexivity.
    replace (String.eqb "ArcFace" "ArcFace") with true by reflexivity.
    unfold dict_get, missing in *.
    destruct (config ins !! "scale") as [[]|]; cbn [rbind assert_not_None]; try done.
    all: destruct (config ins !! "margin") as [[]|]; cbn [rbind assert_not_None];
      try done.
    all: exfalso; by destruct Hmiss as [[|]|[|]].
Qed.

End ClientFit.

(** ** The engine leaves its arguments as they were *)

Section StoreFacts.
Context {F : Type} `{Numeric F}.
Implicit Types (σ : list (NDArray F)) (n l : nat).

#[local] Abbreviation hoare := (hoare (F := F)).

Lemma hoare_ret {A} n (a : A) (Q : A → Prop) : Q a → hoare n (hret a) Q.
Proof. intros HQ σ Hn. cbn. split; [done|]. split; [done|]. by intros ? [= <-]. Qed.

Lemma hoare_lift {A} n (r : result A) (Q : A → Prop) :
  (∀ a, r = Ok a → Q a) → hoare n (hlift r) Q.
Proof. intros HQ σ Hn. cbn. by repeat split. Qed.

Lemma hoare_weaken {A} n (m : HeapM F A) (Q Q' : A → Prop) :
  hoare n m Q → (∀ a, Q a → Q' a) → hoare n m Q'.
Proof.
  intros Hm HQ σ Hn. destruct (Hm σ Hn) as (Ht & Hl & Hr).
  split; [done|]. split; [done|]. intros a Ha. by apply HQ, Hr.
Qed.

Lemma hoare_bind {A B} n (m : HeapM F A) (k : A → HeapM F B) (Q : A → Prop) (Q' : B → Prop) :
  hoare n m Q → (∀ a, Q a → hoare n (k a) Q') → hoare n (hbind m k) Q'.
Proof.
  intros Hm Hk σ Hn. destruct (Hm σ Hn) as (Ht & Hl & Hr). unfold hbind.
  destruct (m σ) as [σ' [a|e]]; cbn [fst snd] in *.
  - destruct (Hk a (Hr a eq_refl) σ') as (Ht' & Hl' & Hr'); [lia|].
    split; [congruence|]. split; [lia|done].
  - split; [done|]. split; [done|]. by intros.
Qed.

Lemma hoare_alloc n (a : NDArray F) : hoare n (alloc a) (fun l => n ≤ l)%nat.
Proof.
  intros σ Hn. cbn. split; [by apply take_app_le|].
  split; [rewrite length_app; lia|]. by intros ? [= <-].
Qed.

Lemma hoare_load n l : hoare n (load l) (fun _ => True).
Proof. intros σ Hn. cbn. by repeat split. Qed.

Lemma hoare_store n l (a : NDArray F) : (n ≤ l)%nat → hoare n (store l a) (fun _ => True).
Proof.
  intros Hl σ Hn. cbn. split; [by apply take_insert_ge|].
  split; [by rewrite length_insert|done].
Qed.

Lemma hoare_hmap {A B} n (f : A → HeapM F B) (Q : B → Prop) (xs : list A) :
  (∀ x, x ∈ xs → hoare n (f x) Q) → hoare n (hmap f xs) (Forall Q).
Proof.
  induction xs as [|x xs IH]; intros Hf; cbn [hmap].
  - by apply hoare_ret.
  - eapply hoare_bind; [apply Hf; by left|]. intros y Hy.
    eapply hoare_bind; [apply IH; intros; apply Hf; by right|]. intros ys Hys.
    apply hoare_ret. by constructor.
Qed.

Lemma hoare_hfold {A B} n (f : B → A → HeapM F B) (I : B → Prop) (xs : list A) acc :
  I acc → (∀ acc x, I acc → hoare n (f acc x) I) → hoare n (hfold f acc xs) I.
Proof.
  intros Hacc Hf. revert acc Hacc. induction xs as [|x xs IH]; intros acc Hacc; cbn [hfold].
  - by apply hoare_ret.
  - eapply hoare_bind; [by apply Hf|]. intros acc' Hacc'. by apply IH.
Qed.

(** A triple whose postcondition asks nothing holds of every computation built
    from allocations and reads. *)
Lemma hoare_hreduce {A} n (f : A → A → HeapM F A) (xs : list A) :
  (∀ a b, hoare n (f a b) (fun _ => True)) → hoare n (hreduce f xs) (fun _ => True).
Proof.
  intros Hf. destruct xs as [|x xs]; cbn [hreduce]; [by apply hoare_lift|].
  by apply hoare_hfold.
Qed.

Lemma hoare_mul_s n l (x : F) : hoare n (h_mul_s l x) (fun l' => n ≤ l')%nat.
Proof. eapply hoare_bind; [apply hoare_load|]. intros a _. apply hoare_alloc. Qed.

Lemma hoare_div_s n l (x : F) : hoare n (h_div_s l x) (fun l' => n ≤ l')%nat.
Proof. eapply hoare_bind; [apply hoare_load|]. intros a _. apply hoare_alloc. Qed.

Lemma hoare_mul_int n l (k : Z) : hoare n (h_mul_int l k) (fun l' => n ≤ l')%nat.
Proof.
  eapply hoare_bind; [by apply (hoare_lift _ _ (fun _ => True))|]. intros x _.
  apply hoare_mul_s.
Qed.

Lemma hoare_div_int n l (k : Z) : hoare n (h_div_int l k) (fun l' => n ≤ l')%nat.
Proof.
  eapply hoare_bind; [by apply (hoare_lift _ _ (fun _ => True))|]. intros x _.
  apply hoare_div_s.
Qed.

Lemma hoare_add n l1 l2 : hoare n (h_add l1 l2) (fun l' => n ≤ l')%nat.
Proof.
  eapply hoare_bind; [apply hoare_load|]. intros a _.
  eapply hoare_bind; [apply hoare_load|]. intros b _.
  eapply hoare_bind; [by apply (hoare_lift _ _ (fun _ => True))|]. intros c _.
  apply hoare_alloc.
Qed.

Lemma hoare_sub n l1 l2 : hoare n (h_sub l1 l2) (fun l' => n ≤ l')%nat.
Proof.
  eapply hoare_bind; [apply hoare_load|]. intros a _.
  eapply hoare_bind; [apply hoare_load|]. intros b _.
  eapply hoare_bind; [by apply (hoare_lift _ _ (fun _ => True))|]. intros c _.
  apply hoare_alloc.
Qed.

(** The in-place sum overwrites its first operand: it keeps the first [n]
    arrays when that operand is not one of them. *)
Lemma hoare_iadd n l1 l2 : (n ≤ l1)%nat → hoare n (h_iadd l1 l2) (fun l' => n ≤ l')%nat.
Proof.
  intros Hl1.
  eapply hoare_bind; [apply hoare_load|]. intros a _.
  eapply hoare_bind; [apply hoare_load|]. intros b _.
  eapply hoare_bind; [by apply (hoare_lift _ _ (fun _ => True))|]. intros c _.
  eapply hoare_bind; [by apply hoare_store|]. intros _ _.
  by apply hoare_ret.
Qed.

Lemma hoare_average_layer n T (layer_updates : list nat) :
  hoare n (Store.average_layer T layer_updates) (fun l' => n ≤ l')%nat.
Proof.
  eapply hoare_bind.
  - apply hoare_hreduce. intros a b. eapply hoare_weaken; [apply hoare_add|done].
  - intros s _. apply hoare_div_int.
Qed.

Lemma hoare_aggregate n (results : list (list nat * Z)) :
  hoare n (Store.aggregate results) (Forall (fun l' => n ≤ l')%nat).
Proof.
  unfold Store.aggregate. eapply hoare_bind.
  - apply (hoare_hmap _ _ (fun _ => True)). intros [weights num_examples] _.
    eapply hoare_weaken; [|done].
    apply (hoare_hmap _ _ (fun l' => n ≤ l')%nat). intros layer _. apply hoare_mul_int.
  - intros weighted_weights _. apply hoare_hmap. intros lu _. apply hoare_average_layer.
Qed.



Lemma hoare_scale_layer n (D : F) l :
  hoare n (Store.scale_layer D l) (fun l' => n ≤ l')%nat.
Proof. eapply hoare_bind; [apply hoare_mul_s|]. intros t _. apply hoare_div_s. Qed.

(** The accumulator [tmp] of an update is one of the scaled arrays, which
    the call has allocated: [tmp += ...] reaches no array that existed. *)
Lemma hoare_qffl_update n (scaled_deltas : list (list nat)) num_deltas i :
  Forall (Forall (fun l' => n ≤ l')%nat) scaled_deltas →
  hoare n (Store.qffl_update scaled_deltas num_deltas i) (fun l' => n ≤ l')%nat.
Proof.
  intros Hfresh. unfold Store.qffl_update.
  eapply (hoare_bind _ _ _ (Forall (fun l' => n ≤ l')%nat)).
  { apply hoare_lift. intros sd0 Hsd0. unfold py_get in Hsd0.
    destruct (scaled_deltas !! 0%nat) as [sd|] eqn:Hsd; [|done]. injection Hsd0 as <-.
    by eapply Forall_lookup_1. }
  intros sd0 Hsd0. eapply (hoare_bind _ _ _ (fun l' => n ≤ l')%nat).
  { apply hoare_lift. intros tmp Htmp. unfold py_get in Htmp.
    destruct (sd0 !! i) as [l0|] eqn:Hl0; [|done]. injection Htmp as <-.
    by eapply Forall_lookup_1. }
  intros tmp Htmp. apply hoare_hfold; [done|]. intros acc j Hacc.
  eapply hoare_bind; [by apply (hoare_lift _ _ (fun _ => True))|]. intros sdj _.
  eapply hoare_bind; [by apply (hoare_lift _ _ (fun _ => True))|]. intros x _.
  by apply hoare_iadd.
Qed.

Lemma hoare_aggregate_qffl n (parameters : list nat) (deltas : list (list nat))
    (hs_fll : list F) :
  hoare n (Store.aggregate_qffl parameters deltas hs_fll) (Forall (fun l' => n ≤ l')%nat).
Proof.
  unfold Store.aggregate_qffl.
  eapply (hoare_bind _ _ _ (Forall (Forall (fun l' => n ≤ l')%nat))).
  { apply hoare_hmap. intros client_delta _. apply hoare_hmap. intros layer _.
    apply hoare_scale_layer. }
  intros scaled_deltas Hscaled.
  eapply hoare_bind; [by apply (hoare_lift _ _ (fun _ => True))|]. intros delta0 _.
  eapply hoare_bind.
  { apply (hoare_hmap _ _ (fun _ => True)). intros i _.
    eapply hoare_weaken; [by apply hoare_qffl_update|done]. }
  intros updates _. apply hoare_hmap. intros [u v] _.
  eapply hoare_bind; [apply hoare_sub|]. intros d _. apply hoare_mul_s.
Qed.

Lemma hoare_store_row n nc nf embeddings cid w :
  (n ≤ embeddings)%nat →
  hoare n (Store.store_row nc nf embeddings cid w) (fun _ => True).
Proof.
  intros Hemb.
  eapply hoare_bind; [apply hoare_load|]. intros W _.
  eapply hoare_bind; [apply hoare_load|]. intros E _.
  eapply hoare_bind; [by apply (hoare_lift _ _ (fun _ => True))|]. intros rows _.
  by apply hoare_store.
Qed.

Lemma hoare_aggregate_and_spreadout n grad (results : list (list nat * Z * Z))
    num_clients num_features (nu lr : F) :
  hoare n (Store.aggregate_and_spreadout grad results num_clients num_features nu lr)
        (fun out => Forall (fun l' => n ≤ l')%nat (out.1 ++ [out.2])).
Proof.
  unfold Store.aggregate_and_spreadout.
  eapply hoare_bind; [by apply (hoare_lift _ _ (fun _ => True))|]. intros _ _.
  eapply hoare_bind; [apply hoare_alloc|]. intros embeddings Hemb.
  eapply hoare_bind.
  { apply (hoare_hfold _ _ (fun _ => True)); [done|]. intros _ [[weights ?] cid] _.
    eapply hoare_bind; [by apply (hoare_lift _ _ (fun _ => True))|]. intros w _.
    by apply hoare_store_row. }
  intros _ _.
  eapply hoare_bind; [apply hoare_load|]. intros E _.
  eapply hoare_bind; [apply hoare_alloc|]. intros parameter Hpar.
  eapply hoare_bind; [by apply (hoare_lift _ _ (fun _ => True))|]. intros _ _.
  eapply hoare_bind; [apply hoare_load|]. intros P _.
  eapply hoare_bind; [by apply hoare_store|]. intros _ _.
  eapply hoare_bind; [apply hoare_load|]. intros P' _.
  eapply hoare_bind; [apply hoare_alloc|]. intros emb Hnew.
  eapply hoare_bind.
  { apply (hoare_hmap _ _ (fun _ => True)). intros [[weights num_examples] ?] _.
    eapply hoare_weaken; [|done].
    apply (hoare_hmap _ _ (fun l' => n ≤ l')%nat). intros layer _. apply hoare_mul_int. }
  intros feature_weights _.
  eapply hoare_bind.
  { apply hoare_hmap. intros lu _. apply hoare_average_layer. }
  intros weights_prime Hwp. apply hoare_ret. cbn [fst snd].
  cbv beta in Hnew. rewrite !Forall_app, !Forall_singleton. done.
Qed.

Lemma hoare_leaves_arguments {A} (locs : A → list nat) (m : HeapM F A) σ :
  hoare (length σ) m (fun out => Forall (fun l' => length σ ≤ l')%nat (locs out)) →
  leaves_arguments locs m σ.
Proof.
  intros Hm. destruct (Hm σ) as (Ht & _ & Hr); [done|].
  split; [|done]. rewrite Ht. by apply take_ge.
Qed.

(** C7: the operations of the aggregation engine leave their arguments as
    they were.  From any store and for any arguments, aggregate,
    aggregate_qffl and aggregate_and_spreadout leave every array that existed
    before the call unchanged, whether they return or raise, and every array
    of what they return is at a new address; weighted_loss_avg, whose
    arguments are numbers, does not change the store at all. *)
Theorem aggregation_engine_leaves_arguments (σ : list (NDArray F)) :
  (∀ results, leaves_arguments (fun out => out) (Store.aggregate results) σ)
  ∧ (∀ parameters deltas hs_fll,
       leaves_arguments (fun out => out)
         (Store.aggregate_qffl parameters deltas hs_fll) σ)
  ∧ (∀ grad results num_clients num_features nu lr,
       leaves_arguments (fun out => out.1 ++ [out.2])
         (Store.aggregate_and_spreadout grad results num_clients num_features nu lr) σ)
  ∧ (∀ results, (Store.weighted_loss_avg results σ).1 = σ).
Proof.
  split; [|split; [|split]].
  - intros results. apply hoare_leaves_arguments, hoare_aggregate.
  - intros parameters deltas hs_fll.
    apply hoare_leaves_arguments, hoare_aggregate_qffl.
  - intros grad results num_clients num_features nu lr.
    by apply hoare_leaves_arguments, hoare_aggregate_and_spreadout.
  - done.
Qed.

End StoreFacts.

Lemma fit_missing_arcface_hyperparameter_witness :
  FitExample.run_fit FitExample.client
  = (({| FaceClient.net_weights := single 1%float; FaceClient.trainset_len := 100 |},
      [FaceClient.SetWeights (single 1%float); FaceClient.MakeLoader 10]),
     Err (KeyError "scale")).
Proof.
  apply (proj2 (fit_missing_arcface_hyperparameter
                  (fun _ => Err TypeError) (fun _ => Err ValueError)
                  (fun _ => Err ValueError) (fun _ => ""%string) (NDArrays float) Ok
                  (fun w => w) unit (fun _ => Ok tt) (fun w _ _ _ _ _ => Ok w)
                  FitExample.ins FitExample.client eq_refl (or_introl (or_introl eq_refl)))
               (single 1%float) 5 10 0.5%float 0%float tt); reflexivity.
Defined.

(** C8 fails as stated: with ArcFace selected and no entry [scale], what fit
    raises is the KeyError of the dict, and when it raises it the client has
    already replaced the weights of its net (they were [0.0]) by those
    received and built the loader. *)
Lemma fit_without_scale_raises_KeyError :
  FitExample.run_fit FitExample.client
  = (({| FaceClient.net_weights := single 1%float; FaceClient.trainset_len := 100 |},
      [FaceClient.SetWeights (single 1%float); FaceClient.MakeLoader 10]),
     Err (KeyError "scale"))
  ∧ FaceClient.net_weights FitExample.client.1 = single 0%float.
Proof. split; vm_compute; reflexivity. Qed.

(** *** The store-level and the value-level embeddings on the examples *)

Example store_aggregate_two_clients :
  let σ := [mkArr [1%nat] [2%float]; mkArr [1%nat] [4%float]] in
  (fun out => (take 2 out.1, result_map (contents out.1) out.2))
    (Store.aggregate [([0%nat], 1); ([1%nat], 3)] σ)
  = (σ, result_map (fmap Some) (aggregate (F := float) two_clients)).
Proof. vm_compute. reflexivity. Qed.

Example store_aggregate_qffl_two_deltas :
  let σ := [mkArr [1%nat] [2%float]; mkArr [1%nat] [4%float]; mkArr [1%nat] [1%float]] in
  (fun out => (take 3 out.1, result_map (contents out.1) out.2))
    (Store.aggregate_qffl [0%nat] [[1%nat]; [2%nat]] [1%float; 1%float] σ)
  = (σ, result_map (fmap Some)
          (aggregate_qffl (single 2%float) [single 4%float; single 1%float]
             [1%float; 1%float])).
Proof. vm_compute. reflexivity. Qed.

(** ** The store-level engine computes what the value-level engine computes *)

Section Simulation.
Context {F : Type} `{Numeric F}.
Implicit Types (σ δ h : list (NDArray F)) (l : nat).

#[local] Abbreviation pt := (points_to (F := F)).

Lemma points_to_stable : stable pt.
Proof. intros σ δ l a Hl. by apply lookup_app_l_Some. Qed.

Lemma Forall2_stable {A A'} (R : list (NDArray F) → A → A' → Prop) :
  stable R → stable (fun σ => Forall2 (R σ)).
Proof. intros HR σ δ xs xs' Hxs. eapply Forall2_impl; [exact Hxs|]. intros; by apply HR. Qed.

Lemma simulates_ret {A A'} σ (a : A) (a' : A') (R : list (NDArray F) → A → A' → Prop) :
  R σ a a' → simulates σ (hret a) (Ok a') R.
Proof. intros HR. exists []. cbn. by rewrite app_nil_r. Qed.

Lemma simulates_lift {A} σ (r : result A) :
  simulates σ (hlift r) r (fun _ a a' => a = a').
Proof. exists []. cbn. rewrite app_nil_r. split; [done|]. by destruct r. Qed.

Lemma simulates_bind {A A' B B'} σ (m : HeapM F A) (r : result A')
    (k : A → HeapM F B) (k' : A' → result B')
    (R : list (NDArray F) → A → A' → Prop) (R' : list (NDArray F) → B → B' → Prop) :
  simulates σ m r R →
  (∀ δ a a', R (σ ++ δ) a a' → simulates (σ ++ δ) (k a) (k' a') R') →
  simulates σ (hbind m k) (rbind r k') R'.
Proof.
  intros (δ & Hσ & Hr) Hk. unfold simulates, hbind.
  destruct (m σ) as [σ1 [a|e]]; cbn [fst snd] in *; subst σ1.
  - destruct r as [a'|]; [|done]. cbn [rbind].
    destruct (Hk δ a a' Hr) as (δ' & Hσ' & Hr').
    exists (δ ++ δ'). rewrite app_assoc. by split.
  - destruct r as [|e']; [done|]. subst e'. by exists δ.
Qed.

Lemma simulates_weaken {A A'} σ (m : HeapM F A) (r : result A')
    (R R' : list (NDArray F) → A → A' → Prop) :
  simulates σ m r R → (∀ σ' a a', R σ' a a' → R' σ' a a') → simulates σ m r R'.
Proof.
  intros (δ & Hσ & Hr) HR. exists δ. split; [done|].
  destruct ((m σ).2), r; try done. by apply HR.
Qed.

Lemma simulates_load σ l a :
  points_to σ l a → simulates σ (load l) (Ok a) (fun _ x y => x = y).
Proof. intros Hl. exists []. unfold load. cbn. rewrite app_nil_r, Hl. done. Qed.

Lemma simulates_alloc σ a : simulates σ (alloc a) (Ok a) pt.
Proof.
  exists [a]. cbn. split; [done|]. unfold pt.
  by rewrite lookup_app_r, Nat.sub_diag.
Qed.

Lemma simulates_hmap {A A' B B'} (f : A → HeapM F B) (g : A' → result B')
    (RA : list (NDArray F) → A → A' → Prop) (RB : list (NDArray F) → B → B' → Prop)
    σ (xs : list A) (xs' : list A') :
  stable RA → stable RB →
  (∀ δ x x', RA (σ ++ δ) x x' → simulates (σ ++ δ) (f x) (g x') RB) →
  Forall2 (RA σ) xs xs' →
  simulates σ (hmap f xs) (rmap g xs') (fun σ' => Forall2 (RB σ')).
Proof.
  intros HRA HRB. revert σ xs'. induction xs as [|x xs IH]; intros σ xs' Hf Hxs.
  - apply Forall2_nil_inv_l in Hxs as ->. by apply simulates_ret.
  - apply Forall2_cons_inv_l in Hxs as (x' & xs'' & Hx & Hxs & ->). cbn [hmap rmap].
    eapply simulates_bind.
    { rewrite <- (app_nil_r σ). apply Hf. by rewrite app_nil_r. }
    intros δ y y' Hy. eapply simulates_bind.
    { apply IH.
      - intros δ' z z' Hz. rewrite <- app_assoc. apply Hf. by rewrite app_assoc.
      - eapply Forall2_impl; [exact Hxs|]. intros; by apply HRA. }
    intros δ' ys ys' Hys. apply simulates_ret. constructor; [by apply HRB|done].
Qed.

Lemma simulates_hfold {A A' B B'} (f : B → A → HeapM F B) (g : B' → A' → result B')
    (RA : list (NDArray F) → A → A' → Prop) (RB : list (NDArray F) → B → B' → Prop)
    σ (xs : list A) (xs' : list A') acc acc' :
  stable RA →
  (∀ δ b b' x x', RB (σ ++ δ) b b' → RA (σ ++ δ) x x' →
                  simulates (σ ++ δ) (f b x) (g b' x') RB) →
  RB σ acc acc' →
  Forall2 (RA σ) xs xs' →
  simulates σ (hfold f acc xs) (rfold g acc' xs') RB.
Proof.
  intros HRA. revert σ xs' acc acc'.
  induction xs as [|x xs IH]; intros σ xs' acc acc' Hf Hacc Hxs.
  - apply Forall2_nil_inv_l in Hxs as ->. by apply simulates_ret.
  - apply Forall2_cons_inv_l in Hxs as (x' & xs'' & Hx & Hxs & ->). cbn [hfold rfold].
    eapply simulates_bind.
    { rewrite <- (app_nil_r σ). apply Hf; by rewrite app_nil_r. }
    intros δ b b' Hb. apply IH.
    + intros δ' c c' z z' Hc Hz. rewrite <- app_assoc. apply Hf; by rewrite app_assoc.
    + done.
    + eapply Forall2_impl; [exact Hxs|]. intros; by apply HRA.
Qed.


Lemma rbind_ret {A} (r : result A) : rbind r Ok = r.
Proof. by destruct r. Qed.

Lemma zip_star_Forall2 {A B} (R : A → B → Prop) (ls : list (list A)) (ls' : list (list B)) :
  Forall2 (Forall2 R) ls ls' → Forall2 (Forall2 R) (zip_star ls) (zip_star ls').
Proof.
  induction 1 as [|l l' ls ls' Hl Hls IH]; [constructor|].
  destruct Hls as [|l2 l2' ls ls' Hl2 Hls].
  - cbn. induction Hl; constructor; [by repeat constructor|done].
  - change (Forall2 (Forall2 R) (zip_with cons l (zip_star (l2 :: ls)))
                                (zip_with cons l' (zip_star (l2' :: ls')))).
    revert IH. generalize (zip_star (l2 :: ls)) (zip_star (l2' :: ls')).
    intros zs zs' Hzs. revert l l' Hl.
    induction Hzs as [|z z' zs zs' Hz Hzs IHz]; intros l l' Hl.
    + destruct Hl; constructor.
    + destruct Hl as [|x x' l l' Hx Hl]; [constructor|].
      cbn. constructor; [by constructor|by apply IHz].
Qed.

Lemma simulates_mul_s σ l a (x : F) :
  points_to σ l a → simulates σ (h_mul_s l x) (Ok (np_mul_s a x)) pt.
Proof.
  intros Hl. change (Ok (np_mul_s a x)) with (rbind (Ok a) (fun a => Ok (np_mul_s a x))).
  eapply simulates_bind; [by apply simulates_load|]. intros δ ? ? <-.
  apply simulates_alloc.
Qed.

Lemma simulates_div_s σ l a (x : F) :
  points_to σ l a → simulates σ (h_div_s l x) (Ok (np_div_s a x)) pt.
Proof.
  intros Hl. change (Ok (np_div_s a x)) with (rbind (Ok a) (fun a => Ok (np_div_s a x))).
  eapply simulates_bind; [by apply simulates_load|]. intros δ ? ? <-.
  apply simulates_alloc.
Qed.

Lemma simulates_mul_int σ l a (n : Z) :
  points_to σ l a → simulates σ (h_mul_int l n) (np_mul_int a n) pt.
Proof.
  intros Hl. unfold h_mul_int, np_mul_int.
  eapply simulates_bind; [apply simulates_lift|]. intros δ x ? <-.
  by apply simulates_mul_s, points_to_stable.
Qed.

Lemma simulates_div_int σ l a (n : Z) :
  points_to σ l a → simulates σ (h_div_int l n) (np_div_int a n) pt.
Proof.
  intros Hl. unfold h_div_int, np_div_int.
  eapply simulates_bind; [apply simulates_lift|]. intros δ x ? <-.
  by apply simulates_div_s, points_to_stable.
Qed.

(** A binary operation that allocates its result. *)
Lemma simulates_binop σ (op : NDArray F → NDArray F → result (NDArray F)) l1 l2 a b :
  points_to σ l1 a → points_to σ l2 b →
  simulates σ
    (hbind (load l1) (fun a => hbind (load l2) (fun b =>
       hbind (hlift (op a b)) (fun c => alloc c))))
    (op a b) pt.
Proof.
  intros Hl1 Hl2.
  change (op a b) with (rbind (Ok a) (fun a => rbind (Ok b) (fun b => op a b))).
  eapply simulates_bind; [by apply simulates_load|]. intros δ a0 ? <-.
  eapply simulates_bind; [by apply simulates_load, points_to_stable|]. intros δ' b0 ? <-.
  cbv beta. rewrite <- (rbind_ret (op a0 b0)) at 2.
  eapply simulates_bind; [apply simulates_lift|]. intros δ'' c ? <-.
  apply simulates_alloc.
Qed.

Lemma simulates_add σ l1 l2 a b :
  points_to σ l1 a → points_to σ l2 b → simulates σ (h_add l1 l2) (np_add a b) pt.
Proof. apply simulates_binop. Qed.

Lemma simulates_sub σ l1 l2 a b :
  points_to σ l1 a → points_to σ l2 b → simulates σ (h_sub l1 l2) (np_sub a b) pt.
Proof. apply simulates_binop. Qed.

Lemma simulates_hreduce_add σ (ls : list nat) (vs : NDArrays F) :
  Forall2 (points_to σ) ls vs →
  simulates σ (hreduce h_add ls) (reduce np_add vs) pt.
Proof.
  intros Hls. destruct Hls as [|l a ls vs Hl Hls]; cbn [hreduce reduce].
  - exists []. cbn. by rewrite app_nil_r.
  - apply (simulates_hfold _ _ pt pt); [apply points_to_stable| |done..].
    intros δ b b' x x' Hb Hx. by apply simulates_add.
Qed.

Lemma simulates_average_layer σ T (ls : list nat) (vs : NDArrays F) :
  Forall2 (points_to σ) ls vs →
  simulates σ (Store.average_layer T ls) (average_layer T vs) pt.
Proof.
  intros Hls. unfold Store.average_layer, average_layer.
  eapply simulates_bind; [by apply simulates_hreduce_add|]. intros δ s a Hs.
  by apply simulates_div_int.
Qed.

Lemma same_results_counts σ rs rs' : same_results σ rs rs' → snd <$> rs = snd <$> rs'.
Proof. induction 1 as [|r r' rs rs' [_ Hn] _ IH]; [done|]. cbn. by rewrite Hn, IH. Qed.

Lemma simulates_weigh σ (rs : list (list nat * Z)) (rs' : list (NDArrays F * Z)) :
  same_results σ rs rs' →
  simulates σ
    (hmap (fun '((weights, num_examples) : list nat * Z) =>
             hmap (fun layer => h_mul_int layer num_examples) weights) rs)
    (rmap (fun '((weights, num_examples) : NDArrays F * Z) =>
             rmap (fun layer : NDArray F => np_mul_int layer num_examples) weights) rs')
    (fun σ' => Forall2 (Forall2 (points_to σ'))).
Proof.
  intros Hrs.
  apply (simulates_hmap _ _
           (fun σ' r r' => Forall2 (points_to σ') r.1 r'.1 ∧ r.2 = r'.2)
           (fun σ' => Forall2 (points_to σ'))); [| |clear Hrs|exact Hrs].
  - intros σ' δ r r' [Hw Hn]. split; [|done].
    by apply (Forall2_stable pt points_to_stable).
  - apply Forall2_stable, points_to_stable.
  - intros δ [ws n] [ws' n'] [Hw Hn]. cbn [fst snd] in *. subst n'.
    apply (simulates_hmap _ _ pt pt);
      [apply points_to_stable..| |exact Hw].
    intros δ' l a Hl. by apply simulates_mul_int.
Qed.

(** The store-level aggregate computes what the value-level aggregate
    computes: the same error, or addresses that hold its result. *)
Lemma simulates_aggregate σ (rs : list (list nat * Z)) (rs' : list (NDArrays F * Z)) :
  same_results σ rs rs' →
  simulates σ (Store.aggregate rs) (aggregate rs') (fun σ' => Forall2 (points_to σ')).
Proof.
  intros Hrs. unfold Store.aggregate, aggregate.
  rewrite (same_results_counts _ _ _ Hrs).
  eapply simulates_bind; [by apply simulates_weigh|]. intros δ ww ww' Hww.
  apply (simulates_hmap _ _ (fun σ' => Forall2 (points_to σ')) pt).
  - apply Forall2_stable, points_to_stable.
  - apply points_to_stable.
  - intros δ' ls vs Hls. by apply simulates_average_layer.
  - by apply zip_star_Forall2.
Qed.

(** X1: aggregate allocates whatever it computes: run on a store, it only adds
    arrays to it, raises what the value-level aggregate raises, and returns
    the addresses of arrays that hold its result, also when contributions
    share arrays. *)
Theorem store_aggregate_simulates σ (rs : list (list nat * Z)) (rs' : list (NDArrays F * Z)) :
  same_results σ rs rs' →
  simulates σ (Store.aggregate rs) (aggregate rs') (fun σ' => Forall2 (points_to σ')).
Proof. apply simulates_aggregate. Qed.



(** *** aggregate_and_spreadout *)

Lemma hbind_run {A B} (m : HeapM F A) (k : A → HeapM F B) σ σ' a :
  m σ = (σ', Ok a) → hbind m k σ = k a σ'.
Proof. unfold hbind. by intros ->. Qed.

Lemma hbind_raise {A B} (m : HeapM F A) (k : A → HeapM F B) σ σ' e :
  m σ = (σ', Err e) → hbind m k σ = (σ', Err e).
Proof. unfold hbind. by intros ->. Qed.

Lemma hmap_fmap {A B C} (f : B → HeapM F C) (g : A → B) (xs : list A) :
  hmap f (g <$> xs) = hmap (fun x => f (g x)) xs.
Proof. induction xs as [|x xs IH]; [done|]. cbn [fmap list_fmap hmap]. by rewrite <- IH. Qed.

Lemma hmap_ext {A B} (f g : A → HeapM F B) (xs : list A) :
  (∀ x, f x = g x) → hmap f xs = hmap g xs.
Proof. intros Hfg. induction xs as [|x xs IH]; [done|]. cbn [hmap]. by rewrite Hfg, IH. Qed.

Lemma hfold_ext {A B} (f g : B → A → HeapM F B) (xs : list A) acc σ :
  (∀ b x, f b x = g b x) → hfold f acc xs σ = hfold g acc xs σ.
Proof.
  intros Hfg. revert acc σ. induction xs as [|x xs IH]; intros acc σ; [done|].
  cbn [hfold]. unfold hbind. rewrite Hfg. destruct (g acc x σ) as [σ' [b|e]]; [apply IH|done].
Qed.

Lemma py_index_Forall2 {A B} (R : A → B → Prop) (ws : list A) (ws' : list B) i :
  Forall2 R ws ws' →
  match py_index ws i, py_index ws' i with
  | Ok x, Ok x' => R x x'
  | Err e, Err e' => e = e'
  | _, _ => False
  end.
Proof.
  intros Hws. unfold py_index. rewrite <- (Forall2_length _ _ _ Hws).
  destruct (py_position (length ws) i) as [k|e]; cbn [rbind]; [|done].
  unfold py_get. destruct (ws !! k) as [x|] eqn:Hk.
  - destruct (Forall2_lookup_l _ _ _ _ _ Hws Hk) as (x' & -> & HR). done.
  - apply lookup_ge_None in Hk. rewrite lookup_ge_None_2; [done|].
    by rewrite <- (Forall2_length _ _ _ Hws).
Qed.

Lemma concat_replicate_rows {A} (n m : nat) (x : A) :
  concat (replicate n (replicate m x)) = replicate (n * m) x.
Proof. induction n as [|n IH]; [done|]. cbn. by rewrite IH, replicate_add. Qed.

Lemma np_zeros_matrix (nc nf : nat) :
  np_zeros [nc; nf] = matrix_array nc nf (replicate nc (replicate nf (nzero (F := F)))).
Proof.
  unfold np_zeros, matrix_array. f_equal. rewrite concat_replicate_rows.
  f_equal. cbn. lia.
Qed.

Lemma well_shaped_lengths nc nf (E : list (list F)) :
  well_shaped nc nf E ↔ length <$> E = replicate nc nf.
Proof.
  unfold well_shaped. split.
  - intros [<- Hrows]. induction Hrows as [|r E Hr _ IH]; [done|]. cbn. by rewrite Hr, IH.
  - intros HE. split.
    + apply (f_equal length) in HE. by rewrite length_fmap, length_replicate in HE.
    + apply (proj1 (Forall_fmap length (fun k => k = nf) E)). rewrite HE.
      by apply Forall_replicate.
Qed.

Lemma well_shaped_zeros nc nf : well_shaped nc nf (replicate nc (replicate nf (nzero (F := F)))).
Proof.
  split; [by rewrite length_replicate|]. apply Forall_replicate. by rewrite length_replicate.
Qed.

Lemma set_row_well_shaped nc nf (E E' : list (list F)) cid W :
  well_shaped nc nf E → wf_array W → set_row nf E cid W = Ok E' → well_shaped nc nf E'.
Proof.
  intros [Hlen Hrows] HW. unfold set_row.
  destruct (py_position (length E) cid) as [i|]; [|done]. cbn [rbind].
  destruct (row_value nf W) as [r|] eqn:Hr; [|done]. cbn [rbind]. intros [= <-].
  split; [by rewrite length_insert|]. apply Forall_insert; [done|].
  by eapply row_value_length.
Qed.

Lemma store_row_run σ nc nf (E : list (list F)) cid w W :
  σ !! w = Some W → well_shaped nc nf E →
  Store.store_row nc nf (length σ) cid w (σ ++ [matrix_array nc nf E])
  = match set_row nf E cid W with
    | Ok E' => (σ ++ [matrix_array nc nf E'], Ok tt)
    | Err e => (σ ++ [matrix_array nc nf E], Err e)
    end.
Proof.
  intros Hw [Hlen Hrows]. unfold Store.store_row.
  rewrite (hbind_run _ _ _ (σ ++ [matrix_array nc nf E]) W).
  2:{ unfold load. by rewrite (lookup_app_l_Some _ _ _ _ Hw). }
  rewrite (hbind_run _ _ _ (σ ++ [matrix_array nc nf E]) (matrix_array nc nf E)).
  2:{ unfold load. by rewrite list_lookup_middle. }
  rewrite array_rows_matrix_array by done.
  destruct (set_row nf E cid W) as [E'|e] eqn:HE'.
  - rewrite (hbind_run _ _ _ (σ ++ [matrix_array nc nf E]) E') by done.
    unfold store. f_equal. rewrite insert_app_r_alt by done. by rewrite Nat.sub_diag.
  - by rewrite (hbind_raise _ _ _ (σ ++ [matrix_array nc nf E]) e).
Qed.

Lemma place_run σ nc nf (rs : list (list nat * Z * Z)) (rs' : list (NDArrays F * Z * Z))
    (E : list (list F)) :
  Forall wf_array σ → same_spreadout_results σ rs rs' → well_shaped nc nf E →
  ∃ X r,
    hfold (fun _ (r : list nat * Z * Z) =>
             hbind (hlift (py_index r.1.1 (-1)))
                   (fun w => Store.store_row nc nf (length σ) r.2 w))
          tt rs (σ ++ [matrix_array nc nf E]) = (σ ++ [X], r)
    ∧ match r, place_embeddings nf E rs' with
      | Ok _, Ok E1 => X = matrix_array nc nf E1 ∧ well_shaped nc nf E1
      | Err e, Err e' => e = e'
      | _, _ => False
      end.
Proof.
  intros Hwf Hrs. revert E. induction Hrs as [|r r' rs rs' (Hw & Hn & Hcid) _ IH]; intros E HE.
  - exists (matrix_array nc nf E), (Ok tt). by split.
  - destruct r as [[weights n] cid], r' as [[weights' n'] cid']. cbn [fst snd] in *.
    subst n' cid'. cbn [hfold]. cbn [fst snd]. unfold place_embeddings. cbn [rfold].
    fold (place_embeddings (F := F) nf).
    pose proof (py_index_Forall2 _ _ _ (-1) Hw) as Hlast.
    destruct (py_index weights (-1)) as [w|e], (py_index weights' (-1)) as [W|e'];
      try done; cbn [rbind].
    + assert (hbind (hlift (Ok w)) (fun w => Store.store_row nc nf (length σ) cid w)
                (σ ++ [matrix_array nc nf E])
              = match set_row nf E cid W with
                | Ok E' => (σ ++ [matrix_array nc nf E'], Ok tt)
                | Err e => (σ ++ [matrix_array nc nf E], Err e)
                end) as Hstep.
      { rewrite (hbind_run _ _ _ (σ ++ [matrix_array nc nf E]) w) by done.
        by apply store_row_run. }
      destruct (set_row nf E cid W) as [E'|e] eqn:HE'; cbn [rbind].
      * rewrite (hbind_run _ _ _ _ _ Hstep). apply IH.
        eapply set_row_well_shaped; [exact HE| |exact HE']. by eapply Forall_lookup_1.
      * rewrite (hbind_raise _ _ _ _ _ Hstep). by exists (matrix_array nc nf E), (Err e).
    + subst e'. rewrite (hbind_raise _ _ _ (σ ++ [matrix_array nc nf E]) e); [|done].
      by exists (matrix_array nc nf E), (Err e).
Qed.

Lemma hbind_assoc {A B C} (m : HeapM F A) (k : A → HeapM F B) (k' : B → HeapM F C) σ :
  hbind (hbind m k) k' σ = hbind m (fun a => hbind (k a) k') σ.
Proof. unfold hbind. by destruct (m σ) as [σ' [a|e]]. Qed.

Lemma hbind_cong {A B} (m : HeapM F A) (k k' : A → HeapM F B) σ :
  (∀ a σ', k a σ' = k' a σ') → hbind m k σ = hbind m k' σ.
Proof. intros Hk. unfold hbind. destruct (m σ) as [σ' [a|e]]; [apply Hk|done]. Qed.

Lemma simulates_prefix {A A'} σ δ0 (m m' : HeapM F A) (r : result A')
    (R : list (NDArray F) → A → A' → Prop) :
  m σ = m' (σ ++ δ0) → simulates (σ ++ δ0) m' r R → simulates σ m r R.
Proof.
  intros Hm (δ & Hσ & Hr). exists (δ0 ++ δ). rewrite Hm, app_assoc. by split.
Qed.

Lemma same_spreadout_features σ (rs : list (list nat * Z * Z)) rs' :
  same_spreadout_results σ rs rs' →
  same_results σ ((fun r => (py_init r.1.1, r.1.2)) <$> rs) (feature_results rs').
Proof.
  intros Hrs. unfold same_results, feature_results. apply Forall2_fmap.
  eapply Forall2_impl; [exact Hrs|]. intros r r' (Hw & Hn & _). cbn [fst snd]. split; [|done].
  unfold py_init. rewrite (Forall2_length _ _ _ Hw). by apply Forall2_take.
Qed.

Lemma same_results_stable σ δ (rs : list (list nat * Z)) (rs' : list (NDArrays F * Z)) :
  same_results σ rs rs' → same_results (σ ++ δ) rs rs'.
Proof.
  intros Hrs. eapply Forall2_impl; [exact Hrs|]. intros r r' [Hw Hn]. split; [|done].
  by apply (Forall2_stable pt points_to_stable).
Qed.

(** The last two steps of aggregate_and_spreadout are aggregate on the
    contributions without their final layer. *)
Lemma spreadout_average_run {B} (rs : list (list nat * Z * Z)) (K : list nat → HeapM F B) σ :
  hbind (hmap (fun '((weights, num_examples, _) : list nat * Z * Z) =>
                 hmap (fun layer => h_mul_int layer num_examples) (py_init weights))
              rs)
        (fun feature_weights =>
           hbind (hmap (Store.average_layer
                          (py_sum (fmap (fun '((_, num_examples, _) : list nat * Z * Z) =>
                                           num_examples) rs)))
                       (zip_star feature_weights))
                 K) σ
  = hbind (Store.aggregate ((fun r => (py_init r.1.1, r.1.2)) <$> rs)) K σ.
Proof.
  unfold Store.aggregate. rewrite hbind_assoc. rewrite hmap_fmap.
  rewrite <- list_fmap_compose.
  rewrite (hmap_ext _ (fun x : list nat * Z * Z =>
             hmap (fun layer => h_mul_int layer x.1.2) (py_init x.1.1)))
    by (by intros [[? ?] ?]).
  assert ((fun '((_, num_examples, _) : list nat * Z * Z) => num_examples) <$> rs
          = (snd ∘ (fun r : list nat * Z * Z => (py_init r.1.1, r.1.2))) <$> rs) as ->.
  { apply list_fmap_ext. by intros _ [[? ?] ?] _. }
  done.
Qed.

(** X2: The store-level aggregate_and_spreadout computes what the value-level one
    computes, on a store of well-formed arrays and with a gradient of the
    shape of the matrix. *)
Theorem store_aggregate_and_spreadout_simulates σ grad
    (rs : list (list nat * Z * Z)) (rs' : list (NDArrays F * Z * Z))
    num_clients num_features (nu lr : F) :
  Forall wf_array σ →
  grad_keeps_shape grad →
  same_spreadout_results σ rs rs' →
  simulates σ
    (Store.aggregate_and_spreadout grad rs num_clients num_features nu lr)
    (aggregate_and_spreadout grad rs' num_clients num_features nu lr)
    (fun σ' out out' => Forall2 (points_to σ') out.1 out'.1 ∧ points_to σ' out.2 out'.2).
Proof.
  intros Hwf Hgrad Hrs.
  destruct ((num_clients <? 0) || (num_features <? 0)) eqn:Hdims.
  { exists []. unfold Store.aggregate_and_spreadout, aggregate_and_spreadout.
    rewrite Hdims. cbn. by rewrite app_nil_r. }
  apply orb_false_elim in Hdims as [Hc%Z.ltb_ge Hf%Z.ltb_ge].
  rewrite aggregate_and_spreadout_unfold by done. cbv zeta.
  set (nc := Z.to_nat num_clients). set (nf := Z.to_nat num_features).
  destruct (place_run σ nc nf rs rs' (replicate nc (replicate nf nzero)) Hwf Hrs
              (well_shaped_zeros nc nf)) as (X & r & Hrun & Hr).
  pose (K := fun embeddings : nat =>
          hbind (Store.aggregate ((fun r => (py_init r.1.1, r.1.2)) <$> rs))
                (fun wp => hret (F := F) (wp ++ [embeddings], embeddings))).
  pose (torch := fun _ : unit =>
          hbind (load (length σ)) (fun E =>
          hbind (alloc E) (fun parameter =>
          hbind (hlift (if nltb lr nzero then Err ValueError else Ok tt)) (fun _ =>
          hbind (load parameter) (fun P =>
          hbind (store parameter
                   (matrix_array nc nf
                      (sgd_step lr (array_rows P) (grad nu num_clients (array_rows P)))))
                (fun _ =>
          hbind (load parameter) (fun P' =>
          hbind (alloc (matrix_array nc nf (normalize (array_rows P')))) K))))))).
  assert (Store.aggregate_and_spreadout grad rs num_clients num_features nu lr σ
          = hbind (hfold (fun _ '((weights, _, cid) : list nat * Z * Z) =>
                            hbind (hlift (py_index weights (-1)))
                                  (fun w => Store.store_row nc nf (length σ) cid w))
                         tt rs)
                  torch
                  (σ ++ [matrix_array nc nf (replicate nc (replicate nf nzero))]))
    as Hstart.
  { unfold Store.aggregate_and_spreadout.
    replace ((num_clients <? 0) || (num_features <? 0)) with false
      by (symmetry; apply orb_false_intro; apply Z.ltb_ge; lia).
    cbv zeta. fold nc nf.
    rewrite (hbind_run _ _ σ σ tt) by done.
    rewrite (hbind_run _ _ σ (σ ++ [np_zeros [nc; nf]]) (length σ)) by done.
    rewrite np_zeros_matrix. unfold torch, K.
    do 8 (apply hbind_cong; intros ? ?). apply spreadout_average_run. }
  assert (hfold (fun _ '((weights, _, cid) : list nat * Z * Z) =>
                   hbind (hlift (py_index weights (-1)))
                         (fun w => Store.store_row nc nf (length σ) cid w))
                tt rs (σ ++ [matrix_array nc nf (replicate nc (replicate nf nzero))])
          = (σ ++ [X], r)) as Hrun'.
  { rewrite <- Hrun. apply hfold_ext. by intros _ [[? ?] ?]. }
  destruct r as [[]|e], (place_embeddings nf _ rs') as [E1|e'] eqn:Hplace; try done.
  2:{ subst e'. rewrite (hbind_raise _ _ _ _ _ Hrun') in Hstart. cbn [rbind].
      exists [X]. by rewrite Hstart. }
  destruct Hr as [-> HE1]. cbn [rbind].
  rewrite (hbind_run _ _ _ _ _ Hrun') in Hstart. unfold torch in Hstart.
  set (M1 := matrix_array nc nf E1) in *.
  set (E2 := sgd_step lr E1 (grad nu num_clients E1)).
  set (M2 := matrix_array nc nf E2).
  set (M3 := matrix_array nc nf (normalize E2)).
  assert (array_rows M1 = E1) as HM1 by (by apply array_rows_matrix_array; apply HE1).
  assert (well_shaped nc nf E2) as HE2.
  { apply well_shaped_lengths. unfold E2. rewrite sgd_step_shape by apply Hgrad.
    by apply well_shaped_lengths. }
  assert (array_rows M2 = E2) as HM2 by (by apply array_rows_matrix_array; apply HE2).
  rewrite (hbind_run _ _ (σ ++ [M1]) (σ ++ [M1]) M1) in Hstart
    by (unfold load; by rewrite list_lookup_middle).
  rewrite (hbind_run _ _ (σ ++ [M1]) ((σ ++ [M1]) ++ [M1]) (length (σ ++ [M1]))) in Hstart
    by done.
  destruct (nltb lr nzero).
  { rewrite (hbind_raise _ _ ((σ ++ [M1]) ++ [M1]) ((σ ++ [M1]) ++ [M1]) ValueError) in Hstart
      by done.
    exists [M1; M1]. rewrite Hstart, <- !app_assoc. by split. }
  rewrite (hbind_run _ _ ((σ ++ [M1]) ++ [M1]) ((σ ++ [M1]) ++ [M1]) tt) in Hstart by done.
  cbn [rbind].
  rewrite (hbind_run _ _ ((σ ++ [M1]) ++ [M1]) ((σ ++ [M1]) ++ [M1]) M1) in Hstart
    by (unfold load; by rewrite list_lookup_middle).
  rewrite HM1 in Hstart. fold E2 M2 in Hstart.
  rewrite (hbind_run _ _ ((σ ++ [M1]) ++ [M1]) ((σ ++ [M1]) ++ [M2]) tt) in Hstart.
  2:{ unfold store. f_equal. rewrite insert_app_r_alt by done. by rewrite Nat.sub_diag. }
  rewrite (hbind_run _ _ ((σ ++ [M1]) ++ [M2]) ((σ ++ [M1]) ++ [M2]) M2) in Hstart
    by (unfold load; by rewrite list_lookup_middle).
  rewrite HM2 in Hstart. fold M3 in Hstart.
  rewrite (hbind_run _ _ ((σ ++ [M1]) ++ [M2]) (((σ ++ [M1]) ++ [M2]) ++ [M3])
             (length ((σ ++ [M1]) ++ [M2]))) in Hstart by done.
  apply (simulates_prefix σ [M1; M2; M3] _ (K (length ((σ ++ [M1]) ++ [M2])))).
  { rewrite Hstart. by rewrite <- !app_assoc. }
  unfold K.
  eapply simulates_bind.
  { apply simulates_aggregate. apply same_results_stable.
    by apply same_spreadout_features. }
  intros δ wp avg Hwp. apply simulates_ret. cbn [fst snd].
  assert (points_to ((σ ++ [M1; M2; M3]) ++ δ) (length ((σ ++ [M1]) ++ [M2])) M3) as Hemb.
  { apply points_to_stable. unfold points_to.
    replace (σ ++ [M1; M2; M3]) with (((σ ++ [M1]) ++ [M2]) ++ [M3])
      by (by rewrite <- !app_assoc).
    by rewrite list_lookup_middle. }
  split; [|done]. apply Forall2_app; [done|]. by constructor.
Qed.

(** *** aggregate_qffl *)

Lemma allocates_hmap {A A' B B'} (f : A → HeapM F B) (g : A' → result B')
    (RA : list (NDArray F) → A → A' → Prop) (RB : list (NDArray F) → B → B' → Prop)
    (locs : B → list nat) σ (xs : list A) (xs' : list A') :
  stable RA → stable RB →
  (∀ δ x x', RA (σ ++ δ) x x' → allocates (σ ++ δ) (f x) (g x') RB locs) →
  Forall2 (RA σ) xs xs' →
  allocates σ (hmap f xs) (rmap g xs') (fun σ' => Forall2 (RB σ'))
            (fun bs => concat (locs <$> bs)).
Proof.
  intros HRA HRB. revert σ xs'. induction xs as [|x xs IH]; intros σ xs' Hf Hxs.
  - apply Forall2_nil_inv_l in Hxs as ->. exists []. cbn. rewrite app_nil_r.
    split; [done|]. split; [constructor|]. split; [constructor|constructor].
  - apply Forall2_cons_inv_l in Hxs as (x' & xs'' & Hx & Hxs & ->). cbn [hmap rmap].
    destruct (Hf [] x x') as (δ1 & Hσ1 & Hr1); [by rewrite app_nil_r|].
    rewrite app_nil_r in Hσ1, Hr1. unfold allocates, hbind.
    destruct (f x σ) as [σ1 [y|e]]; cbn [fst snd] in *; subst σ1.
    2:{ destruct (g x') as [|e']; [done|]. subst e'. by exists δ1. }
    destruct (g x') as [y'|]; [|done]. destruct Hr1 as (Hy & Hnd & Hbound). cbn [rbind].
    destruct (IH (σ ++ δ1) xs'') as (δ2 & Hσ2 & Hr2).
    { intros δ' z z' Hz. rewrite <- app_assoc. apply Hf. by rewrite app_assoc. }
    { eapply Forall2_impl; [exact Hxs|]. intros; by apply HRA. }
    destruct (hmap f xs (σ ++ δ1)) as [σ2 [ys|e]]; cbn [fst snd] in *; subst σ2.
    2:{ destruct (rmap g xs'') as [|e']; [done|]. subst e'. exists (δ1 ++ δ2).
        by rewrite app_assoc. }
    destruct (rmap g xs'') as [ys'|]; [|done]. destruct Hr2 as (Hys & Hnd2 & Hbound2).
    exists (δ1 ++ δ2). cbn [rbind hret fst snd]. rewrite app_assoc. split; [done|].
    split; [constructor; [by apply HRB|done]|].
    cbn [fmap list_fmap concat]. split.
    + apply NoDup_app. split; [done|]. split; [|done].
      intros l Hl Hl'. eapply Forall_forall in Hbound; [|exact Hl].
      eapply Forall_forall in Hbound2; [|exact Hl']. lia.
    + apply Forall_app. split.
      * eapply Forall_impl; [exact Hbound|]. intros l Hl. cbn in Hl.
        rewrite !length_app in *. lia.
      * eapply Forall_impl; [exact Hbound2|]. intros l Hl. cbn in Hl.
        rewrite !length_app in *. lia.
Qed.

Lemma allocates_scale_layer σ (D : F) l a :
  points_to σ l a →
  allocates σ (Store.scale_layer D l) (Ok (scale_layer D a)) pt (fun l' => [l']).
Proof.
  intros Hl. exists [np_mul_s a (of_int 1); scale_layer D a].
  unfold Store.scale_layer, h_mul_s, h_div_s.
  rewrite hbind_assoc.
  rewrite (hbind_run _ _ σ σ a) by (unfold load; by rewrite Hl).
  rewrite (hbind_run _ _ σ (σ ++ [np_mul_s a (of_int 1)]) (length σ)) by done.
  rewrite (hbind_run _ _ (σ ++ [np_mul_s a (of_int 1)]) (σ ++ [np_mul_s a (of_int 1)])
             (np_mul_s a (of_int 1))) by (unfold load; by rewrite list_lookup_middle).
  unfold alloc. cbn [fst snd]. rewrite <- app_assoc. cbn [app]. split; [done|].
  split; [|split].
  - unfold points_to.
    change (σ ++ [np_mul_s a (of_int 1); scale_layer D a])
      with (σ ++ [np_mul_s a (of_int 1)] ++ [scale_layer D a]).
    rewrite app_assoc. by rewrite list_lookup_middle.
  - apply NoDup_singleton.
  - apply Forall_singleton. rewrite !length_app. cbn. lia.
Qed.

(** *** aggregate_qffl *)

Lemma elem_of_concat {A} (S : list (list A)) sd j i (x : A) :
  S !! j = Some sd → sd !! i = Some x → x ∈ concat S.
Proof.
  intros Hj Hi. apply list_elem_of_In, in_concat. exists sd.
  split; apply list_elem_of_In; eapply list_elem_of_lookup_2; eauto.
Qed.

Lemma lookup_concat_inj {A} (S : list (list A)) j j' i i' sd sd' (x : A) :
  NoDup (concat S) →
  S !! j = Some sd → sd !! i = Some x → S !! j' = Some sd' → sd' !! i' = Some x →
  j = j' ∧ i = i'.
Proof.
  revert j j' sd sd'. induction S as [|s S IH]; intros j j' sd sd' Hnd Hj Hi Hj' Hi'; [done|].
  cbn [concat] in Hnd. apply NoDup_app in Hnd as (Hs & Hdisj & HS).
  destruct j as [|j], j' as [|j']; cbn in Hj, Hj'.
  - injection Hj as ->. injection Hj' as ->. split; [done|].
    exact (NoDup_lookup _ _ _ _ Hs Hi Hi').
  - injection Hj as ->. exfalso. eapply Hdisj; [eapply list_elem_of_lookup_2; exact Hi|].
    eapply elem_of_concat; eauto.
  - injection Hj' as ->. exfalso. eapply Hdisj; [eapply list_elem_of_lookup_2; exact Hi'|].
    eapply elem_of_concat; eauto.
  - destruct (IH j j' sd sd' HS Hj Hi Hj' Hi') as [-> ->]. done.
Qed.

Lemma py_get_Forall2 {A B} (R : A → B → Prop) (xs : list A) (ys : list B) i :
  Forall2 R xs ys →
  match py_get xs i, py_get ys i with
  | Ok x, Ok y => R x y ∧ xs !! i = Some x
  | Err e, Err e' => e = e'
  | _, _ => False
  end.
Proof.
  intros HR. unfold py_get. destruct (xs !! i) as [x|] eqn:Hx.
  - destruct (Forall2_lookup_l _ _ _ _ _ HR Hx) as (y & -> & Hxy). done.
  - destruct (ys !! i) as [y|] eqn:Hy; [|done].
    destruct (Forall2_lookup_r _ _ _ _ _ HR Hy) as (x & Hx' & _). congruence.
Qed.

Lemma hbind_unfold {A B} (m : HeapM F A) (k : A → HeapM F B) σ :
  hbind m k σ = match m σ with
                | (σ', Ok a) => k a σ'
                | (σ', Err e) => (σ', Err e)
                end.
Proof. done. Qed.

Lemma h_iadd_run h tmp x (a b : NDArray F) :
  h !! tmp = Some a → h !! x = Some b →
  h_iadd tmp x h = match np_iadd a b with
                   | Ok c => (<[tmp := c]> h, Ok tmp)
                   | Err e => (h, Err e)
                   end.
Proof.
  intros Ha Hb. unfold h_iadd, hbind, load, hlift, store, hret. rewrite Ha, Hb.
  by destruct (np_iadd a b).
Qed.

(** One pass of the inner loop of aggregate_qffl,
    [tmp += scaled_deltas[j][i]]: the array at [tmp] is overwritten with
    what the value level computes. *)
Lemma qffl_body_run (S : list (list nat)) (V : list (NDArrays F)) σ1 i tmp j h acc :
  Forall2 (Forall2 (pt σ1)) S V →
  h !! tmp = Some acc →
  (∀ sd l, S !! j = Some sd → sd !! i = Some l → h !! l = σ1 !! l) →
  let run := hbind (hlift (py_get S j)) (fun sdj =>
             hbind (hlift (py_get sdj i)) (fun x => h_iadd tmp x)) h in
  match run.2, (let* sdj := py_get V j in let* x := py_get sdj i in np_iadd acc x) with
  | Ok out, Ok c => out = tmp ∧ run.1 = <[tmp := c]> h
  | Err e, Err e' => run.1 = h ∧ e = e'
  | _, _ => False
  end.
Proof.
  intros HSV Hacc Hagree. cbn zeta. unfold hbind, hlift.
  pose proof (py_get_Forall2 _ S V j HSV) as Hj.
  destruct (py_get S j) as [sd|e], (py_get V j) as [vd|e']; try done.
  destruct Hj as [Hsd HSj]. cbn [rbind].
  pose proof (py_get_Forall2 _ sd vd i Hsd) as Hi.
  destruct (py_get sd i) as [x|e], (py_get vd i) as [xv|e']; try done.
  destruct Hi as [Hx Hsdi]. cbn [rbind].
  rewrite (h_iadd_run h tmp x acc xv); [|done|by rewrite (Hagree sd x)].
  by destruct (np_iadd acc xv).
Qed.

(** The inner loop of aggregate_qffl, for the [j] of [js]: the array at
    [tmp] becomes what the value level computes, and no other array of the
    store changes. *)
Lemma qffl_inner_run (S : list (list nat)) (V : list (NDArrays F)) σ1 i tmp js :
  Forall2 (Forall2 (pt σ1)) S V →
  ∀ h acc, h !! tmp = Some acc →
  (∀ j sd l, j ∈ js → S !! j = Some sd → sd !! i = Some l → l ≠ tmp ∧ h !! l = σ1 !! l) →
  let run := hfold (fun tmp j =>
                      hbind (hlift (py_get S j)) (fun sdj =>
                      hbind (hlift (py_get sdj i)) (fun x => h_iadd tmp x)))
                   tmp js h in
  length run.1 = length h
  ∧ (∀ l, l ≠ tmp → run.1 !! l = h !! l)
  ∧ match run.2,
          rfold (fun tmp j =>
                   let* sdj := py_get V j in
                   let* x := py_get sdj i in
                   np_iadd tmp x) acc js with
    | Ok out, Ok val => out = tmp ∧ run.1 !! tmp = Some val
    | Err e, Err e' => e = e'
    | _, _ => False
    end.
Proof.
  intros HSV. induction js as [|j js IH]; intros h acc Hacc Hagree; cbn zeta.
  - cbn. done.
  - cbn [hfold rfold].
    rewrite (hbind_unfold (hbind (hlift (py_get S j)) _) _ h).
    pose proof (qffl_body_run S V σ1 i tmp j h acc HSV Hacc) as Hstep.
    cbn zeta in Hstep. 
    destruct (hbind (hlift (py_get S j)) _ h) as [h1 [out|e]];
      destruct (let* sdj := py_get V j in _) as [c|e']; cbn [fst snd rbind] in *.
    all: try (exfalso; apply Hstep; intros; eapply Hagree; eauto; left).
    + destruct Hstep as [-> ->].
      { intros sd l ??. eapply Hagree; eauto. left. }
      assert (Htmp : (tmp < length h)%nat) by (by eapply lookup_lt_Some).
      destruct (IH (<[tmp := c]> h) c) as (Hlen & Hframe & Hres).
      { by apply list_lookup_insert_eq. }
      { intros j' sd' l' Hj' HS' Hl'.
        destruct (Hagree j' sd' l') as [Hne' Hh']; [by right|done|done|].
        split; [done|]. by rewrite list_lookup_insert_ne. }
      cbn zeta in Hlen, Hframe, Hres. rewrite length_insert in Hlen.
      split; [done|]. split; [|done].
      intros l Hl. rewrite Hframe by done. by rewrite list_lookup_insert_ne.
    + destruct Hstep as [-> ->]; [|done].
      intros sd l ??. eapply Hagree; eauto. left.
Qed.

(** The body of the outer loop of aggregate_qffl: the i-th update is
    accumulated in place, in the first client's scaled array. *)
Lemma qffl_update_run (S : list (list nat)) (V : list (NDArrays F)) σ1 n i h :
  Forall2 (Forall2 (pt σ1)) S V → NoDup (concat S) →
  (∀ j sd l, S !! j = Some sd → sd !! i = Some l → h !! l = σ1 !! l) →
  let run := Store.qffl_update S n i h in
  length run.1 = length h
  ∧ (∀ l, (∀ sd0, S !! 0%nat = Some sd0 → sd0 !! i ≠ Some l) → run.1 !! l = h !! l)
  ∧ match run.2, qffl_update V n i with
    | Ok out, Ok val =>
        (∃ sd0, S !! 0%nat = Some sd0 ∧ sd0 !! i = Some out) ∧ run.1 !! out = Some val
    | Err e, Err e' => e = e'
    | _, _ => False
    end.
Proof.
  intros HSV Hnd Hagree. cbn zeta. unfold Store.qffl_update, qffl_update.
  rewrite (hbind_unfold (hlift (py_get S 0%nat))).
  change (hlift (py_get S 0%nat) h) with (h, py_get S 0%nat).
  pose proof (py_get_Forall2 _ S V 0%nat HSV) as H0.
  destruct (py_get S 0%nat) as [sd0|e], (py_get V 0%nat) as [vd0|e']; try done.
  destruct H0 as [Hsd0 HS0]. cbn [rbind].
  rewrite (hbind_unfold (hlift (py_get sd0 i))).
  change (hlift (py_get sd0 i) h) with (h, py_get sd0 i).
  pose proof (py_get_Forall2 _ sd0 vd0 i Hsd0) as Hi.
  destruct (py_get sd0 i) as [tmp|e], (py_get vd0 i) as [acc|e']; try done.
  destruct Hi as [Htmp Hsdi]. cbn [rbind].
  destruct (qffl_inner_run S V σ1 i tmp (seq 1 (n - 1)) HSV h acc) as (Hlen & Hframe & Hres).
  { by rewrite (Hagree 0%nat sd0 tmp). }
  { intros j sd l Hj HSj Hl. split; [|by eapply Hagree]. intros ->.
    destruct (lookup_concat_inj S j 0 i i sd sd0 tmp Hnd HSj Hl HS0 Hsdi) as [-> _].
    apply elem_of_seq in Hj. lia. }
  split; [done|]. split.
  { intros l Hl. apply Hframe. intros ->. by eapply Hl. }
  destruct (hfold _ tmp _ h) as [h' [out|e]]; destruct (rfold _ acc _) as [val|e'];
    cbn [fst snd] in *; try done.
  destruct Hres as [-> Hval]. split; [eauto|done].
Qed.

(** The outer loop of aggregate_qffl: the updates are the arrays the value
    level computes, and apart from the first client's scaled arrays no array
    of the store has changed. *)
Lemma qffl_updates_run (S : list (list nat)) (V : list (NDArrays F)) σ1 n ixs :
  Forall2 (Forall2 (pt σ1)) S V → NoDup (concat S) → NoDup ixs →
  ∀ h, (∀ i j sd l, i ∈ ixs → S !! j = Some sd → sd !! i = Some l → h !! l = σ1 !! l) →
  let run := hmap (Store.qffl_update S n) ixs h in
  length run.1 = length h
  ∧ (∀ l, (∀ i sd0, i ∈ ixs → S !! 0%nat = Some sd0 → sd0 !! i ≠ Some l) →
          run.1 !! l = h !! l)
  ∧ match run.2, rmap (qffl_update V n) ixs with
    | Ok outs, Ok vals => Forall2 (pt run.1) outs vals
    | Err e, Err e' => e = e'
    | _, _ => False
    end.
Proof.
  intros HSV Hnd. induction ixs as [|i ixs IH]; intros His h Hagree; cbn zeta.
  - cbn. split; [done|]. split; [done|]. constructor.
  - apply NoDup_cons in His as [Hi His]. cbn [hmap rmap].
    rewrite (hbind_unfold (Store.qffl_update S n i)).
    destruct (qffl_update_run S V σ1 n i h HSV Hnd) as (Hlen1 & Hframe1 & Hres1).
    { intros j sd l. apply Hagree. left. }
    destruct (Store.qffl_update S n i h) as [h1 [out|e]];
      destruct (qffl_update V n i) as [val|e']; cbn [fst snd rbind] in *; try done.
    2:{ split; [done|]. split; [|done]. intros l Hl. apply Hframe1.
        intros sd0. apply Hl. left. }
    destruct Hres1 as [(sd0 & HS0 & Hout) Hval].
    rewrite (hbind_unfold (hmap (Store.qffl_update S n) ixs)).
    destruct (IH His h1) as (Hlen2 & Hframe2 & Hres2).
    { intros i' j sd l Hi' HSj Hl. rewrite Hframe1; [apply (Hagree i' j sd l); [by right|done|done]|].
      intros sd0' HS0' Hl'.
      destruct (lookup_concat_inj S j 0 i' i sd sd0' l Hnd HSj Hl HS0' Hl') as [_ ->].
      done. }
    cbn zeta in *.
    destruct (hmap (Store.qffl_update S n) ixs h1) as [h2 [outs|e]];
      destruct (rmap (qffl_update V n) ixs) as [vals|e']; cbn [fst snd rbind hret] in *;
      try done.
    + split; [lia|]. split.
      * intros l Hl. rewrite Hframe2, Hframe1; [done| |].
        -- intros sd0'. apply Hl. left.
        -- intros i' sd0' Hi'. apply Hl. by right.
      * constructor; [|done]. unfold points_to. rewrite Hframe2; [done|].
        intros i' sd0' Hi' HS0' Hl'.
        destruct (lookup_concat_inj S 0 0 i' i sd0' sd0 out Hnd HS0' Hl' HS0 Hout)
          as [_ ->].
        done.
    + split; [lia|]. split; [|done].
      intros l Hl. rewrite Hframe2, Hframe1; [done| |].
      * intros sd0'. apply Hl. left.
      * intros i' sd0' Hi'. apply Hl. by right.
Qed.

Lemma concat_singletons {A} (xs : list A) : concat ((fun x => [x]) <$> xs) = xs.
Proof. induction xs as [|x xs IH]; [done|]. cbn. by rewrite IH. Qed.

Lemma concat_fmap_id {A} (xs : list (list A)) : concat ((fun x => x) <$> xs) = concat xs.
Proof. induction xs as [|x xs IH]; [done|]. cbn. by rewrite IH. Qed.

Lemma Forall2_zip_pairs {A A' B B'} (R : A → A' → Prop) (Q : B → B' → Prop)
    (xs : list A) (xs' : list A') (ys : list B) (ys' : list B') :
  Forall2 R xs xs' → Forall2 Q ys ys' →
  Forall2 (fun p p' => R p.1 p'.1 ∧ Q p.2 p'.2) (zip xs ys) (zip xs' ys').
Proof.
  intros HR. revert ys ys'. induction HR as [|x x' xs xs' Hx _ IH]; intros ys ys' HQ.
  - constructor.
  - destruct HQ as [|y y' ys ys' Hy HQ]; cbn; [constructor|].
    constructor; [done|]. by apply IH.
Qed.

(** A store that agrees with [σ] on the addresses of [σ] extends it. *)
Lemma extends_of_agree σ h :
  (length σ ≤ length h)%nat → (∀ l, (l < length σ)%nat → h !! l = σ !! l) →
  h = σ ++ drop (length σ) h.
Proof.
  intros Hlen Hagree. rewrite <- (take_drop (length σ) h) at 1. f_equal.
  apply list_eq. intros l. destruct (decide (l < length σ)%nat) as [Hl|Hl].
  - rewrite lookup_take_lt by done. by apply Hagree.
  - rewrite lookup_take_ge by lia. symmetry. apply lookup_ge_None. lia.
Qed.

(** The scaled copies of one client's arrays. *)
Lemma allocates_scale_layers σ (D : F) (cd : list nat) (cd' : NDArrays F) :
  Forall2 (pt σ) cd cd' →
  allocates σ (hmap (Store.scale_layer D) cd) (Ok (scale_layer D <$> cd'))
            (fun σ' => Forall2 (pt σ')) (fun ls => ls).
Proof.
  intros Hcd.
  pose proof (allocates_hmap (Store.scale_layer D) (fun a => Ok (scale_layer D a))
                pt pt (fun l' => [l']) σ cd cd' points_to_stable points_to_stable) as Hall.
  rewrite rmap_Ok in Hall. destruct Hall as (δ & Hσ & Hr); [|done|].
  { intros δ l a Hl. by apply allocates_scale_layer. }
  exists δ. split; [done|]. destruct ((hmap (Store.scale_layer D) cd σ).2); [|done].
  by rewrite concat_singletons in Hr.
Qed.

(** The scaled copies of every client's arrays: new arrays, all distinct. *)
Lemma allocates_scaled_deltas σ (D : F) (ds : list (list nat)) (ds' : list (NDArrays F)) :
  Forall2 (Forall2 (pt σ)) ds ds' →
  allocates σ (hmap (fun client_delta => hmap (Store.scale_layer D) client_delta) ds)
            (Ok (fmap (fun client_delta : NDArrays F => scale_layer D <$> client_delta) ds'))
            (fun σ' => Forall2 (Forall2 (pt σ'))) (fun S => concat S).
Proof.
  intros Hds.
  pose proof (allocates_hmap (fun client_delta => hmap (Store.scale_layer D) client_delta)
                (fun client_delta : NDArrays F => Ok (scale_layer D <$> client_delta))
                (fun σ' => Forall2 (pt σ')) (fun σ' => Forall2 (pt σ')) (fun ls => ls)
                σ ds ds') as Hall.
  rewrite rmap_Ok in Hall. destruct Hall as (δ & Hσ & Hr); [..|done|].
  { apply Forall2_stable, points_to_stable. }
  { apply Forall2_stable, points_to_stable. }
  { intros δ cd cd' Hcd. by apply allocates_scale_layers. }
  exists δ. split; [done|].
  destruct ((hmap (fun client_delta => hmap (Store.scale_layer D) client_delta) ds σ).2);
    [|done].
  by rewrite concat_fmap_id in Hr.
Qed.

(** X3: aggregate_qffl on the store computes what aggregate_qffl computes on
    values: the accumulation in place touches only the scaled copies, which
    the call itself has allocated. *)
Theorem store_aggregate_qffl_simulates σ (ps : list nat) (ps' : NDArrays F)
    (ds : list (list nat)) (ds' : list (NDArrays F)) (hs : list F) :
  Forall2 (pt σ) ps ps' → Forall2 (Forall2 (pt σ)) ds ds' →
  simulates σ (Store.aggregate_qffl ps ds hs) (aggregate_qffl ps' ds' hs)
            (fun σ' => Forall2 (points_to σ')).
Proof.
  intros Hps Hds. unfold Store.aggregate_qffl, aggregate_qffl. cbn zeta.
  set (D := np_sum hs). unfold simulates.
  destruct (allocates_scaled_deltas σ D ds ds' Hds) as (δ1 & Hσ1 & Hr1).
  rewrite (hbind_unfold (hmap _ ds)).
  destruct (hmap _ ds σ) as [σ1 [S|e]]; cbn [fst snd] in *; [|done].
  destruct Hr1 as (HSV & Hnd & Hbound). subst σ1.
  rewrite (hbind_unfold (hlift (py_get ds 0%nat))).
  change (hlift (py_get ds 0%nat) (σ ++ δ1)) with (σ ++ δ1, py_get ds 0%nat).
  pose proof (py_get_Forall2 _ ds ds' 0%nat Hds) as H0.
  destruct (py_get ds 0%nat) as [delta0|e], (py_get ds' 0%nat) as [delta0'|e']; try done.
  2:{ subst e'. by exists δ1. }
  destruct H0 as [Hdelta0 _]. cbn [rbind].
  rewrite <- (Forall2_length _ _ _ Hdelta0), <- (Forall2_length _ _ _ Hds).
  set (V := fmap (fun client_delta : NDArrays F => scale_layer D <$> client_delta) ds') in *.
  destruct (qffl_updates_run S V (σ ++ δ1) (length ds) (seq 0 (length delta0)) HSV Hnd
              (NoDup_seq _ _) (σ ++ δ1)) as (Hlen & Hframe & Hres); [done|].
  cbn zeta in *.
  rewrite (hbind_unfold (hmap (Store.qffl_update S (length ds)) _)).
  destruct (hmap (Store.qffl_update S (length ds)) _ (σ ++ δ1)) as [h2 [outs|e]];
    cbn [fst snd] in *.
  all: assert (Hext : h2 = σ ++ drop (length σ) h2).
  1,3: apply extends_of_agree; [rewrite Hlen, length_app; lia|];
       intros l Hl; rewrite Hframe; [by rewrite lookup_app_l|];
       intros i sd0 _ HS0 Hout;
       eapply Forall_forall in Hbound; [|eapply elem_of_concat; eauto]; lia.
  2:{ destruct (rmap _ _) as [|e']; [done|]. subst e'. exists (drop (length σ) h2).
      by rewrite <- Hext. }
  destruct (rmap (qffl_update V (length ds)) _) as [vals|]; [|done]. cbn [rbind].
  assert (Hsim : simulates h2
            (hmap (fun '((u, v) : nat * nat) =>
                     hbind (h_sub u v) (fun d => h_mul_s d (of_int 1))) (zip ps outs))
            (rmap (fun '(u, v) => let* d := np_sub u v in Ok (np_mul_s d (of_int 1)))
                  (zip ps' vals))
            (fun σ' => Forall2 (points_to σ'))).
  { apply (simulates_hmap _ _ (fun σ' p p' => pt σ' p.1 p'.1 ∧ pt σ' p.2 p'.2) pt).
    - intros ???? [??]. split; by apply points_to_stable.
    - apply points_to_stable.
    - intros δ [u v] [u' v'] [Hu Hv]. cbn [fst snd] in *.
      eapply simulates_bind; [by apply simulates_sub|].
      intros δ' d d' Hd. by apply simulates_mul_s.
    - apply Forall2_zip_pairs; [|done]. rewrite Hext.
      eapply Forall2_impl; [exact Hps|]. intros; by apply points_to_stable. }
  destruct Hsim as (δ3 & Hσ3 & Hr3). exists (drop (length σ) h2 ++ δ3).
  rewrite app_assoc, <- Hext. by split.
Qed.

End Simulation.

(** ** Further properties of the aggregation engine *)

(** *** What the loops can raise *)

Lemma rmap_Err {A B} (f : A → result B) (l : list A) e :
  rmap f l = Err e → ∃ x, x ∈ l ∧ f x = Err e.
Proof.
  induction l as [|x l IH]; [done|]. cbn [rmap].
  destruct (f x) as [y|e'] eqn:Hx; cbn [rbind].
  - destruct (rmap f l) as [ys|e'']; [done|]. cbn. intros [= ->].
    destruct IH as (x' & Hx' & Hf); [done|]. exists x'. split; [by right|done].
  - intros [= ->]. exists x. split; [left|done].
Qed.

Lemma rmap_length {A B} (f : A → result B) (l : list A) ys :
  rmap f l = Ok ys → length ys = length l.
Proof.
  revert ys. induction l as [|x l IH]; intros ys; cbn [rmap].
  - by intros [= <-].
  - destruct (f x) as [y|]; [|done]. cbn [rbind].
    destruct (rmap f l) as [ys'|]; [|done]. cbn. intros [= <-]. cbn. by rewrite (IH ys').
Qed.

Lemma rfold_Err {A B} (f : B → A → result B) (l : list A) acc e :
  rfold f acc l = Err e → ∃ acc' x, x ∈ l ∧ f acc' x = Err e.
Proof.
  revert acc. induction l as [|x l IH]; intros acc; [done|]. cbn [rfold].
  destruct (f acc x) as [acc'|e'] eqn:Hx; cbn [rbind].
  - intros Hl. destruct (IH _ Hl) as (a & x' & Hx' & Hf). exists a, x'. split; [by right|done].
  - intros [= ->]. exists acc, x. split; [left|done].
Qed.

Section Raises.
Context {F : Type} `{Numeric F}.

Lemma np_binop_Err (f : F → F → F) (a b : NDArray F) e :
  np_binop f a b = Err e → e = ValueError.
Proof. unfold np_binop. destruct (broadcast_shape _ _); [done|]. by intros [= <-]. Qed.

Lemma np_inplace_Err (f : F → F → F) (a b : NDArray F) e :
  np_inplace f a b = Err e → e = ValueError.
Proof.
  unfold np_inplace. destruct (broadcast_shape _ _); [|by intros [= <-]].
  destruct (decide _); [done|]. by intros [= <-].
Qed.

(** The tuples of [zip( *ls )] have one element for each list. *)
Lemma zip_star_length {A} (ls : list (list A)) :
  Forall (fun t => length t = length ls) (zip_star ls).
Proof.
  induction ls as [|l ls IH]; [constructor|]. cbn [zip_star].
  destruct ls as [|l' ls].
  - apply Forall_fmap, Forall_forall. done.
  - revert IH. generalize (zip_star (l' :: ls)). intros ts.
    change (length (l :: l' :: ls)) with (S (length (l' :: ls))).
    generalize (length (l' :: ls)). intros n. revert l.
    induction ts as [|t ts IHts]; intros l Hts.
    + destruct l; constructor.
    + destruct l as [|x l]; [constructor|]. cbn [zip_with].
      apply Forall_cons in Hts as [Ht Hts]. constructor; [cbn; by rewrite Ht|].
      by apply IHts.
Qed.

Lemma py_float_of_int_Err (n : Z) e :
  py_float_of_int (F := F) n = Err e → e = OverflowError ∧ int_overflows n = true.
Proof. unfold py_float_of_int. destruct (int_overflows n); [|done]. by intros [= <-]. Qed.

Lemma np_mul_int_Err (a : NDArray F) (n : Z) e :
  np_mul_int a n = Err e → e = OverflowError ∧ int_overflows n = true.
Proof.
  unfold np_mul_int. destruct (py_float_of_int n) as [x|e'] eqn:Hx; [done|].
  cbn. intros [= ->]. by eapply py_float_of_int_Err.
Qed.

Lemma np_div_int_Err (a : NDArray F) (n : Z) e :
  np_div_int a n = Err e → e = OverflowError ∧ int_overflows n = true.
Proof.
  unfold np_div_int. destruct (py_float_of_int n) as [x|e'] eqn:Hx; [done|].
  cbn. intros [= ->]. by eapply py_float_of_int_Err.
Qed.

Lemma average_layer_Err T (layer_updates : NDArrays F) e :
  layer_updates ≠ [] → average_layer T layer_updates = Err e →
  e = ValueError ∨ (e = OverflowError ∧ int_overflows T = true).
Proof.
  intros Hne. unfold average_layer, reduce. destruct layer_updates as [|a l]; [done|].
  destruct (rfold np_add a l) as [s|e'] eqn:Hs; cbn [rbind].
  - intros Hdiv. right. by eapply np_div_int_Err.
  - intros [= ->]. left.
    destruct (rfold_Err _ _ _ _ Hs) as (acc & x & _ & Hx). by eapply np_binop_Err.
Qed.

End Raises.

(** X4: aggregate raises nothing but the ValueError of two layers that cannot be
    broadcast together and the OverflowError of a sample count, or of the
    total of the sample counts, that is too large for a float: no zero total,
    no empty list and no contribution without layers makes it raise. *)
Theorem aggregate_raises_only {F : Type} `{Numeric F}
    (results : list (NDArrays F * Z)) (e : PyError) :
  aggregate results = Err e →
  e = ValueError
  ∨ (e = OverflowError
     ∧ (Exists (fun r => int_overflows r.2 = true) results
        ∨ int_overflows (py_sum (snd <$> results)) = true)).
Proof.
  unfold aggregate. cbv zeta.
  destruct (rmap _ results) as [ww|e0] eqn:Hww; cbn [rbind].
  - intros Herr. destruct (rmap_Err _ _ _ Herr) as (t & Ht & Havg).
    destruct (average_layer_Err (py_sum (snd <$> results)) t e) as [->|[-> HT]];
      [|exact Havg|by left|].
    + pose proof (zip_star_length ww) as Hlen.
      eapply Forall_forall in Hlen; [|exact Ht].
      intros ->. cbn in Hlen. symmetry in Hlen. apply length_zero_iff_nil in Hlen.
      rewrite Hlen in Ht. cbn in Ht. by apply elem_of_nil in Ht.
    + right. split; [done|]. by right.
  - intros [= ->]. destruct (rmap_Err _ _ _ Hww) as ([weights n] & Hin & Hw).
    destruct (rmap_Err _ _ _ Hw) as (layer & _ & Hlayer).
    apply np_mul_int_Err in Hlayer as [-> Hn].
    right. split; [done|]. left. apply Exists_exists. by exists (weights, n).
Qed.

Lemma aggregate_raises_only_witness :
  ∃ e, aggregate (F := float) two_against_three = Err e
       ∧ (e = ValueError
          ∨ (e = OverflowError
             ∧ (Exists (fun r : NDArrays float * Z => int_overflows r.2 = true)
                       two_against_three
                ∨ int_overflows (F := float) (py_sum (snd <$> two_against_three)) = true))).
Proof.
  eexists. split; [vm_compute; reflexivity|].
  apply (aggregate_raises_only (F := float) two_against_three).
  vm_compute. reflexivity.
Defined.

(** A sample count of 2^1024 is too large for a float. *)
Lemma aggregate_huge_count_raises :
  aggregate (F := float) [([mkArr [1%nat] [1%float]], 2 ^ 1024)] = Err OverflowError.
Proof. vm_compute. reflexivity. Qed.

(** *** aggregate_qffl *)

Section QfflRaises.
Context {F : Type} `{Numeric F}.

Lemma py_get_Err {A} (l : list A) i e : py_get l i = Err e → e = IndexError.
Proof. unfold py_get. destruct (l !! i); [done|]. by intros [= <-]. Qed.

Lemma qffl_update_Err (scaled_deltas : list (NDArrays F)) n i e :
  qffl_update scaled_deltas n i = Err e → e = IndexError ∨ e = ValueError.
Proof.
  unfold qffl_update.
  destruct (py_get scaled_deltas 0) as [sd0|e0] eqn:H0; cbn [rbind];
    [|intros [= <-]; left; by eapply py_get_Err].
  destruct (py_get sd0 i) as [tmp|e0] eqn:Hi; cbn [rbind];
    [|intros [= <-]; left; by eapply py_get_Err].
  intros Hfold. destruct (rfold_Err _ _ _ _ Hfold) as (acc & j & _ & Hj).
  destruct (py_get scaled_deltas j) as [sdj|e0] eqn:Hsdj; cbn [rbind] in Hj;
    [|injection Hj as <-; left; by eapply py_get_Err].
  destruct (py_get sdj i) as [x|e0] eqn:Hx; cbn [rbind] in Hj;
    [|injection Hj as <-; left; by eapply py_get_Err].
  right. by eapply np_inplace_Err.
Qed.

End QfflRaises.

(** X11: aggregate_qffl raises nothing but IndexError (no delta, or a client
    with fewer layers than the first) and ValueError (layers that cannot be
    broadcast together); in particular fairness weights that sum to zero do
    not make it raise. *)
Theorem aggregate_qffl_raises_only {F : Type} `{Numeric F}
    (parameters : NDArrays F) (deltas : list (NDArrays F)) (hs : list F) (e : PyError) :
  aggregate_qffl parameters deltas hs = Err e → e = IndexError ∨ e = ValueError.
Proof.
  unfold aggregate_qffl.
  destruct (py_get deltas 0) as [delta0|e0] eqn:H0; cbn [rbind];
    [|intros [= <-]; left; by eapply py_get_Err].
  destruct (rmap _ (seq 0 (length delta0))) as [updates|e0] eqn:Hup; cbn [rbind].
  - intros Hsub. destruct (rmap_Err _ _ _ Hsub) as ([u v] & _ & Huv).
    destruct (np_sub u v) as [d|e0] eqn:Hd; [done|]. cbn in Huv. injection Huv as <-.
    right. by eapply np_binop_Err.
  - intros [= <-]. destruct (rmap_Err _ _ _ Hup) as (i & _ & Hi).
    by eapply qffl_update_Err.
Qed.

Lemma aggregate_qffl_raises_only_witness :
  ∃ e, aggregate_qffl (F := float) (single 1%float) [] [1%float] = Err e
       ∧ (e = IndexError ∨ e = ValueError).
Proof.
  eexists. split; [vm_compute; reflexivity|].
  apply (aggregate_qffl_raises_only (F := float) (single 1%float) [] [1%float]).
  vm_compute. reflexivity.
Defined.

(** X12: aggregate_qffl returns as many layers as the shorter of the parameters
    and the first client's delta: parameters beyond the layers of the deltas
    are dropped from the new parameters without an error. *)
Theorem aggregate_qffl_layer_count {F : Type} `{Numeric F}
    (parameters : NDArrays F) (deltas : list (NDArrays F)) (hs : list F) ws :
  aggregate_qffl parameters deltas hs = Ok ws →
  ∃ delta0, deltas !! 0%nat = Some delta0
            ∧ length ws = (length parameters `min` length delta0)%nat.
Proof.
  unfold aggregate_qffl, py_get at 1.
  destruct (deltas !! 0%nat) as [delta0|]; [|done]. cbn [rbind].
  destruct (rmap _ (seq 0 (length delta0))) as [updates|] eqn:Hup; [|done]. cbn [rbind].
  intros Hws. exists delta0. split; [done|].
  rewrite (rmap_length _ _ _ Hws), length_zip.
  by rewrite (rmap_length _ _ _ Hup), length_seq.
Qed.

Lemma aggregate_qffl_layer_count_witness :
  ∃ delta0, [single 1%float] !! 0%nat = Some delta0
            ∧ length [mkArr [1%nat] [0%float]]
              = (length (two_layers (F := float)) `min` length delta0)%nat.
Proof.
  apply (aggregate_qffl_layer_count (F := float) two_layers [single 1%float] [1%float]).
  vm_compute. reflexivity.
Defined.

(** *** aggregate_and_spreadout *)

Lemma py_index_Ok {A} (l : list A) (i : Z) x :
  py_index l i = Ok x → x ∈ l ∧ - Z.of_nat (length l) ≤ i < Z.of_nat (length l).
Proof.
  unfold py_index. destruct (py_position (length l) i) as [k|] eqn:Hk; [|done].
  cbn [rbind]. unfold py_get. destruct (l !! k) as [y|] eqn:Hy; [|done].
  intros [= <-]. split; [by eapply list_elem_of_lookup_2|].
  by apply py_position_Ok in Hk as [? _].
Qed.

Section Placing.
Context {F : Type} `{Numeric F}.

Lemma set_row_Ok nf (E E' : list (list F)) cid (w : NDArray F) :
  set_row nf E cid w = Ok E' →
  - Z.of_nat (length E) ≤ cid < Z.of_nat (length E)
  ∧ length E' = length E
  ∧ (wf_array w → Forall (fun r => length r = nf) E → Forall (fun r => length r = nf) E').
Proof.
  unfold set_row. destruct (py_position (length E) cid) as [i|] eqn:Hi; [|done].
  cbn [rbind]. destruct (row_value nf w) as [r|] eqn:Hr; [|done]. cbn [rbind].
  intros [= <-]. apply py_position_Ok in Hi as [Hcid Hi]. split; [done|].
  split; [by rewrite length_insert|]. intros Hw HE.
  apply Forall_insert; [done|]. by eapply row_value_length.
Qed.

(** What must hold of the contributions for the loop that fills the
    embedding matrix to end without an error. *)
Lemma place_embeddings_Ok nf (E E' : list (list F)) (results : list (NDArrays F * Z * Z)) :
  place_embeddings nf E results = Ok E' →
  length E' = length E
  ∧ Forall (fun r => r.1.1 ≠ []
                     ∧ - Z.of_nat (length E) ≤ r.2 < Z.of_nat (length E)) results
  ∧ (Forall (fun r => Forall wf_array r.1.1) results →
     Forall (fun r => length r = nf) E → Forall (fun r => length r = nf) E').
Proof.
  unfold place_embeddings. revert E.
  induction results as [|[[weights n] cid] results IH]; intros E; cbn [rfold].
  - intros [= <-]. split; [done|]. split; [constructor|done].
  - destruct (py_index weights (-1)) as [w|] eqn:Hw; [|done]. cbn [rbind].
    destruct (set_row nf E cid w) as [E1|] eqn:HE1; [|done]. cbn [rbind].
    intros Hrest. destruct (IH E1 Hrest) as (Hlen & Hall & Hrows).
    apply set_row_Ok in HE1 as (Hcid & Hlen1 & Hrows1).
    apply py_index_Ok in Hw as [Hw _].
    split; [congruence|]. split.
    + constructor.
      * cbn [fst snd]. split; [|done]. intros ->. by apply elem_of_nil in Hw.
      * rewrite <- Hlen1. exact Hall.
    + intros Hwf HE. apply Forall_cons in Hwf as [Hwf0 Hwf]. cbn [fst] in Hwf0.
      apply Hrows; [done|]. apply Hrows1; [|done].
      eapply Forall_forall in Hwf0; [exact Hwf0|done].
Qed.

End Placing.

(** What a run of aggregate_and_spreadout that returns says of its input. *)
Lemma aggregate_and_spreadout_Ok {F : Type} `{Numeric F}
    (grad : F → Z → list (list F) → list (list F))
    (results : list (NDArrays F * Z * Z)) (num_clients num_features : Z) (nu lr : F) out :
  aggregate_and_spreadout grad results num_clients num_features nu lr = Ok out →
  0 ≤ num_clients ∧ 0 ≤ num_features
  ∧ Forall (fun r => r.1.1 ≠ [] ∧ - num_clients ≤ r.2 < num_clients) results.
Proof.
  unfold aggregate_and_spreadout.
  destruct ((num_clients <? 0) || (num_features <? 0)) eqn:Hdims; [done|].
  apply orb_false_iff in Hdims as [?%Z.ltb_ge ?%Z.ltb_ge]. cbn [rbind].
  destruct (place_embeddings _ _ results) as [E1|] eqn:HE1; [|done].
  intros _. split; [done|]. split; [done|].
  apply place_embeddings_Ok in HE1 as (_ & Hall & _).
  rewrite length_replicate, Z2Nat.id in Hall by done. exact Hall.
Qed.

(** X13: aggregate_and_spreadout returns only when the dimensions are not
    negative and every contribution has at least one layer and a client id
    that numpy accepts as a row index, from -num_clients up to
    num_clients - 1. *)
Theorem aggregate_and_spreadout_returns_only {F : Type} `{Numeric F}
    (grad : F → Z → list (list F) → list (list F))
    (results : list (NDArrays F * Z * Z)) (num_clients num_features : Z) (nu lr : F) out :
  aggregate_and_spreadout grad results num_clients num_features nu lr = Ok out →
  0 ≤ num_clients ∧ 0 ≤ num_features
  ∧ Forall (fun r => r.1.1 ≠ [] ∧ - num_clients ≤ r.2 < num_clients) results.
Proof. apply aggregate_and_spreadout_Ok. Qed.

Lemma aggregate_and_spreadout_returns_only_witness :
  0 ≤ 2 ∧ 0 ≤ 2
  ∧ Forall (fun r : NDArrays float * Z * Z => r.1.1 ≠ [] ∧ - 2 ≤ r.2 < 2)
           two_embedding_clients.
Proof.
  eapply (aggregate_and_spreadout_returns_only (F := float) zero_grad
            two_embedding_clients 2 2 1%float 0%float).
  vm_compute. reflexivity.
Defined.

Section Duplicates.
Context {F : Type} `{Numeric F}.

Lemma rfold_app {A B} (f : B → A → result B) (l l' : list A) acc :
  rfold f acc (l ++ l') = let* acc' := rfold f acc l in rfold f acc' l'.
Proof.
  revert acc. induction l as [|x l IH]; intros acc; [done|]. cbn [app rfold].
  destruct (f acc x); [|done]. cbn [rbind]. apply IH.
Qed.

Lemma rmap_app {A B} (f : A → result B) (l l' : list A) :
  rmap f (l ++ l') = let* ys := rmap f l in let* ys' := rmap f l' in Ok (ys ++ ys').
Proof.
  induction l as [|x l IH]; cbn [app rmap rbind].
  - by destruct (rmap f l').
  - destruct (f x); [|done]. cbn [rbind]. rewrite IH.
    destruct (rmap f l); [|done]. cbn [rbind]. by destruct (rmap f l').
Qed.

(** Two matrices that differ in row [i] at most are the same after the
    embeddings of [post] have been stored, if one of them goes to row [i]. *)
Lemma place_embeddings_overwrites nf i (post : list (NDArrays F * Z * Z)) :
  ∀ E1 E2 : list (list F),
    length E1 = length E2 →
    (∀ j, j ≠ i → E1 !! j = E2 !! j) →
    Exists (fun r => py_position (length E1) r.2 = Ok i) post →
    place_embeddings nf E1 post = place_embeddings nf E2 post.
Proof.
  unfold place_embeddings.
  induction post as [|[[weights n] cid] post IH]; intros E1 E2 Hlen Hagree Hex.
  { by apply Exists_nil in Hex. }
  cbn [rfold]. destruct (py_index weights (-1)) as [w|]; [|done]. cbn [rbind].
  unfold set_row. rewrite <- Hlen.
  destruct (py_position (length E1) cid) as [k|] eqn:Hk; [|done]. cbn [rbind].
  destruct (row_value nf w) as [row|]; [|done]. cbn [rbind].
  destruct (decide (k = i)) as [->|Hki].
  - assert (<[i := row]> E1 = <[i := row]> E2) as ->; [|done].
    apply list_eq. intros j. destruct (decide (j = i)) as [->|Hj].
    + apply py_position_Ok in Hk as [_ Hi].
      rewrite !list_lookup_insert_eq by lia. done.
    + rewrite !list_lookup_insert_ne by done. by apply Hagree.
  - apply IH.
    + by rewrite !length_insert.
    + intros j Hj. destruct (decide (j = k)) as [->|Hjk].
      * apply py_position_Ok in Hk as [_ Hk].
        rewrite !list_lookup_insert_eq by lia. done.
      * rewrite !list_lookup_insert_ne by done. by apply Hagree.
    + rewrite length_insert. apply Exists_cons in Hex as [Hhd|Htl]; [|done].
      cbn [snd] in Hhd. congruence.
Qed.

End Duplicates.

(** X15: A client id that is used again hides the embedding sent with it before:
    when a later contribution addresses the same row (the same id, or its
    negative counterpart), the embedding of the earlier one has no effect
    on what aggregate_and_spreadout returns or raises. *)
Theorem aggregate_and_spreadout_duplicate_id {F : Type} `{Numeric F}
    (grad : F → Z → list (list F) → list (list F))
    (pre post : list (NDArrays F * Z * Z)) (body : NDArrays F) (e1 e2 : NDArray F)
    (n cid num_clients num_features : Z) (nu lr : F) :
  is_ok (row_value (Z.to_nat num_features) e1) = true →
  is_ok (row_value (Z.to_nat num_features) e2) = true →
  Exists (fun r => is_ok (py_position (Z.to_nat num_clients) cid) = true
                   ∧ py_position (Z.to_nat num_clients) r.2
                     = py_position (Z.to_nat num_clients) cid) post →
  aggregate_and_spreadout grad (pre ++ (body ++ [e1], n, cid) :: post)
                          num_clients num_features nu lr
  = aggregate_and_spreadout grad (pre ++ (body ++ [e2], n, cid) :: post)
                            num_clients num_features nu lr.
Proof.
  intros He1 He2 Hex. unfold aggregate_and_spreadout.
  destruct ((num_clients <? 0) || (num_features <? 0)); [done|]. cbn [rbind].
  set (nc := Z.to_nat num_clients) in *. set (nf := Z.to_nat num_features) in *.
  assert (place_embeddings nf (replicate nc (replicate nf nzero))
            (pre ++ (body ++ [e1], n, cid) :: post)
          = place_embeddings nf (replicate nc (replicate nf nzero))
              (pre ++ (body ++ [e2], n, cid) :: post)) as ->.
  { unfold place_embeddings. rewrite !rfold_app.
    destruct (rfold _ (replicate nc (replicate nf nzero)) pre) as [E|] eqn:Hpre; [|done].
    cbn [rbind rfold]. rewrite !py_index_last. cbn [rbind]. unfold set_row.
    apply (place_embeddings_Ok nf _ E pre) in Hpre as (HlenE & _).
    rewrite length_replicate in HlenE. rewrite HlenE.
    destruct (py_position nc cid) as [i|] eqn:Hi; [|done]. cbn [rbind].
    destruct (row_value nf e1) as [r1|]; [|done].
    destruct (row_value nf e2) as [r2|]; [|done]. cbn [rbind].
    apply (place_embeddings_overwrites nf i).
    - by rewrite !length_insert.
    - intros j Hj. by rewrite !list_lookup_insert_ne.
    - rewrite length_insert, HlenE. eapply Exists_impl; [exact Hex|].
      intros r [_ Hr]. by rewrite Hr. }
  rewrite !rmap_app, !fmap_app, !fmap_cons. cbn [rmap]. by rewrite !py_init_snoc.
Qed.

Lemma aggregate_and_spreadout_duplicate_id_witness :
  aggregate_and_spreadout (F := float) zero_grad
    ([] ++ ([mkArr [1%nat] [1%float]] ++ [mkArr [2%nat] [3%float; 4%float]], 1, 0)
        :: [([mkArr [1%nat] [2%float]; mkArr [2%nat] [0%float; 5%float]], 1, -1)])
    1 2 1%float 0%float
  = aggregate_and_spreadout (F := float) zero_grad
      ([] ++ ([mkArr [1%nat] [1%float]] ++ [mkArr [2%nat] [6%float; 8%float]], 1, 0)
          :: [([mkArr [1%nat] [2%float]; mkArr [2%nat] [0%float; 5%float]], 1, -1)])
      1 2 1%float 0%float.
Proof.
  apply (aggregate_and_spreadout_duplicate_id (F := float)).
  - reflexivity.
  - reflexivity.
  - left. split; reflexivity.
Defined.

(** *** The engine on a store of shared arrays *)

Lemma store_aggregate_simulates_witness :
  simulates three_arrays
    (Store.aggregate [([1%nat], 1); ([1%nat], 3)])
    (aggregate [([mkArr [1%nat] [4%float]], 1); ([mkArr [1%nat] [4%float]], 3)])
    (fun σ' => Forall2 (points_to σ')).
Proof.
  apply (store_aggregate_simulates three_arrays). repeat constructor.
Defined.

Lemma store_aggregate_qffl_simulates_witness :
  simulates three_arrays
    (Store.aggregate_qffl [0%nat] [[1%nat]; [1%nat]] [1%float; 1%float])
    (aggregate_qffl (single 2%float) [single 4%float; single 4%float] [1%float; 1%float])
    (fun σ' => Forall2 (points_to σ')).
Proof.
  apply (store_aggregate_qffl_simulates three_arrays); repeat constructor.
Defined.

Lemma store_aggregate_and_spreadout_simulates_witness :
  simulates four_arrays
    (Store.aggregate_and_spreadout zero_grad [([0%nat; 3%nat], 1, 0); ([1%nat; 3%nat], 3, 1)]
       2 2 1%float 0%float)
    (aggregate_and_spreadout zero_grad
       [([mkArr [1%nat] [2%float]; mkArr [2%nat] [3%float; 4%float]], 1, 0);
        ([mkArr [1%nat] [4%float]; mkArr [2%nat] [3%float; 4%float]], 3, 1)]
       2 2 1%float 0%float)
    (fun σ' out out' => Forall2 (points_to σ') out.1 out'.1 ∧ points_to σ' out.2 out'.2).
Proof.
  apply (store_aggregate_and_spreadout_simulates four_arrays zero_grad).
  - repeat constructor.
  - apply zero_grad_keeps_shape.
  - repeat constructor.
Defined.

(** ** The client and the driver *)

Section ClientAndDriver.
Import FaceClient FlowerFaceClient FaceVerificationServer.
Context {F : Type} `{Numeric F}.
Variable int_of_float : F → result Z.
Variable int_of_text : string → result Z.
Variable float_of_text : string → result F.
Variable repr : PyValue F → string.
Variable Parameters : Type.
Variable parameters_to_ndarrays : Parameters → result (NDArrays F).
Variable ndarrays_to_parameters : NDArrays F → Parameters.
Variable Loader : Type.
Variable DataLoader : Z → result Loader.
Variable train : NDArrays F → Loader → Z → F → F → Criterion F → result (NDArrays F).

Local Abbreviation fit_ :=
  (fit int_of_float int_of_text float_of_text repr Parameters parameters_to_ndarrays
       ndarrays_to_parameters Loader DataLoader train).

(** What fit does with the configuration of the server. *)
Lemma fit_on_server_config_run (args : Args F) (rnd : Z) (ps : Parameters)
    (self : Client F) (log : list (Event F)) weights trainloader crit :
  parameters_to_ndarrays ps = Ok weights →
  DataLoader (batch_size args) = Ok trainloader →
  (criterion args = "CrossEntropy"%string ∧ crit = CrossEntropyLoss
   ∨ criterion args = "ArcFace"%string ∧ crit = ArcFaceLoss (scale args) (margin args)) →
  fit_ {| FaceClient.parameters := ps; FaceClient.config := fit_config args rnd |} (self, log)
  = match train weights trainloader (local_epochs args) (lr args) (weight_decay args) crit with
    | Ok weights_prime =>
        (({| net_weights := weights_prime; trainset_len := trainset_len self |},
          log ++ [SetWeights weights; MakeLoader (batch_size args);
                  Train (local_epochs args) (lr args) (weight_decay args) crit]),
         Ok {| FaceClient.status := "Success fit";
               parameters_prime := ndarrays_to_parameters weights_prime;
               FaceClient.num_examples := trainset_len self;
               FaceClient.metrics := ∅ |})
    | Err e =>
        (({| net_weights := weights; trainset_len := trainset_len self |},
          log ++ [SetWeights weights; MakeLoader (batch_size args);
                  Train (local_epochs args) (lr args) (weight_decay args) crit]),
         Err e)
    end.
Proof.
  intros Hps Hloader Hcrit.
  unfold fit, cbind, lift. cbn [fst snd FaceClient.parameters FaceClient.config].
  rewrite Hps.
  change (dict_get (fit_config args rnd) "local_epochs") with (Ok (VInt (F := F) (local_epochs args))).
  change (dict_get (fit_config args rnd) "batch_size") with (Ok (VInt (F := F) (batch_size args))).
  change (dict_get (fit_config args rnd) "lr") with (Ok (VFloat (lr args))).
  change (dict_get (fit_config args rnd) "weight_decay") with (Ok (VFloat (weight_decay args))).
  change (dict_get (fit_config args rnd) "criterion_name") with (Ok (VStr (F := F) (criterion args))).
  change (dict_get (fit_config args rnd) "scale") with (Ok (VFloat (scale args))).
  change (dict_get (fit_config args rnd) "margin") with (Ok (VFloat (margin args))).
  cbn [rbind py_int py_float py_str assert_not_None].
  unfold set_weights, make_loader, cbind, emit, lift. cbn [fst snd].
  rewrite Hloader.
  destruct Hcrit as [[-> ->] | [-> ->]].
  - replace (String.eqb "CrossEntropy" "CrossEntropy") with true by reflexivity.
    unfold cret, run_train, cbind, emit, get_weights. cbn [fst snd net_weights trainset_len].
    rewrite <- !app_assoc. cbn [app].
    destruct (train weights trainloader _ _ _ _); reflexivity.
  - replace (String.eqb "ArcFace" "CrossEntropy") with false by reflexivity.
    replace (String.eqb "ArcFace" "ArcFace") with true by reflexivity.
    unfold cret, run_train, cbind, emit, get_weights. cbn [fst snd net_weights trainset_len].
    rewrite <- !app_assoc. cbn [app].
    destruct (train weights trainloader _ _ _ _); reflexivity.
Qed.

(** X16: What the server's configuration makes of fit: with the entries that
    fit_config sends, a criterion among the choices of the command line,
    parameters that decode and a loader that is built, fit replaces the
    weights of the net, builds the loader and calls train with the server's
    epochs, rate, decay and criterion, in this order; it returns what train
    left in the net, with the size of the training set, or raises what train
    raises.  No entry is missing and no guard fails. *)
Theorem fit_on_server_config (args : Args F) (rnd : Z) (ps : Parameters)
    (self : Client F) (log : list (Event F)) weights trainloader crit :
  parameters_to_ndarrays ps = Ok weights →
  DataLoader (batch_size args) = Ok trainloader →
  (criterion args = "CrossEntropy"%string ∧ crit = CrossEntropyLoss
   ∨ criterion args = "ArcFace"%string ∧ crit = ArcFaceLoss (scale args) (margin args)) →
  fit_ {| FaceClient.parameters := ps; FaceClient.config := fit_config args rnd |} (self, log)
  = match train weights trainloader (local_epochs args) (lr args) (weight_decay args) crit with
    | Ok weights_prime =>
        (({| net_weights := weights_prime; trainset_len := trainset_len self |},
          log ++ [SetWeights weights; MakeLoader (batch_size args);
                  Train (local_epochs args) (lr args) (weight_decay args) crit]),
         Ok {| FaceClient.status := "Success fit";
               parameters_prime := ndarrays_to_parameters weights_prime;
               FaceClient.num_examples := trainset_len self;
               FaceClient.metrics := ∅ |})
    | Err e =>
        (({| net_weights := weights; trainset_len := trainset_len self |},
          log ++ [SetWeights weights; MakeLoader (batch_size args);
                  Train (local_epochs args) (lr args) (weight_decay args) crit]),
         Err e)
    end.
Proof. apply fit_on_server_config_run. Qed.

(** One step of reading the common entries: the entry converts, or what is
    raised contradicts that the entry is the server's. *)
Ltac read_entry :=
  match goal with
  | |- context [rbind (dict_get ?cfg ?k) ?f] =>
      let He := fresh "He" in
      destruct (rbind (dict_get cfg k) f) as [?|?e0] eqn:He;
      [|exists e0; split; [done|]; intros _ Hcfg; exfalso; revert He; unfold dict_get;
        rewrite (Hcfg k) by (unfold common_entries; set_solver); done]
  end.

(** X17: An entry that fit reads for every loss is missing: fit raises before it
    touches the client (the weights of the net are as they were and nothing
    is logged).  When the parameters decode and the other common entries are
    those of the server, what it raises is the KeyError of the missing
    entry. *)
Theorem fit_missing_common_entry (ins : FitIns F Parameters)
    (st : Client F * list (Event F)) (k : string) (args : Args F) (rnd : Z) :
  k ∈ common_entries →
  FaceClient.config ins !! k = None →
  ∃ e, fit_ ins st = (st, Err e)
       ∧ (is_ok (parameters_to_ndarrays (FaceClient.parameters ins)) = true →
          (∀ k', k' ∈ common_entries → k' ≠ k →
                 FaceClient.config ins !! k' = fit_config args rnd !! k') →
          e = KeyError k).
Proof.
  intros Hk Hmiss. destruct st as [self log].
  unfold fit, cbind, lift. cbn [fst snd].
  destruct (parameters_to_ndarrays (FaceClient.parameters ins)) as [weights|e0];
    [|by exists e0].
  unfold common_entries in Hk.
  repeat (apply elem_of_cons in Hk as [->|Hk]); [..|by apply elem_of_nil in Hk].
  all: repeat first
    [ progress (unfold dict_get at 1; rewrite Hmiss; cbn [rbind]);
      eexists; split; [reflexivity|done]
    | read_entry ].
Qed.

(** X18: A criterion name that fit does not know leaves [criterion] unbound:
    fit replaces the weights of the net and builds the loader, then raises
    UnboundLocalError where the call of train reads the variable; train is
    not called. *)
Theorem fit_unknown_criterion (args : Args F) (rnd : Z) (ps : Parameters)
    (self : Client F) (log : list (Event F)) weights trainloader :
  parameters_to_ndarrays ps = Ok weights →
  DataLoader (batch_size args) = Ok trainloader →
  criterion args ≠ "CrossEntropy"%string →
  criterion args ≠ "ArcFace"%string →
  fit_ {| FaceClient.parameters := ps; FaceClient.config := fit_config args rnd |} (self, log)
  = (({| net_weights := weights; trainset_len := trainset_len self |},
      log ++ [SetWeights weights; MakeLoader (batch_size args)]),
     Err UnboundLocalError).
Proof.
  intros Hps Hloader Hce Harc.
  unfold fit, cbind, lift. cbn [fst snd FaceClient.parameters FaceClient.config].
  rewrite Hps.
  change (dict_get (fit_config args rnd) "local_epochs") with (Ok (VInt (F := F) (local_epochs args))).
  change (dict_get (fit_config args rnd) "batch_size") with (Ok (VInt (F := F) (batch_size args))).
  change (dict_get (fit_config args rnd) "lr") with (Ok (VFloat (lr args))).
  change (dict_get (fit_config args rnd) "weight_decay") with (Ok (VFloat (weight_decay args))).
  change (dict_get (fit_config args rnd) "criterion_name") with (Ok (VStr (F := F) (criterion args))).
  cbn [rbind py_int py_float py_str].
  unfold set_weights, make_loader, cbind, emit, lift. cbn [fst snd].
  rewrite Hloader.
  apply String.eqb_neq in Hce, Harc. rewrite Hce, Harc.
  unfold cret. cbn [fst snd]. by rewrite <- app_assoc.
Qed.

(** The end of fit, from the call of train on. *)
Ltac fit_end :=
  unfold cret, run_train, cbind, emit, lift, get_weights;
  cbn [fst snd net_weights trainset_len];
  match goal with
  | |- context [train ?w ?l ?e ?lr ?wd ?c] =>
      let Htrain := fresh "Htrain" in
      destruct (train w l e lr wd c) as [?|] eqn:Htrain; [|done];
      cbn [fst snd net_weights trainset_len]; intros [= <- <-];
      exists w, l, e, lr, wd, c; by rewrite Htrain
  end.

(** What a fit that returns has done: train has returned the weights that
    the net holds and that the result carries. *)
Lemma fit_returns_inv (ins : FitIns F Parameters) (st st' : Client F * list (Event F)) res :
  fit_ ins st = (st', Ok res) →
  ∃ weights trainloader epochs lr0 wd crit,
    train weights trainloader epochs lr0 wd crit = Ok (net_weights st'.1)
    ∧ parameters_prime _ res = ndarrays_to_parameters (net_weights st'.1)
    ∧ FaceClient.num_examples _ res = trainset_len st.1
    ∧ trainset_len st'.1 = trainset_len st.1.
Proof.
  destruct st as [self log]. unfold fit, cbind, lift. cbn [fst snd].
  destruct (parameters_to_ndarrays _) as [weights|]; [|done].
  destruct (let* v := dict_get _ "local_epochs" in _) as [epochs|]; [|done].
  destruct (let* v := dict_get _ "batch_size" in _) as [bs|]; [|done].
  destruct (let* v := dict_get _ "lr" in _) as [lr0|]; [|done].
  destruct (let* v := dict_get _ "weight_decay" in _) as [wd|]; [|done].
  destruct (let* v := dict_get _ "criterion_name" in _) as [name|]; [|done].
  unfold set_weights, make_loader, cbind, emit, lift. cbn [fst snd].
  destruct (DataLoader bs) as [trainloader|]; [|done].
  destruct (String.eqb name "CrossEntropy"); [fit_end|].
  destruct (String.eqb name "ArcFace"); [|done].
  destruct (let* v := dict_get _ "scale" in assert_not_None v); [|done].
  destruct (let* v := dict_get _ "margin" in assert_not_None v); [|done].
  destruct (let* v := dict_get _ "scale" in py_float _ v); [|done].
  destruct (let* v := dict_get _ "margin" in py_float _ v); [|done].
  fit_end.
Qed.

End ClientAndDriver.

(** *** evaluate *)

Section ClientEvaluate.
Import FaceClient FlowerFaceClient.
Context {F : Type} `{Numeric F}.
Variable int_of_float : F → result Z.
Variable int_of_text : string → result Z.
Variable float_of_text : string → result F.
Variable Parameters : Type.
Variable parameters_to_ndarrays : Parameters → result (NDArrays F).
Variable ndarrays_to_parameters : NDArrays F → Parameters.
Variable Loader : Type.
Variable testset_len : Z.
Variable DataLoader : Z → result Loader.
Variable test : NDArrays F → Loader → result (list (string * PyValue F)).

Local Abbreviation evaluate_ :=
  (evaluate int_of_float int_of_text float_of_text Parameters parameters_to_ndarrays
            Loader testset_len DataLoader test).

(** X20: evaluate overwrites the model of the client: once the parameters have
    decoded and the batch size has been read, the net holds the parameters
    that came with the instruction, whether the evaluation then returns or
    raises, and get_parameters gives them back; what the client had trained
    is gone. *)
Theorem evaluate_replaces_model (ins : EvaluateIns F Parameters)
    (st : Client F * list (Event F)) weights :
  parameters_to_ndarrays (parameters ins) = Ok weights →
  is_ok (let* v := dict_get (config ins) "batch_size" in
         py_int int_of_float int_of_text v) = true →
  net_weights (evaluate_ ins st).1.1 = weights
  ∧ get_parameters Parameters ndarrays_to_parameters (evaluate_ ins st).1
    = ((evaluate_ ins st).1, Ok (ndarrays_to_parameters weights)).
Proof.
  intros Hps Hbs. destruct st as [self log].
  assert (net_weights (evaluate_ ins (self, log)).1.1 = weights) as Hw.
  { unfold evaluate, cbind, lift. cbn [fst snd]. rewrite Hps.
    destruct (let* v := dict_get _ "batch_size" in _) as [bs|]; [|done].
    unfold set_weights, get_weights, cret. cbn [fst snd net_weights].
    destruct (DataLoader bs) as [testloader|]; [|done].
    destruct (test weights testloader) as [results|]; [|done].
    destruct (items_get results "loss") as [l|]; [|done].
    destruct (items_get results "acc") as [a|]; [|done].
    by destruct (py_float float_of_text l). }
  split; [done|]. unfold get_parameters, cbind, get_weights, cret. by rewrite Hw.
Qed.

End ClientEvaluate.

(** *** The methods with the train and the test of the driver *)

Section WithDriver.
Import FaceClient FlowerFaceClient FaceVerificationServer.
Context {F : Type} `{Numeric F}.
Variable int_of_float : F → result Z.
Variable int_of_text : string → result Z.
Variable float_of_text : string → result F.
Variable repr : PyValue F → string.
Variable Parameters : Type.
Variable parameters_to_ndarrays : Parameters → result (NDArrays F).
Variable ndarrays_to_parameters : NDArrays F → Parameters.
Variable Batch : Type.
Variable Loader : Type.
Variable iterate : Loader → list Batch * Loader.
Variable sgd_batch : F → NDArrays F → Batch → result (NDArrays F).
Variable batch_loss : NDArrays F → Batch → result F.
Variable batch_len : Batch → Z.
Variable batch_correct : NDArrays F → Batch → Z.
Variable testset_len : Z.
Variable DataLoader_trainset : Z → result Loader.
Variable DataLoader_testset : Z → result Loader.
Variable device : string.

Local Abbreviation train_call_ := (train_call Batch Loader iterate sgd_batch device).
Local Abbreviation test_call_ :=
  (test_call Batch Loader iterate batch_loss batch_len batch_correct).
Local Abbreviation fit_with_driver_ :=
  (fit_with_driver int_of_float int_of_text float_of_text repr Parameters
     parameters_to_ndarrays ndarrays_to_parameters Batch Loader iterate sgd_batch
     DataLoader_trainset device).
Local Abbreviation evaluate_with_driver_ :=
  (evaluate_with_driver int_of_float int_of_text float_of_text Parameters
     parameters_to_ndarrays Batch Loader iterate batch_loss batch_len batch_correct
     testset_len DataLoader_testset).

(** The call of train in fit passes the keywords [weight_decay] and
    [criterion], which the train of the driver does not take. *)
Lemma train_call_TypeError net trainloader epochs lr0 wd crit :
  train_call_ net trainloader epochs lr0 wd crit = Err TypeError.
Proof. reflexivity. Qed.

(** The call of test in evaluate binds: [steps] and [device] take their
    defaults. *)
Lemma test_call_binds net testloader :
  test_call_ net testloader
  = Driver.test Batch Loader iterate batch_loss batch_len batch_correct net testloader.
Proof. reflexivity. Qed.

(** X21: With the train of src/driver.py, fit cannot return a FitRes: its call
    passes [weight_decay=] and [criterion=], train has no such parameters,
    and Python raises TypeError before the body of train runs.  On the
    configuration of the server (with parameters that decode and a loader
    that is built) this TypeError is what fit raises, after it has replaced
    the weights of the net. *)
Theorem fit_with_driver_raises_TypeError :
  (∀ ins st, is_ok (fit_with_driver_ ins st).2 = false)
  ∧ (∀ (args : Args F) (rnd : Z) (ps : Parameters) (self : Client F)
       (log : list (Event F)) weights trainloader crit,
       parameters_to_ndarrays ps = Ok weights →
       DataLoader_trainset (batch_size args) = Ok trainloader →
       (criterion args = "CrossEntropy"%string ∧ crit = CrossEntropyLoss
        ∨ criterion args = "ArcFace"%string
          ∧ crit = ArcFaceLoss (scale args) (margin args)) →
       fit_with_driver_
         {| FaceClient.parameters := ps; FaceClient.config := fit_config args rnd |}
         (self, log)
       = (({| net_weights := weights; trainset_len := trainset_len self |},
           log ++ [SetWeights weights; MakeLoader (batch_size args);
                   Train (local_epochs args) (lr args) (weight_decay args) crit]),
          Err TypeError)).
Proof.
  split.
  - intros ins st. destruct (fit_with_driver_ ins st) as [st' [res|e]] eqn:Hfit; [|done].
    exfalso. unfold fit_with_driver in Hfit.
    apply fit_returns_inv in Hfit as (w & l & e & lr0 & wd & c & Htrain & _).
    by rewrite train_call_TypeError in Htrain.
  - intros args rnd ps self log weights trainloader crit Hps Hloader Hcrit.
    unfold fit_with_driver.
    rewrite (fit_on_server_config_run _ _ _ _ _ _ _ _ _ _ args rnd ps self log weights
               trainloader crit Hps Hloader Hcrit).
    by rewrite train_call_TypeError.
Qed.

(** X22: What evaluate makes of the configuration of the server and the test of
    the driver: with parameters that decode and a loader that is built, it
    replaces the weights of the net and returns the loss and the accuracy
    that test computes on them, with the size of the test set, or raises
    what test raises.  The call of test binds, the entries [loss] and [acc]
    are found, and [val_steps] is not read. *)
Theorem evaluate_on_server_config (args : Args F) (rnd : Z) (ps : Parameters)
    (self : Client F) (log : list (Event F)) weights testloader :
  parameters_to_ndarrays ps = Ok weights →
  DataLoader_testset (batch_size args) = Ok testloader →
  evaluate_with_driver_ {| parameters := ps; config := eval_config args rnd |} (self, log)
  = (({| net_weights := weights; trainset_len := trainset_len self |},
      log ++ [SetWeights weights]),
     result_map (fun scores : F * F =>
                   {| status := "Success eval";
                      loss := scores.1;
                      num_examples := testset_len;
                      metrics := {[ "accuracy" := VFloat scores.2 ]} |})
                (Driver.test_scores Batch Loader iterate batch_loss batch_len
                                    batch_correct weights testloader)).
Proof.
  intros Hps Hloader.
  unfold evaluate_with_driver, evaluate, cbind, lift. cbn [fst snd parameters config].
  rewrite Hps.
  change (dict_get (eval_config args rnd) "batch_size") with (Ok (VInt (F := F) (batch_size args))).
  cbn [rbind py_int]. unfold set_weights, get_weights, cret. cbn [fst snd net_weights].
  rewrite Hloader, test_call_binds. unfold Driver.test.
  destruct (Driver.test_scores _ _ _ _ _ _ weights testloader) as [[L A]|e]; [|done].
  reflexivity.
Qed.

End WithDriver.

(** *** The methods on the example *)

Lemma fit_on_server_config_witness :
  ClientExample.run_fit
    (ClientExample.fit_ins (FaceVerificationServer.fit_config ClientExample.default_args 1))
    ClientExample.client
  = (({| FaceClient.net_weights := single 1%float; FaceClient.trainset_len := 100 |},
      [FaceClient.SetWeights (single 1%float); FaceClient.MakeLoader 10;
       FaceClient.Train 5 0x1.47ae147ae147bp-7%float 0%float FaceClient.CrossEntropyLoss]),
     Ok {| FaceClient.status := "Success fit";
           FaceClient.parameters_prime := single 1%float;
           FaceClient.num_examples := 100;
           FaceClient.metrics := ∅ |}).
Proof.
  apply (fit_on_server_config
           (fun _ => Err TypeError) (fun _ => Err ValueError) (fun _ => Err ValueError)
           (fun _ => ""%string) (NDArrays float) Ok (fun w => w) ClientExample.Loader
           ClientExample.DataLoader ClientExample.train ClientExample.default_args 1
           (single 1%float) ClientExample.client.1 [] (single 1%float)
           ClientExample.two_batches FaceClient.CrossEntropyLoss).
  - reflexivity.
  - reflexivity.
  - left. split; reflexivity.
Defined.

Lemma fit_missing_common_entry_witness :
  ∃ e, ClientExample.run_fit
         (ClientExample.fit_ins
            (delete "lr" (FaceVerificationServer.fit_config ClientExample.default_args 1)))
         ClientExample.client
       = (ClientExample.client, Err e)
       ∧ e = KeyError "lr".
Proof.
  destruct (fit_missing_common_entry
              (fun _ => Err TypeError) (fun _ => Err ValueError) (fun _ => Err ValueError)
              (fun _ => ""%string) (NDArrays float) Ok (fun w => w) ClientExample.Loader
              ClientExample.DataLoader ClientExample.train
              (ClientExample.fit_ins
                 (delete "lr"
                    (FaceVerificationServer.fit_config ClientExample.default_args 1)))
              ClientExample.client "lr" ClientExample.default_args 1)
    as (e & Hfit & He).
  - unfold common_entries. set_solver.
  - reflexivity.
  - exists e. split; [exact Hfit|]. apply He; [reflexivity|].
    intros k' Hk' Hne. unfold common_entries in Hk'.
    repeat (apply elem_of_cons in Hk' as [->|Hk']); [..|by apply elem_of_nil in Hk'];
      done.
Defined.

Lemma fit_unknown_criterion_witness :
  ClientExample.run_fit
    (ClientExample.fit_ins (FaceVerificationServer.fit_config ClientExample.triplet_args 1))
    ClientExample.client
  = (({| FaceClient.net_weights := single 1%float; FaceClient.trainset_len := 100 |},
      [FaceClient.SetWeights (single 1%float); FaceClient.MakeLoader 10]),
     Err UnboundLocalError).
Proof.
  apply (fit_unknown_criterion
           (fun _ => Err TypeError) (fun _ => Err ValueError) (fun _ => Err ValueError)
           (fun _ => ""%string) (NDArrays float) Ok (fun w => w) ClientExample.Loader
           ClientExample.DataLoader ClientExample.train ClientExample.triplet_args 1
           (single 1%float) ClientExample.client.1 [] (single 1%float)
           ClientExample.two_batches).
  - reflexivity.
  - reflexivity.
  - discriminate.
  - discriminate.
Defined.

Lemma evaluate_replaces_model_witness :
  FaceClient.net_weights
    (ClientExample.run_evaluate_failing
       (ClientExample.evaluate_ins
          (FaceVerificationServer.eval_config ClientExample.default_args 1))
       ClientExample.client).1.1
  = single 1%float
  ∧ FlowerFaceClient.get_parameters (NDArrays float) (fun w => w)
      (ClientExample.run_evaluate_failing
         (ClientExample.evaluate_ins
            (FaceVerificationServer.eval_config ClientExample.default_args 1))
         ClientExample.client).1
    = ((ClientExample.run_evaluate_failing
          (ClientExample.evaluate_ins
             (FaceVerificationServer.eval_config ClientExample.default_args 1))
          ClientExample.client).1,
       Ok (single 1%float)).
Proof.
  apply (evaluate_replaces_model
           (fun _ => Err TypeError) (fun _ => Err ValueError) (fun _ => Err ValueError)
           (NDArrays float) Ok (fun w => w) ClientExample.Loader 25
           ClientExample.DataLoader (fun _ _ => Err ZeroDivisionError)
           (ClientExample.evaluate_ins
              (FaceVerificationServer.eval_config ClientExample.default_args 1))
           ClientExample.client (single 1%float)).
  - reflexivity.
  - reflexivity.
Defined.

Lemma evaluate_on_server_config_witness :
  ClientExample.run_evaluate
    (ClientExample.evaluate_ins
       (FaceVerificationServer.eval_config ClientExample.default_args 1))
    ClientExample.client
  = (({| FaceClient.net_weights := single 1%float; FaceClient.trainset_len := 100 |},
      [FaceClient.SetWeights (single 1%float)]),
     Ok {| FlowerFaceClient.status := "Success eval";
           FlowerFaceClient.loss := 2%float;
           FlowerFaceClient.num_examples := 25;
           FlowerFaceClient.metrics :=
             {[ "accuracy" := VFloat 0x1.999999999999ap-1%float ]} |}).
Proof.
  etransitivity.
  - apply (evaluate_on_server_config
             (fun _ => Err TypeError) (fun _ => Err ValueError) (fun _ => Err ValueError)
             (NDArrays float) Ok ClientExample.Batch ClientExample.Loader
             ClientExample.iterate ClientExample.batch_loss ClientExample.batch_len
             ClientExample.batch_correct 25 ClientExample.DataLoader
             ClientExample.default_args 1 (single 1%float) ClientExample.client.1 []
             (single 1%float) ClientExample.two_batches); reflexivity.
  - vm_compute. reflexivity.
Defined.

Lemma fit_with_driver_raises_TypeError_witness :
  FlowerFaceClient.fit_with_driver
    (fun _ => Err TypeError) (fun _ => Err ValueError) (fun _ => Err ValueError)
    (fun _ => ""%string) (NDArrays float) Ok (fun w => w) ClientExample.Batch
    ClientExample.Loader ClientExample.iterate ClientExample.sgd_batch
    ClientExample.DataLoader "cpu"
    (ClientExample.fit_ins (FaceVerificationServer.fit_config ClientExample.default_args 1))
    ClientExample.client
  = (({| FaceClient.net_weights := single 1%float; FaceClient.trainset_len := 100 |},
      [FaceClient.SetWeights (single 1%float); FaceClient.MakeLoader 10;
       FaceClient.Train 5 0x1.47ae147ae147bp-7%float 0%float FaceClient.CrossEntropyLoss]),
     Err TypeError).
Proof.
  apply (proj2 (fit_with_driver_raises_TypeError
                  (fun _ => Err TypeError) (fun _ => Err ValueError)
                  (fun _ => Err ValueError) (fun _ => ""%string) (NDArrays float) Ok
                  (fun w => w) ClientExample.Batch ClientExample.Loader
                  ClientExample.iterate ClientExample.sgd_batch ClientExample.DataLoader
                  "cpu")
               ClientExample.default_args 1 (single 1%float) ClientExample.client.1 []
               (single 1%float) ClientExample.two_batches FaceClient.CrossEntropyLoss).
  - reflexivity.
  - reflexivity.
  - left. split; reflexivity.
Defined.

(** ** The driver *)

Section DriverFacts.
Context {F : Type} `{Numeric F}.
Variable Batch : Type.
Variable Loader : Type.
Variable iterate : Loader → list Batch * Loader.
Variable sgd_batch : F → NDArrays F → Batch → result (NDArrays F).
Variable batch_loss : NDArrays F → Batch → result F.
Variable batch_len : Batch → Z.
Variable batch_correct : NDArrays F → Batch → Z.

Local Abbreviation train_ := (Driver.train Batch Loader iterate sgd_batch).
Local Abbreviation test_scores_ :=
  (Driver.test_scores Batch Loader iterate batch_loss batch_len batch_correct).

(** The loop of [test]: the counters after the batches. *)
Lemma test_loop net (batches : list Batch) (losses : list F) correct total steps loss0 :
  rmap (batch_loss net) batches = Ok losses →
  rfold (fun '(correct, total, steps, loss) batch =>
           let* l := batch_loss net batch in
           Ok (correct + batch_correct net batch, total + batch_len batch,
               steps + 1, nadd loss l))
        (correct, total, steps, loss0) batches
  = Ok (correct + foldr Z.add 0 (batch_correct net <$> batches),
        total + foldr Z.add 0 (batch_len <$> batches),
        steps + Z.of_nat (length batches),
        foldl nadd loss0 losses).
Proof.
  revert losses correct total steps loss0.
  induction batches as [|b bs IH]; intros losses correct total steps loss0; cbn [rmap rfold].
  - intros [= <-]. cbn. do 3 f_equal; [f_equal|..]; lia.
  - destruct (batch_loss net b) as [l|]; [|done]. cbn [rbind].
    destruct (rmap (batch_loss net) bs) as [ls|] eqn:Hls; [|done]. cbn [rbind].
    intros [= <-]. rewrite (IH ls) by done. cbn [fmap list_fmap foldr foldl length].
    do 3 f_equal; [f_equal|..]; lia.
Qed.

(** The scores of test from the counters of its loop. *)
Lemma test_scores_closed_form net testloader (losses : list F) :
  rmap (batch_loss net) (iterate testloader).1 = Ok losses →
  test_scores_ net testloader
  = if decide ((iterate testloader).1 = []) then Err ZeroDivisionError
    else if decide (foldr Z.add 0 (batch_len <$> (iterate testloader).1) = 0)
         then Err ZeroDivisionError
         else Ok (ndiv (foldl nadd nzero losses)
                       (of_int (Z.of_nat (length (iterate testloader).1))),
                  ndiv (of_int (foldr Z.add 0 (batch_correct net <$> (iterate testloader).1)))
                       (of_int (foldr Z.add 0 (batch_len <$> (iterate testloader).1)))).
Proof.
  unfold Driver.test_scores. destruct (iterate testloader) as [batches loader'].
  cbn [fst]. intros Hlosses. rewrite (test_loop _ _ losses) by done. cbn [rbind].
  rewrite !Z.add_0_l. unfold py_truediv.
  destruct (decide (batches = [])) as [->|Hne]; [done|].
  destruct (Z.eqb_spec (Z.of_nat (length batches)) 0) as [Hz|_].
  { destruct batches; [done|]. cbn in Hz. lia. }
  cbn [rbind].
  destruct (decide (foldr Z.add 0 (batch_len <$> batches) = 0)) as [->|Ht]; [done|].
  destruct (Z.eqb_spec (foldr Z.add 0 (batch_len <$> batches)) 0) as [|_]; done.
Qed.

(** X23: What test computes, when the net runs on every batch: the loss is the
    mean of the losses of the batches (not of the examples), the accuracy is
    the share of correct predictions among the examples, and a loader
    without a batch or without an example makes it raise
    ZeroDivisionError. *)
Theorem test_scores_value net testloader (losses : list F) :
  rmap (batch_loss net) (iterate testloader).1 = Ok losses →
  test_scores_ net testloader
  = if decide ((iterate testloader).1 = []) then Err ZeroDivisionError
    else if decide (foldr Z.add 0 (batch_len <$> (iterate testloader).1) = 0)
         then Err ZeroDivisionError
         else Ok (ndiv (foldl nadd nzero losses)
                       (of_int (Z.of_nat (length (iterate testloader).1))),
                  ndiv (of_int (foldr Z.add 0 (batch_correct net <$> (iterate testloader).1)))
                       (of_int (foldr Z.add 0 (batch_len <$> (iterate testloader).1)))).
Proof. apply test_scores_closed_form. Qed.

Lemma rfold_const_seq {A} (f : A → result A) (st : A) (i j n : nat) :
  rfold (fun st (_ : nat) => f st) st (seq i n) = rfold (fun st (_ : nat) => f st) st (seq j n).
Proof.
  revert st i j. induction n as [|n IH]; intros st i j; [done|]. cbn [seq rfold].
  destruct (f st); [|done]. cbn [rbind]. apply IH.
Qed.

Lemma sgd_batches_length lr0 (batches : list Batch) :
  (∀ lr w b w', sgd_batch lr w b = Ok w' → length w' = length w) →
  ∀ w w', rfold (sgd_batch lr0) w batches = Ok w' → length w' = length w.
Proof.
  intros Hstep. induction batches as [|b bs IH]; intros w w'; cbn [rfold].
  - by intros [= <-].
  - destruct (sgd_batch lr0 w b) as [w1|] eqn:Hb; [|done]. cbn [rbind].
    intros Hrest. rewrite (IH _ _ Hrest). by eapply Hstep.
Qed.

Lemma train_epochs_length lr0 (epochs : list nat) :
  (∀ lr w b w', sgd_batch lr w b = Ok w' → length w' = length w) →
  ∀ st st', rfold (fun st (_ : nat) => Driver.train_epoch Batch Loader iterate sgd_batch lr0 st)
              st epochs = Ok st' →
            length st'.1 = length st.1.
Proof.
  intros Hstep. induction epochs as [|i epochs IH]; intros st st'; cbn [rfold].
  - by intros [= <-].
  - destruct (Driver.train_epoch Batch Loader iterate sgd_batch lr0 st) as [st1|] eqn:Hst1;
      [|done].
    cbn [rbind]. intros Hrest. rewrite (IH _ _ Hrest).
    unfold Driver.train_epoch in Hst1. destruct (iterate st.2) as [batches loader].
    destruct (rfold (sgd_batch lr0) st.1 batches) as [w1|] eqn:Hw1; [|done].
    cbn [rbind] in Hst1. injection Hst1 as <-. cbn [fst].
    by eapply sgd_batches_length.
Qed.

(** X24: train builds its optimizer first, and torch.optim.SGD raises
    ValueError for a negative learning rate and for a net without
    parameters, whatever the number of epochs.  Otherwise, with training
    steps that keep the number of parameters: train on a number of epochs
    that is not positive leaves the net and the loader as they are, and
    training for [a + b] epochs is training for [a] epochs and then, with
    the net and the loader they leave, for [b]. *)
Theorem train_epochs_compose net trainloader lr0 :
  (∀ lr w b w', sgd_batch lr w b = Ok w' → length w' = length w) →
  (nltb lr0 nzero = true ∨ net = [] →
   ∀ epochs, Driver.train Batch Loader iterate sgd_batch net trainloader epochs lr0
             = Err ValueError)
  ∧ (nltb lr0 nzero = false → net ≠ [] →
     (∀ epochs, epochs ≤ 0 →
        Driver.train Batch Loader iterate sgd_batch net trainloader epochs lr0
        = Ok (net, trainloader))
     ∧ (∀ a b, 0 ≤ a → 0 ≤ b →
          Driver.train Batch Loader iterate sgd_batch net trainloader (a + b) lr0
          = let* st := Driver.train Batch Loader iterate sgd_batch net trainloader a lr0 in
            Driver.train Batch Loader iterate sgd_batch st.1 st.2 b lr0)).
Proof.
  intros Hstep. split.
  - intros Hbad epochs. unfold Driver.train, Driver.make_optimizer.
    destruct (nltb lr0 nzero); [done|]. destruct Hbad as [Hbad| ->]; [done|].
    by destruct (decide _).
  - intros Hlr Hnet. unfold Driver.train at 1 2 3, Driver.make_optimizer. rewrite Hlr.
    destruct (decide (net = [])) as [|_]; [done|]. cbn [rbind]. split.
    + intros epochs He. by rewrite Z2Nat.nonpos.
    + intros a b Ha Hb. rewrite Z2Nat.inj_add by done.
      rewrite seq_app, rfold_app. cbn [Nat.add].
      destruct (rfold _ (net, trainloader) (seq 0 (Z.to_nat a)))
        as [[net1 loader1]|] eqn:Ha1; [|done].
      cbn [rbind fst snd]. unfold Driver.train, Driver.make_optimizer. rewrite Hlr.
      apply (train_epochs_length _ _ Hstep) in Ha1. cbn [fst] in Ha1.
      destruct (decide (net1 = [])) as [->|_].
      { destruct net; [done|]. cbn in Ha1. lia. }
      cbn [rbind]. apply rfold_const_seq.
Qed.

End DriverFacts.

Lemma test_scores_value_witness :
  Driver.test_scores ClientExample.Batch ClientExample.Loader ClientExample.iterate
    ClientExample.batch_loss ClientExample.batch_len ClientExample.batch_correct
    (single 1%float) ClientExample.two_batches
  = Ok (2%float, 0x1.999999999999ap-1%float).
Proof.
  etransitivity.
  - apply (test_scores_value ClientExample.Batch ClientExample.Loader ClientExample.iterate
             ClientExample.batch_loss ClientExample.batch_len ClientExample.batch_correct
             (single 1%float) ClientExample.two_batches [1%float; 3%float]).
    reflexivity.
  - vm_compute. reflexivity.
Defined.

Lemma train_epochs_compose_witness :
  (nltb 0x1.47ae147ae147bp-7%float nzero = true ∨ single 1%float = [] →
   ∀ epochs, Driver.train ClientExample.Batch ClientExample.Loader ClientExample.iterate
               ClientExample.sgd_batch (single 1%float) ClientExample.two_batches epochs
               0x1.47ae147ae147bp-7%float
             = Err ValueError)
  ∧ (nltb 0x1.47ae147ae147bp-7%float nzero = false → single 1%float ≠ [] →
     (∀ epochs, epochs ≤ 0 →
        Driver.train ClientExample.Batch ClientExample.Loader ClientExample.iterate
          ClientExample.sgd_batch (single 1%float) ClientExample.two_batches epochs
          0x1.47ae147ae147bp-7%float
        = Ok (single 1%float, ClientExample.two_batches))
     ∧ (∀ a b, 0 ≤ a → 0 ≤ b →
          Driver.train ClientExample.Batch ClientExample.Loader ClientExample.iterate
            ClientExample.sgd_batch (single 1%float) ClientExample.two_batches (a + b)
            0x1.47ae147ae147bp-7%float
          = let* st := Driver.train ClientExample.Batch ClientExample.Loader
                         ClientExample.iterate ClientExample.sgd_batch (single 1%float)
                         ClientExample.two_batches a 0x1.47ae147ae147bp-7%float in
            Driver.train ClientExample.Batch ClientExample.Loader ClientExample.iterate
              ClientExample.sgd_batch st.1 st.2 b 0x1.47ae147ae147bp-7%float)).
Proof.
  apply (train_epochs_compose ClientExample.Batch ClientExample.Loader ClientExample.iterate
           ClientExample.sgd_batch (single 1%float) ClientExample.two_batches
           0x1.47ae147ae147bp-7%float).
  intros lr w b w' Hw. injection Hw as <-. reflexivity.
Defined.

(** A negative learning rate stops train before the first epoch. *)
Lemma train_negative_rate_raises :
  Driver.train ClientExample.Batch ClientExample.Loader ClientExample.iterate
    ClientExample.sgd_batch (single 1%float) ClientExample.two_batches 5 (-1)%float
  = Err ValueError.
Proof. vm_compute. reflexivity. Qed.

(** ** The Weights & Biases set-up *)

Section WandbFacts.
Import UtilsWandb.
Variable V : Type.
Variable readline : V → outcome string.
Variable strip : string → string.
Variable format : V → string.
Variable uuid4_hex : string.
Variable wandb_init : InitCall V → outcome unit.

Local Abbreviation custom_wandb_init_ :=
  (custom_wandb_init V readline strip format uuid4_hex wandb_init).

(** X26: The path of the key file does not reach Weights & Biases: if no run
    recorded so far was given a configuration with the entry
    [api_key_file], none is after custom_wandb_init, whether it returns or
    raises; the configuration it passes to wandb.init is the dict of the
    caller after the entry has been popped. *)
Theorem wandb_never_receives_key_file (project strategy : string) (w : World V) :
  Forall (fun call => run_config call !! "api_key_file" = None) (runs w) →
  Forall (fun call => run_config call !! "api_key_file" = None)
         (runs (custom_wandb_init_ project strategy w).1)
  ∧ (∀ call, call ∈ runs (custom_wandb_init_ project strategy w).1 →
             call ∈ runs w
             ∨ run_config call = config (custom_wandb_init_ project strategy w).1).
Proof.
  intros Hruns. unfold custom_wandb_init.
  destruct (config w !! "api_key_file") as [path|]; [|by split; [|left]].
  destruct (readline path) as [line|e]; [|by split; [|left]].
  cbv zeta. destruct (has_null (strip line)); [by split; [|left]|].
  destruct (delete "api_key_file" (config w) !! "model_name") as [model|];
    [|by split; [|left]].
  cbn [fst runs config]. split.
  - apply Forall_app. split; [done|]. apply Forall_singleton. cbn. apply lookup_delete_eq.
  - intros call [Hin|Hin%list_elem_of_singleton]%elem_of_app; [by left|].
    right. by subst call.
Qed.

(** X27: custom_wandb_init cannot be called twice on the same dict: once it has
    read the key file, and the key holds no null character (which
    os.environ refuses with ValueError), it has exported the key to the
    environment and popped [api_key_file] from the dict of the caller, also
    when it then raises for a missing [model_name], and a second call raises
    KeyError("api_key_file") without any effect. *)
Theorem custom_wandb_init_not_repeatable (project strategy project' strategy' : string)
    (w : World V) path line :
  config w !! "api_key_file" = Some path →
  readline path = Returns line →
  has_null (strip line) = false →
  config (custom_wandb_init_ project strategy w).1 = delete "api_key_file" (config w)
  ∧ environ (custom_wandb_init_ project strategy w).1 !! "WANDB_API_KEY" = Some (strip line)
  ∧ custom_wandb_init_ project' strategy' (custom_wandb_init_ project strategy w).1
    = ((custom_wandb_init_ project strategy w).1, Raises (KeyError "api_key_file")).
Proof.
  intros Hpath Hline Hnull.
  assert (config (custom_wandb_init_ project strategy w).1 = delete "api_key_file" (config w)
          ∧ environ (custom_wandb_init_ project strategy w).1 !! "WANDB_API_KEY"
            = Some (strip line)) as [Hcfg Henv].
  { unfold custom_wandb_init. rewrite Hpath, Hline. cbv zeta. rewrite Hnull.
    destruct (delete "api_key_file" (config w) !! "model_name");
      cbn [fst config environ]; (split; [done|apply lookup_insert_eq]). }
  split; [done|]. split; [done|].
  unfold custom_wandb_init at 1. by rewrite Hcfg, lookup_delete_eq.
Qed.

End WandbFacts.

Lemma wandb_never_receives_key_file_witness :
  Forall (fun call => UtilsWandb.run_config call !! "api_key_file" = None)
         (UtilsWandb.runs (WandbExample.run WandbExample.world).1)
  ∧ (∀ call, call ∈ UtilsWandb.runs (WandbExample.run WandbExample.world).1 →
             call ∈ UtilsWandb.runs WandbExample.world
             ∨ UtilsWandb.run_config call
               = UtilsWandb.config (WandbExample.run WandbExample.world).1).
Proof.
  apply (wandb_never_receives_key_file string WandbExample.readline WandbExample.strip
           (fun s => s) "0123456789abcdef0123456789abcdef"
           (fun _ => UtilsWandb.Returns tt) "face" "FedAvg" WandbExample.world).
  constructor.
Defined.

Lemma custom_wandb_init_not_repeatable_witness :
  UtilsWandb.config (WandbExample.run WandbExample.world).1
  = delete "api_key_file" (UtilsWandb.config WandbExample.world)
  ∧ UtilsWandb.environ (WandbExample.run WandbExample.world).1 !! "WANDB_API_KEY"
    = Some "0123abcd"%string
  ∧ WandbExample.run (WandbExample.run WandbExample.world).1
    = ((WandbExample.run WandbExample.world).1,
       UtilsWandb.Raises (UtilsWandb.KeyError "api_key_file")).
Proof.
  apply (custom_wandb_init_not_repeatable string WandbExample.readline WandbExample.strip
           (fun s => s) "0123456789abcdef0123456789abcdef"
           (fun _ => UtilsWandb.Returns tt) "face" "FedAvg" "face" "FedAvg"
           WandbExample.world "wandb.key"%string
           (String.append "0123abcd" (String (Ascii.ascii_of_nat 10) EmptyString))).
  - reflexivity.
  - reflexivity.
  - reflexivity.
Defined.

(** ** Server-side evaluation *)

Section ServerEvaluateFacts.
Context {F : Type} `{Numeric F}.
Variable Batch : Type.
Variable Loader : Type.
Variable iterate : Loader → list Batch * Loader.
Variable batch_loss : NDArrays F → Batch → result F.
Variable batch_len : Batch → Z.
Variable batch_correct : NDArrays F → Batch → Z.
Variable testloader : Loader.
Variable device : string.

(** X28: The evaluation function of face_verification/server.py puts the given
    weights into the model and returns the loss and the accuracy that the
    test of the driver computes on them, or raises what test raises; the
    round number and the configuration have no part in it. *)
Theorem server_evaluate_scores (server_round : Z) (weights model : NDArrays F)
    (config : gmap string (PyValue F)) :
  server_evaluate Batch Loader iterate batch_loss batch_len batch_correct testloader device
                  server_round weights config model
  = (weights,
     result_map (fun scores : F * F =>
                   (VFloat scores.1, {[ "accuracy" := VFloat scores.2 ]}))
                (Driver.test_scores Batch Loader iterate batch_loss batch_len batch_correct
                                    weights testloader)).
Proof.
  unfold server_evaluate. f_equal.
  change (Driver.call_test _ _ _ _ _ _ _ _)
    with (Driver.test Batch Loader iterate batch_loss batch_len batch_correct
            weights testloader).
  unfold Driver.test. by destruct (Driver.test_scores _ _ _ _ _ _ _ _) as [[L A]|].
Qed.

(** X29: The evaluation function of local/server.py unpacks the dict that the
    test of the driver returns as if it were a pair: whenever test returns,
    what it gives for the loss and the accuracy are the keys "loss" and
    "acc" of that dict, whatever the weights. *)
Theorem local_evaluate_returns_keys (weights model : NDArrays F) :
  local_evaluate Batch Loader iterate batch_loss batch_len batch_correct testloader
                 weights model
  = (weights,
     result_map (fun _ : F * F => (VStr "loss", {[ "accuracy" := VStr "acc" ]}))
                (Driver.test_scores Batch Loader iterate batch_loss batch_len batch_correct
                                    weights testloader)).
Proof.
  unfold local_evaluate. f_equal.
  change (Driver.call_test _ _ _ _ _ _ _ _)
    with (Driver.test Batch Loader iterate batch_loss batch_len batch_correct
            weights testloader).
  unfold Driver.test. by destruct (Driver.test_scores _ _ _ _ _ _ _ _) as [[L A]|].
Qed.

End ServerEvaluateFacts.

(** ** The client that loads its data at each call *)

Section RayClient.
Import FaceClient.
Context {F : Type} `{Numeric F}.
Variable int_of_float : F → result Z.
Variable int_of_text : string → result Z.
Variable float_of_text : string → result F.
Variable repr : PyValue F → string.
Variable Parameters : Type.
Variable parameters_to_ndarrays : Parameters → result (NDArrays F).
Variable ndarrays_to_parameters : NDArrays F → Parameters.
Variable Dataset : Type.
Variable Loader : Type.
Variable load_federated_dataset : bool → result Dataset.
Variable dataset_len : Dataset → Z.
Variable DataLoader_train : Dataset → Z → result Loader.
Variable DataLoader_test : Dataset → Z → result Loader.
Variable train : NDArrays F → Loader → Z → F → F → Criterion F → result (NDArrays F).
Variable test : NDArrays F → Loader → result (list (string * PyValue F)).

(** The end of the two fits, from the call of train on. *)
Ltac ray_end :=
  unfold cret, run_train, cbind, emit, lift, get_weights;
  cbn [fst snd net_weights trainset_len];
  match goal with
  | |- context [train ?w ?l ?e ?lr ?wd ?c] => destruct (train w l e lr wd c); [|done]
  end;
  cbn [fst snd trainset_len];
  match goal with Hlen : trainset_len _ = _ |- _ => by rewrite Hlen end.

(** X30: FlowerFaceRayClient does what FlowerFaceClient does: when the data set
    that it loads in fit (in evaluate) is the training set (the test set)
    that a FlowerFaceClient holds, its fit (its evaluate) returns or raises
    the same, with the same effect on the net and the same calls. *)
Theorem ray_client_as_client :
  (∀ (ins : FitIns F Parameters) (st : Client F * list (Event F)) trainset,
     load_federated_dataset true = Ok trainset →
     trainset_len st.1 = dataset_len trainset →
     FlowerFaceRayClient.fit int_of_float int_of_text float_of_text repr Parameters
       parameters_to_ndarrays ndarrays_to_parameters Dataset Loader
       load_federated_dataset dataset_len DataLoader_train train ins st
     = fit int_of_float int_of_text float_of_text repr Parameters parameters_to_ndarrays
         ndarrays_to_parameters Loader (DataLoader_train trainset) train ins st)
  ∧ (∀ (ins : FlowerFaceClient.EvaluateIns F Parameters) (st : Client F * list (Event F))
       testset,
       load_federated_dataset false = Ok testset →
       FlowerFaceRayClient.evaluate int_of_float int_of_text float_of_text Parameters
         parameters_to_ndarrays Dataset Loader load_federated_dataset dataset_len
         DataLoader_test test ins st
       = FlowerFaceClient.evaluate int_of_float int_of_text float_of_text Parameters
           parameters_to_ndarrays Loader (dataset_len testset) (DataLoader_test testset)
           test ins st).
Proof.
  split.
  - intros ins [self log] trainset Hload Hlen. cbn [fst] in Hlen.
    unfold FlowerFaceRayClient.fit, fit, cbind, lift. cbn [fst snd].
    destruct (parameters_to_ndarrays _) as [weights|]; [|done].
    destruct (let* v := dict_get _ "local_epochs" in _) as [epochs|]; [|done].
    destruct (let* v := dict_get _ "batch_size" in _) as [bs|]; [|done].
    destruct (let* v := dict_get _ "lr" in _) as [lr0|]; [|done].
    destruct (let* v := dict_get _ "weight_decay" in _) as [wd|]; [|done].
    destruct (let* v := dict_get _ "criterion_name" in _) as [name|]; [|done].
    rewrite Hload.
    unfold set_weights, make_loader, cbind, emit, lift. cbn [fst snd].
    destruct (DataLoader_train trainset bs) as [trainloader|]; [|done].
    destruct (String.eqb name "CrossEntropy"); [ray_end|].
    destruct (String.eqb name "ArcFace"); [|done].
    destruct (let* v := dict_get _ "scale" in assert_not_None v); [|done].
    destruct (let* v := dict_get _ "margin" in assert_not_None v); [|done].
    destruct (let* v := dict_get _ "scale" in py_float _ v); [|done].
    destruct (let* v := dict_get _ "margin" in py_float _ v); [|done].
    ray_end.
  - intros ins [self log] testset Hload.
    unfold FlowerFaceRayClient.evaluate, FlowerFaceClient.evaluate, cbind, lift.
    cbn [fst snd].
    destruct (parameters_to_ndarrays _) as [weights|]; [|done].
    destruct (let* v := dict_get _ "batch_size" in _) as [bs|]; [|done].
    by rewrite Hload.
Qed.

End RayClient.
